(** * libconfd: a shallow embedding of the render pipeline, the template
      function map, the backend drivers and the processor, with the
      properties of the specification settled against it.

    Sources embedded here:
    - [resource.go]       NewTemplateResource; TemplateResource:
                          setFileMode, setVars, createStageFile, sync,
                          check, reload, runCommand, process;
    - [template_func.go]  NewTemplateFuncMap, Cget, Cgets, Cgetv, Cgetvs,
                          Seq, Reverse, Map;
    - [backends]          WatchPrefix and GetValues of the etcd v3 and env
                          drivers, the options of the etcd driver;
    - [processor_old.go]  Start, Stop, runOnce, runInIntervalMode,
                          monitorPrefix;
    - [options, logger]   WithFuncMap and the mode options; the log levels
                          and the standard logger.

    Go values are modelled as follows: [string] is a byte string, [uint64]
    and [int32] are [Z] with the wrap-around written out where the code can
    reach it, a Go map is a [gmap] (or the list of pairs of one iteration of
    [range] where the order of iteration is observable), an [error] is
    [option string] with [None] for [nil]. *)

From Stdlib Require Import ZArith Ascii String List Lia Bool.
From stdpp Require Import base option list strings gmap fin_maps.
From ITree Require Import ITree.

Local Open Scope string_scope.
Local Open Scope list_scope.
Local Open Scope Z_scope.

(** ** Go's error values and (value, error) results *)

Definition error := option string.

Inductive Result (A : Type) : Type :=
| Ok (a : A)
| Err (msg : string).
Arguments Ok {A} a.
Arguments Err {A} msg.

Definition isOk {A} (r : Result A) : bool :=
  match r with Ok _ => true | Err _ => false end.

(** ** package strings *)

Module GoStrings.

(** [strings.HasPrefix] *)
Definition HasPrefix (s p : string) : bool := String.prefix p s.

(** [strings.TrimPrefix]: [s] without the leading [p], or [s] itself. *)
Definition TrimPrefix (s p : string) : string :=
  if HasPrefix s p
  then String.substring (String.length p) (String.length s - String.length p) s
  else s.

(** [strings.Contains]: [sub] occurs somewhere in [s]. *)
Fixpoint Contains (s sub : string) : bool :=
  String.prefix sub s ||
  match s with
  | EmptyString => false
  | String _ s' => Contains s' sub
  end.

End GoStrings.

(** ** package path (and filepath on a POSIX target) *)

Module GoPath.

Definition slash : ascii := "/"%char.

(** [strings.Split(s, "/")] *)
Fixpoint splitSlash (s : string) : list string :=
  match s with
  | EmptyString => [EmptyString]
  | String c s' =>
      if Ascii.eqb c slash then EmptyString :: splitSlash s'
      else match splitSlash s' with
           | x :: xs => String c x :: xs
           | [] => [String c EmptyString]
           end
  end.

(** [strings.Join(xs, "/")] *)
Fixpoint joinSlash (xs : list string) : string :=
  match xs with
  | [] => EmptyString
  | [x] => x
  | x :: xs' => x +:+ "/" +:+ joinSlash xs'
  end.

(** One element of the path seen by [Clean]; [stack] holds the elements
    kept so far, innermost first. *)
Definition cleanStep (rooted : bool) (stack : list string) (c : string)
  : list string :=
  if String.eqb c "" then stack
  else if String.eqb c "." then stack
  else if String.eqb c ".." then
    match stack with
    | top :: rest =>
        if String.eqb top ".." then c :: stack else rest
    | [] => if rooted then [] else [c]
    end
  else c :: stack.

Definition cleanElems (rooted : bool) (cs : list string) : list string :=
  rev (fold_left (cleanStep rooted) cs []).

Definition isRooted (p : string) : bool :=
  match p with
  | String c _ => Ascii.eqb c slash
  | EmptyString => false
  end.

(** [path.Clean] *)
Definition Clean (p : string) : string :=
  if String.eqb p "" then "."
  else
    let rooted := isRooted p in
    let body := joinSlash (cleanElems rooted (splitSlash p)) in
    if rooted then "/" +:+ body
    else if String.eqb body "" then "." else body.

(** [path.Join]: the elements from the first non-empty one on, joined
    with a slash and cleaned; the empty string when all are empty. *)
Fixpoint Join (elem : list string) : string :=
  match elem with
  | [] => EmptyString
  | e :: rest =>
      if String.eqb e "" then Join rest else Clean (joinSlash elem)
  end.

(** [path.Base] *)
Definition Base (p : string) : string :=
  if String.eqb p "" then "."
  else
    match List.filter (fun c => negb (String.eqb c "")) (splitSlash p) with
    | [] => "/"
    | x :: xs => List.last xs x
    end.

(** [path.Dir]: everything up to the final slash, cleaned. *)
Definition Dir (p : string) : string :=
  match rev (splitSlash p) with
  | _ :: (_ :: _) as front => Clean (joinSlash (rev front) +:+ "/")
  | _ => "."
  end.

End GoPath.

(** ** package strconv *)

Module Strconv.

Definition byteZ (c : ascii) : Z := Z.of_nat (nat_of_ascii c).

Definition maxUint64 : Z := 2 ^ 64 - 1.
Definition wrap64 (z : Z) : Z := z mod 2 ^ 64.

(** The value of one digit byte, as the [switch] in [ParseUint]. *)
Definition digitVal (c : ascii) : option Z :=
  let d := byteZ c in
  if (48 <=? d) && (d <=? 57) then Some (d - 48)
  else if (97 <=? d) && (d <=? 122) then Some (d - 97 + 10)
  else if (65 <=? d) && (d <=? 90) then Some (d - 65 + 10)
  else None.

Definition ErrSyntax : string := "invalid syntax".
Definition ErrRange : string := "value out of range".

(** The digit loop of [ParseUint], on [uint64] with its overflow tests. *)
Fixpoint parseDigits (base cutoff maxVal : Z) (s : string) (n : Z)
  : Result Z :=
  match s with
  | EmptyString => Ok n
  | String c s' =>
      match digitVal c with
      | None => Err ErrSyntax
      | Some v =>
          if v >=? base then Err ErrSyntax
          else if n >=? cutoff then Err ErrRange
          else
            let n' := wrap64 (n * base) in
            let n1 := wrap64 (n' + v) in
            if (n1 <? n') || (n1 >? maxVal) then Err ErrRange
            else parseDigits base cutoff maxVal s' n1
      end
  end.

Definition isX (c : ascii) : bool :=
  Ascii.eqb c "x"%char || Ascii.eqb c "X"%char.

(** With [base = 0] the base is read off the prefix of the string: [0x]
    or [0X] for 16, a leading [0] for 8, otherwise 10.  The result is
    the base and the digits that remain. *)
Definition detectBase (s : string) : Result (Z * string) :=
  match s with
  | EmptyString => Err ErrSyntax
  | String c0 rest =>
      if Ascii.eqb c0 "0"%char then
        match rest with
        | String c1 digits =>
            if isX c1 then
              match digits with
              | EmptyString => Err ErrSyntax
              | _ => Ok (16, digits)
              end
            else Ok (8, rest)
        | EmptyString => Ok (8, rest)
        end
      else Ok (10, s)
  end.

(** [strconv.ParseUint(s, 0, bitSize)] for [0 < bitSize <= 64], as it is
    up to Go 1.12. *)
Definition ParseUint0Classic (s : string) (bitSize : Z) : Result Z :=
  match detectBase s with
  | Err e => Err e
  | Ok (base, digits) =>
      let cutoff := maxUint64 / base + 1 in
      let maxVal := 2 ^ bitSize - 1 in
      parseDigits base cutoff maxVal digits 0
  end.

(** From Go 1.13 on, [ParseUint] with base 0 also reads the prefixes [0b]
    and [0o] and lets underscores separate digits. *)

(** [lower(c)], that is [c | ('x' - 'X')] *)
Definition lower (c : ascii) : Z := Z.lor (byteZ c) 32.

Definition digitValLower (c : ascii) : option Z :=
  let d := byteZ c in
  if (48 <=? d) && (d <=? 57) then Some (d - 48)
  else if (97 <=? lower c) && (lower c <=? 122) then Some (lower c - 97 + 10)
  else None.

Definition underscore : ascii := "_"%char.

(** The digit loop with underscores skipped; the flag tells whether one
    was seen. *)
Fixpoint parseDigitsSep (base cutoff maxVal : Z) (s : string) (n : Z)
  (underscores : bool) : Result (Z * bool) :=
  match s with
  | EmptyString => Ok (n, underscores)
  | String c s' =>
      if Ascii.eqb c underscore
      then parseDigitsSep base cutoff maxVal s' n true
      else
        match digitValLower c with
        | None => Err ErrSyntax
        | Some v =>
            if v >=? base then Err ErrSyntax
            else if n >=? cutoff then Err ErrRange
            else
              let n' := wrap64 (n * base) in
              let n1 := wrap64 (n' + v) in
              if (n1 <? n') || (n1 >? maxVal) then Err ErrRange
              else parseDigitsSep base cutoff maxVal s' n1 underscores
        end
  end.

(** What [underscoreOK] saw last: the beginning, a digit or base prefix,
    an underscore, or something else. *)
Inductive Saw := SawStart | SawDigit | SawUnderscore | SawOther.

Fixpoint underscoreScan (hex : bool) (saw : Saw) (s : string) : bool :=
  match s with
  | EmptyString => match saw with SawUnderscore => false | _ => true end
  | String c s' =>
      if ((48 <=? byteZ c) && (byteZ c <=? 57))
         || (hex && (97 <=? lower c) && (lower c <=? 102))
      then underscoreScan hex SawDigit s'
      else if Ascii.eqb c underscore then
        match saw with
        | SawDigit => underscoreScan hex SawUnderscore s'
        | _ => false
        end
      else
        match saw with
        | SawUnderscore => false
        | _ => underscoreScan hex SawOther s'
        end
  end.

(** [underscoreOK]: underscores only between digits or after the prefix. *)
Definition underscoreOK (s : string) : bool :=
  let s :=
    match s with
    | String c r =>
        if Ascii.eqb c "-"%char || Ascii.eqb c "+"%char then r else s
    | EmptyString => s
    end in
  match s with
  | String c0 (String c1 r) =>
      if Ascii.eqb c0 "0"%char
         && ((lower c1 =? 98) || (lower c1 =? 111) || (lower c1 =? 120))
      then underscoreScan (lower c1 =? 120) SawDigit r
      else underscoreScan false SawStart s
  | _ => underscoreScan false SawStart s
  end.

(** The base and the digits of a non-empty string. *)
Definition detectBaseSep (s : string) : Z * string :=
  match s with
  | String c0 rest =>
      if Ascii.eqb c0 "0"%char then
        match rest with
        | String c1 (String _ _ as digits) =>
            if lower c1 =? 98 then (2, digits)
            else if lower c1 =? 111 then (8, digits)
            else if lower c1 =? 120 then (16, digits)
            else (8, rest)
        | _ => (8, rest)
        end
      else (10, s)
  | EmptyString => (10, s)
  end.

(** [strconv.ParseUint(s, 0, bitSize)] for [0 < bitSize <= 64], as it is
    from Go 1.13 on. *)
Definition ParseUint0Sep (s : string) (bitSize : Z) : Result Z :=
  if String.eqb s "" then Err ErrSyntax
  else
    let '(base, digits) := detectBaseSep s in
    let cutoff := maxUint64 / base + 1 in
    let maxVal := 2 ^ bitSize - 1 in
    match parseDigitsSep base cutoff maxVal digits 0 false with
    | Err e => Err e
    | Ok (n, underscores) =>
        if underscores && negb (underscoreOK s) then Err ErrSyntax else Ok n
    end.

(** The sources do not say which release of the standard library the
    program is built with, so the release is a parameter. *)
Inductive Release := Go1_12 | Go1_13.

Definition ParseUint0 (release : Release) (s : string) (bitSize : Z)
  : Result Z :=
  match release with
  | Go1_12 => ParseUint0Classic s bitSize
  | Go1_13 => ParseUint0Sep s bitSize
  end.

End Strconv.

(** ** The key/value snapshot of a template resource *)

Module KV.

Record KVPair := { Key : string; Value : string }.

Definition nonEmpty (c : string) : bool := negb (String.eqb c "").

(** Modelled from the spec: the snapshot type [KVStore] with its [Set]
    (here [Set_]), [Get] and [Purge] (kvstore.go is not among the
    sources).  The spec:
    "set(k,v): normalize k (ensure leading /, collapse //, strip trailing
    / unless k is the root); overwrite", "get(k): returns the pair or
    fails with not-found", "purge(): empty". *)
Definition normalize (k : string) : string :=
  "/" +:+ GoPath.joinSlash (List.filter nonEmpty (GoPath.splitSlash k)).

Definition Purge : gmap string string := ∅.

Definition Set_ (k v : string) (s : gmap string string) : gmap string string :=
  <[normalize k := v]> s.

Definition ErrNotExist : string := "key does not exist".

Definition Get (k : string) (s : gmap string string) : Result KVPair :=
  match s !! k with
  | Some v => Ok {| Key := k; Value := v |}
  | None => Err ErrNotExist
  end.

End KV.

(** ** resource.go: the render pipeline of one template resource *)

Module Resource.

(** A file of the target file system: its bytes, mode and owner. *)
Record File := { fdata : string; fmode : Z; fuid : Z; fgid : Z }.

(** What the pipeline asks of the operating system, in program order. *)
Inductive Event :=
| EvTempFile (p : string)
| EvChmod (p : string) (m : Z)
| EvChown (p : string) (u g : Z)
| EvRun (cmd : string) (res : error)
| EvRename (src dst : string) (res : error)
| EvReadFile (p : string)
| EvWriteFile (p : string) (res : error)
| EvRemove (p : string).

Record World := { files : gmap string File; events : list Event }.

Definition emit (e : Event) (w : World) : World :=
  {| files := files w; events := events w ++ [e] |}.

Definition withFiles (fs : gmap string File) (w : World) : World :=
  {| files := fs; events := events w |}.

Record TemplateResource := {
  CheckCmd : string;
  Dest : string;
  FileMode : Z;
  Gid : Z;
  Keys : list string;
  Mode : string;
  Prefix : string;
  ReloadCmd : string;
  Src : string;
  StageFile : option string;    (** the name of the open stage file *)
  Uid : Z;
  funcMap : list string;        (** the names bound in the function map *)
  lastIndex : Z;
  keepStageFile : bool;
  noop : bool;
  store : gmap string string;
  syncOnly : bool;
  PGPPrivateKey : string
}.

Definition setFileModeField (m : Z) (t : TemplateResource) :=
  {| CheckCmd := CheckCmd t; Dest := Dest t; FileMode := m; Gid := Gid t;
     Keys := Keys t; Mode := Mode t; Prefix := Prefix t;
     ReloadCmd := ReloadCmd t; Src := Src t; StageFile := StageFile t;
     Uid := Uid t; funcMap := funcMap t; lastIndex := lastIndex t;
     keepStageFile := keepStageFile t; noop := noop t; store := store t;
     syncOnly := syncOnly t; PGPPrivateKey := PGPPrivateKey t |}.

Definition setStoreField (s : gmap string string) (t : TemplateResource) :=
  {| CheckCmd := CheckCmd t; Dest := Dest t; FileMode := FileMode t;
     Gid := Gid t; Keys := Keys t; Mode := Mode t; Prefix := Prefix t;
     ReloadCmd := ReloadCmd t; Src := Src t; StageFile := StageFile t;
     Uid := Uid t; funcMap := funcMap t; lastIndex := lastIndex t;
     keepStageFile := keepStageFile t; noop := noop t; store := s;
     syncOnly := syncOnly t; PGPPrivateKey := PGPPrivateKey t |}.

Definition setStageFileField (f : option string) (t : TemplateResource) :=
  {| CheckCmd := CheckCmd t; Dest := Dest t; FileMode := FileMode t;
     Gid := Gid t; Keys := Keys t; Mode := Mode t; Prefix := Prefix t;
     ReloadCmd := ReloadCmd t; Src := Src t; StageFile := f;
     Uid := Uid t; funcMap := funcMap t; lastIndex := lastIndex t;
     keepStageFile := keepStageFile t; noop := noop t; store := store t;
     syncOnly := syncOnly t; PGPPrivateKey := PGPPrivateKey t |}.

(** Everything outside the program that a render depends on: the backend
    client, the template engine, the shell, and the failures the
    operating system may report.  The file contents themselves live in
    [World]. *)
Record Env := {
  (** [storeClient.GetValues]: the pairs of the returned map in the order
      [range] visits them, or the error. *)
  GetValues : list string -> Result (list (string * string));
  (** [sameConfig(staged, dest)] of util.go, which is not among the
      sources: it reads both files and reports whether they agree. *)
  sameConfig : string -> string -> gmap string File -> bool * error;
  (** [template.New(..).Funcs(funcMap).ParseFiles(src)] *)
  parseFiles : list string -> string -> gmap string File -> error;
  (** [tmpl.Execute(temp, nil)]: the rendered bytes, or the error. *)
  execute : string -> gmap string File -> gmap string string -> Result string;
  (** [ioutil.TempFile(dir, prefix)]: the name of the file it creates. *)
  tempFile : string -> string -> gmap string File -> Result string;
  (** parsing [CheckCmd] as a template and executing it over
      [{"src": staged}] *)
  renderCheckCmd : string -> string -> Result string;
  (** [exec.Command("/bin/sh", "-c", cmd).CombinedOutput()], or [cmd /C]
      on Windows: [None] for exit status 0.  A command is known by its
      exit status only; what it does to the files on its own is not part
      of the model. *)
  shell : string -> gmap string File -> error;
  (** a failure of [os.Rename] that the contents of the file system do
      not explain (a busy mount point, a permission) *)
  renameFails : string -> string -> gmap string File -> error;
  (** likewise for [ioutil.WriteFile] *)
  writeFails : string -> gmap string File -> error;
  (** likewise for [ioutil.ReadFile] of a file that exists (one that its
      mode makes unreadable) *)
  readFails : string -> gmap string File -> error;
  (** a failure of [os.Chmod], and one of [os.Chown] (a process without
      the privilege to give a file away) *)
  chmodFails : string -> gmap string File -> error;
  chownFails : string -> gmap string File -> error;
  (** the file mode creation mask of the process *)
  umask : Z;
  euid : Z;
  egid : Z;
  (** the release of the Go standard library behind [strconv] *)
  goRelease : Strconv.Release
}.

(** Modelled from the spec: [isFileExist] of util.go, which is not among
    the sources; "use existing dest's mode if it exists". *)
Definition isFileExist (p : string) (fs : gmap string File) : bool :=
  bool_decide (is_Some (fs !! p)).

(** Modelled from the spec: [appendPrefix] of util.go, which is not among
    the sources; "prefixedKeys = [prefix + k for k in keys]". *)
Definition appendPrefix (prefix : string) (keys : list string) : list string :=
  map (fun k => prefix +:+ k) keys.

(** *** System calls on the file-system model *)

Definition ErrNoEnt : string := "no such file or directory".

Definition osStat (p : string) (fs : gmap string File) : Result File :=
  match fs !! p with
  | Some f => Ok f
  | None => Err ErrNoEnt
  end.

Definition osRemove (p : string) (w : World) : World :=
  emit (EvRemove p) (withFiles (delete p (files w)) w).

(** The bits of a [FileMode] that reach the file system when a file is
    created or its mode is changed: the permission bits and the setuid,
    setgid and sticky bits ([ModeSetuid], [ModeSetgid], [ModeSticky]). *)
Definition modeBits : Z := 511 + 2 ^ 23 + 2 ^ 22 + 2 ^ 20.

(** The id a file has after a chown: -1 leaves it as it is. *)
Definition chownId (new old : Z) : Z := if new =? -1 then old else new.

Section WithEnv.

Variable E : Env.

Definition osRename (src dst : string) (w : World) : error * World :=
  match files w !! src with
  | None => (Some ErrNoEnt, emit (EvRename src dst (Some ErrNoEnt)) w)
  | Some f =>
      match renameFails E src dst (files w) with
      | Some e => (Some e, emit (EvRename src dst (Some e)) w)
      | None =>
          (None, emit (EvRename src dst None)
                   (withFiles (<[dst := f]> (delete src (files w))) w))
      end
  end.

(** The mode a file created with [perm] gets: the bits of [perm] that
    reach the file system, less the permission bits of the umask. *)
Definition createMode (perm : Z) : Z :=
  Z.ldiff (Z.land perm modeBits) (Z.land (umask E) 511).

(** [os.Chmod]; the pipeline discards its result.  A failed call, and
    one on a missing file, changes nothing. *)
Definition osChmod (p : string) (m : Z) (w : World) : World :=
  emit (EvChmod p m)
    match chmodFails E p (files w) with
    | Some _ => w
    | None =>
        withFiles
          (alter (fun f => {| fdata := fdata f; fmode := Z.land m modeBits;
                              fuid := fuid f; fgid := fgid f |}) p (files w))
          w
    end.

(** [os.Chown]; the pipeline discards its result likewise. *)
Definition osChown (p : string) (u g : Z) (w : World) : World :=
  emit (EvChown p u g)
    match chownFails E p (files w) with
    | Some _ => w
    | None =>
        withFiles
          (alter (fun f => {| fdata := fdata f; fmode := fmode f;
                              fuid := chownId u (fuid f);
                              fgid := chownId g (fgid f) |}) p (files w))
          w
    end.

Definition ioutilReadFile (p : string) (w : World) : Result string * World :=
  match files w !! p with
  | Some f =>
      match readFails E p (files w) with
      | Some e => (Err e, emit (EvReadFile p) w)
      | None => (Ok (fdata f), emit (EvReadFile p) w)
      end
  | None => (Err ErrNoEnt, emit (EvReadFile p) w)
  end.

(** [ioutil.WriteFile]: an existing file keeps its mode and owner, a
    new one is created with [perm], less the umask, and the identity of
    the process. *)
Definition ioutilWriteFile (p data : string) (perm : Z) (w : World)
  : error * World :=
  match writeFails E p (files w) with
  | Some e => (Some e, emit (EvWriteFile p (Some e)) w)
  | None =>
      let f := match files w !! p with
               | Some old => {| fdata := data; fmode := fmode old;
                                fuid := fuid old; fgid := fgid old |}
               | None => {| fdata := data; fmode := createMode perm;
                            fuid := euid E; fgid := egid E |}
               end in
      (None, emit (EvWriteFile p None) (withFiles (<[p := f]> (files w)) w))
  end.

(** [setFileMode] *)
Definition setFileMode (t : TemplateResource) (w : World)
  : error * TemplateResource :=
  if String.eqb (Mode t) "" then
    if negb (isFileExist (Dest t) (files w)) then
      (None, setFileModeField 420 t)
    else
      match osStat (Dest t) (files w) with
      | Err e => (Some e, t)
      | Ok fi => (None, setFileModeField (fmode fi) t)
      end
  else
    match Strconv.ParseUint0 (goRelease E) (Mode t) 32 with
    | Err e => (Some e, t)
    | Ok mode => (None, setFileModeField (mode mod 2 ^ 32) t)
    end.

(** [setVars] *)
Definition setVars (t : TemplateResource) : error * TemplateResource :=
  match GetValues E (appendPrefix (Prefix t) (Keys t)) with
  | Err e => (Some e, t)
  | Ok result =>
      let purged := KV.Purge in
      let filled :=
        fold_left
          (fun st kv =>
             KV.Set_ (GoPath.Join ["/"; GoStrings.TrimPrefix (fst kv) (Prefix t)])
                    (snd kv) st)
          result purged in
      (None, setStoreField filled t)
  end.

(** [createStageFile] *)
Definition createStageFile (t : TemplateResource) (w : World)
  : error * TemplateResource * World :=
  if negb (isFileExist (Src t) (files w)) then
    (Some ("Missing template: " +:+ Src t), t, w)
  else
    match parseFiles E (funcMap t) (Src t) (files w) with
    | Some e =>
        (Some ("Unable to process template " +:+ Src t +:+ ", " +:+ e), t, w)
    | None =>
        match tempFile E (GoPath.Dir (Dest t)) ("." +:+ GoPath.Base (Dest t))
                       (files w) with
        | Err e => (Some e, t, w)
        | Ok temp =>
            let created :=
              {| fdata := ""; fmode := createMode 384;
                 fuid := euid E; fgid := egid E |} in
            let w1 := emit (EvTempFile temp)
                        (withFiles (<[temp := created]> (files w)) w) in
            match execute E (Src t) (files w) (store t) with
            | Err e => (Some e, t, osRemove temp w1)
            | Ok out =>
                let written :=
                  {| fdata := out; fmode := createMode 384;
                     fuid := euid E; fgid := egid E |} in
                let w2 := withFiles (<[temp := written]> (files w1)) w1 in
                let w3 := osChmod temp (FileMode t) w2 in
                let w4 := osChown temp (Uid t) (Gid t) w3 in
                (None, setStageFileField (Some temp) t, w4)
            end
        end
    end.

(** [runCommand] *)
Definition runCommand (cmd : string) (w : World) : error * World :=
  let r := shell E cmd (files w) in
  (r, emit (EvRun cmd r) w).

(** [StageFile.Name()] on a nil [StageFile] panics instead of returning;
    the pipeline only calls [sync] and [check] with a stage file set. *)
Definition ErrNilStage : string := "nil pointer dereference".

(** [check] *)
Definition check (t : TemplateResource) (w : World) : error * World :=
  match StageFile t with
  | None => (Some ErrNilStage, w)
  | Some staged =>
      match renderCheckCmd E (CheckCmd t) staged with
      | Err e => (Some e, w)
      | Ok cmd => runCommand cmd w
      end
  end.

(** [reload] *)
Definition reload (t : TemplateResource) (w : World) : error * World :=
  runCommand (ReloadCmd t) w.

Definition busy : string := "device or resource busy".

(** The part of [sync] after the target has been overwritten. *)
Definition syncReload (t : TemplateResource) (w : World) : error * World :=
  if negb (syncOnly t) && negb (String.eqb (ReloadCmd t) "") then
    match reload t w with
    | (Some e, w') => (Some e, w')
    | (None, w') => (None, w')
    end
  else (None, w).

(** The body of [sync], up to its [return]s. *)
Definition syncBody (t : TemplateResource) (staged : string) (w : World)
  : error * World :=
  let '(ok, _) := sameConfig E staged (Dest t) (files w) in
  if noop t then (None, w)
  else if negb ok then
    let checked :=
      if negb (syncOnly t) && negb (String.eqb (CheckCmd t) "")
      then check t w else (None, w) in
    match checked with
    | (Some e, w1) => (Some ("Config check failed: " +:+ e), w1)
    | (None, w1) =>
        match osRename staged (Dest t) w1 with
        | (None, w2) => syncReload t w2
        | (Some e, w2) =>
            if GoStrings.Contains e busy then
              match ioutilReadFile staged w2 with
              | (Err rerr, w3) => (Some rerr, w3)
              | (Ok contents, w3) =>
                  let '(werr, w4) :=
                    ioutilWriteFile (Dest t) contents (FileMode t) w3 in
                  let w5 := osChown (Dest t) (Uid t) (Gid t) w4 in
                  match werr with
                  | Some e' => (Some e', w5)
                  | None => syncReload t w5
                  end
              end
            else (Some e, w2)
        end
    end
  else (None, w).

(** [sync]: the body, then the deferred [os.Remove(staged)] unless the
    stage file is kept. *)
Definition sync (t : TemplateResource) (w : World) : error * World :=
  match StageFile t with
  | None => (Some ErrNilStage, w)
  | Some staged =>
      let '(e, w') := syncBody t staged w in
      if keepStageFile t then (e, w') else (e, osRemove staged w')
  end.

(** [process] *)
Definition process (t : TemplateResource) (w : World)
  : error * TemplateResource * World :=
  match setFileMode t w with
  | (Some e, t1) => (Some e, t1, w)
  | (None, t1) =>
      match setVars t1 with
      | (Some e, t2) => (Some e, t2, w)
      | (None, t2) =>
          match createStageFile t2 w with
          | (Some e, t3, w3) => (Some e, t3, w3)
          | (None, t3, w3) =>
              match sync t3 w3 with
              | (Some e, w4) => (Some e, t3, w4)
              | (None, w4) => (None, t3, w4)
              end
          end
      end
  end.

End WithEnv.

(** Modelled from the spec: [sameConfig] of util.go, which is not among
    the sources; "Compare staged vs dest for byte equality; if dest is
    missing, treat as differs". *)
Definition sameConfigBytes (staged dest : string) (fs : gmap string File)
  : bool * error :=
  match fs !! dest with
  | None => (false, None)
  | Some d =>
      match fs !! staged with
      | None => (false, Some ErrNoEnt)
      | Some s => (String.eqb (fdata s) (fdata d), None)
      end
  end.

End Resource.

(** ** template_func.go: the functions bound into a template *)

Module TemplateFunc.

Import KV.

(** A Go slice: [None] is the nil slice. *)
Definition slice (A : Type) : Type := option (list A).

(** A call either returns or panics (a failed type assertion). *)
Inductive Run (A : Type) : Type :=
| Returns (a : A)
| Panics.
Arguments Returns {A} a.
Arguments Panics {A}.

(** The query methods of [*KVStore] that the template functions call;
    kvstore.go is not among the sources, so they are taken as given. *)
Record KVStoreQueries := {
  storeGet : string -> KVPair * error;
  storeGetAll : string -> slice KVPair * error;
  storeGetValue : string -> list string -> string * error;
  storeGetAllValues : string -> slice string * error
}.

(** A value of a [template.FuncMap], by its dynamic Go type.  The type
    assertions of the crypt functions tell these types apart; of the
    remaining functions only the name matters here. *)
Inductive FuncVal :=
| FnKV (f : string -> Run (KVPair * error))
| FnKVs (f : string -> Run (slice KVPair * error))
| FnVal (f : string -> list string -> Run (string * error))
| FnVals (f : string -> Run (slice string * error))
| FnStr (f : string -> Run (string * error))
| FnMethod (name : string).

Record TemplateFunc := {
  FuncMap : gmap string FuncVal;
  Store : KVStoreQueries;
  PGPPrivateKey : string
}.

Section WithDecoder.

(** [secconfDecode(data, secertKeyring)] of secconf.go, which is not
    among the sources: the plaintext, or the error. *)
Variable secconfDecode : string -> string -> Result string.

Definition Get (p : TemplateFunc) (key : string) : KVPair * error :=
  storeGet (Store p) key.
Definition Gets (p : TemplateFunc) (pattern : string) : slice KVPair * error :=
  storeGetAll (Store p) pattern.
Definition Getv (p : TemplateFunc) (key : string) (v : list string) : string * error :=
  storeGetValue (Store p) key v.
Definition Getvs (p : TemplateFunc) (pattern : string) : slice string * error :=
  storeGetAllValues (Store p) pattern.

(** [Cget] *)
Definition Cget (p : TemplateFunc) (key : string) : Run (KVPair * error) :=
  match FuncMap p !! "get" with
  | Some (FnKV get) =>
      match get key with
      | Panics => Panics
      | Returns (kv, None) =>
          match secconfDecode (Value kv) (PGPPrivateKey p) with
          | Ok b => Returns ({| Key := Key kv; Value := b |}, None)
          | Err e => Returns (kv, Some e)
          end
      | Returns (kv, Some e) => Returns (kv, Some e)
      end
  | _ => Panics
  end.

(** The loop of [Cgets]: [done] is the part of [kvs] already overwritten
    with plaintext, [todo] the part still to decode. *)
Fixpoint cgetsLoop (key : string) (done todo : list KVPair)
  : slice KVPair * error :=
  match todo with
  | [] => (Some done, None)
  | kv :: rest =>
      match secconfDecode (Value kv) key with
      | Err e => (None, Some e)
      | Ok b => cgetsLoop key (done ++ [{| Key := Key kv; Value := b |}]) rest
      end
  end.

(** [Cgets] *)
Definition Cgets (p : TemplateFunc) (pattern : string)
  : Run (slice KVPair * error) :=
  match FuncMap p !! "gets" with
  | Some (FnKVs gets) =>
      match gets pattern with
      | Panics => Panics
      | Returns (Some kvs, None) => Returns (cgetsLoop (PGPPrivateKey p) [] kvs)
      | Returns (None, None) => Returns (None, None)
      | Returns (kvs, Some e) => Returns (kvs, Some e)
      end
  | _ => Panics
  end.

(** [Cgetv] *)
Definition Cgetv (p : TemplateFunc) (key : string) : Run (string * error) :=
  match FuncMap p !! "getv" with
  | Some (FnVal getv) =>
      match getv key [] with
      | Panics => Panics
      | Returns (v, None) =>
          match secconfDecode v (PGPPrivateKey p) with
          | Ok b => Returns (b, None)
          | Err e => Returns (v, Some e)
          end
      | Returns (v, Some e) => Returns (v, Some e)
      end
  | _ => Panics
  end.

(** The loop of [Cgetvs]. *)
Fixpoint cgetvsLoop (key : string) (done todo : list string)
  : slice string * error :=
  match todo with
  | [] => (Some done, None)
  | v :: rest =>
      match secconfDecode v key with
      | Err e => (None, Some e)
      | Ok b => cgetvsLoop key (done ++ [b]) rest
      end
  end.

(** [Cgetvs] *)
Definition Cgetvs (p : TemplateFunc) (pattern : string)
  : Run (slice string * error) :=
  match FuncMap p !! "getvs" with
  | Some (FnVals getvs) =>
      match getvs pattern with
      | Panics => Panics
      | Returns (Some vs, None) => Returns (cgetvsLoop (PGPPrivateKey p) [] vs)
      | Returns (None, None) => Returns (None, None)
      | Returns (vs, Some e) => Returns (vs, Some e)
      end
  | _ => Panics
  end.

(** The names bound to the remaining methods of [TemplateFunc]. *)
Definition utilNames : list (string * string) :=
  [("exists", "Exists"); ("ls", "Ls"); ("lsdir", "Lsdir");
   ("base", "Base"); ("split", "Split"); ("json", "Json");
   ("jsonArray", "JsonArray"); ("dir", "Dir"); ("map", "Map");
   ("getenv", "Getenv"); ("join", "Join"); ("datetime", "Datetime");
   ("toUpper", "ToUpper"); ("toLower", "ToLower");
   ("contains", "Contains"); ("replace", "Replace");
   ("trimSuffix", "TrimSuffix"); ("lookupIP", "LookupIP");
   ("lookupSRV", "LookupSRV"); ("fileExists", "FileExists");
   ("base64Encode", "Base64Encode"); ("base64Decode", "Base64Decode");
   ("parseBool", "ParseBool"); ("reverse", "Reverse");
   ("sortByLength", "SortByLength"); ("sortKVByLength", "SortKVByLength");
   ("add", "Add"); ("sub", "Sub"); ("div", "Div"); ("mod", "Mod");
   ("mul", "Mul"); ("seq", "Seq"); ("atoi", "Atoi")].

(** The composite literal assigned to [p.FuncMap]: the method values
    [p.Get], ... of [p] as it is at that point. *)
Definition plainFuncMap (p : TemplateFunc) : gmap string FuncVal :=
  <["get" := FnKV (fun k => Returns (Get p k))]>
  (<["gets" := FnKVs (fun pat => Returns (Gets p pat))]>
  (<["getv" := FnVal (fun k v => Returns (Getv p k v))]>
  (<["getvs" := FnVals (fun pat => Returns (Getvs p pat))]>
  (list_to_map (map (fun nm => (fst nm, FnMethod (snd nm))) utilNames))))).

(** [p] when the literal has been assigned to [p.FuncMap]. *)
Definition withPlainFuncs (store : KVStoreQueries) (pgpPrivateKey : string)
  : TemplateFunc :=
  let p := {| FuncMap := ∅; Store := store; PGPPrivateKey := pgpPrivateKey |} in
  {| FuncMap := plainFuncMap p; Store := Store p;
     PGPPrivateKey := PGPPrivateKey p |}.

(** [NewTemplateFuncMap].  The method values [p.Cget], ... capture [p]
    when [p.FuncMap] already refers to the map they are stored in; a Go
    map is a reference, so they see the finished map.  Here they are
    built over the map of the literal; [crypt_funcs_see_same_plain]
    below shows that the finished map answers their lookups alike. *)
Definition NewTemplateFuncMap (store : KVStoreQueries) (pgpPrivateKey : string)
  : TemplateFunc * gmap string FuncVal :=
  let p := withPlainFuncs store pgpPrivateKey in
  let m :=
    if (0 <? String.length pgpPrivateKey)%nat then
      <["cgetvs" := FnVals (Cgetvs p)]>
      (<["cgetv" := FnStr (Cgetv p)]>
      (<["cgets" := FnKVs (Cgets p)]>
      (<["cget" := FnKV (Cget p)]> (FuncMap p))))
    else FuncMap p in
  ({| FuncMap := m; Store := store; PGPPrivateKey := pgpPrivateKey |}, m).

End WithDecoder.

(** *** text/template: what parsing checks about function names *)

Definition builtins : list string :=
  ["and"; "call"; "html"; "index"; "js"; "len"; "not"; "or"; "print";
   "printf"; "println"; "urlquery"; "eq"; "ge"; "gt"; "le"; "lt"; "ne"].

Definition quote : string := String (ascii_of_nat 34) EmptyString.

(** Parsing a template fails at the first function identifier that is
    neither a builtin nor a key of the function map; [idents] are the
    function identifiers of the template text in order of appearance. *)
Definition parseIdents (m : gmap string FuncVal) (idents : list string) : error :=
  match
    List.find (fun f => negb (bool_decide (is_Some (m !! f))
                              || bool_decide (f ∈ builtins))) idents
  with
  | Some f => Some ("function " +:+ quote +:+ f +:+ quote +:+ " not defined")
  | None => None
  end.

End TemplateFunc.

(** ** The backend drivers: WatchPrefix *)

Module Backends.

(** The points at which a [WatchPrefix] call waits for its environment. *)
Variant watchE : Type -> Type :=
| RecvStop : watchE bool            (** [<-stopChan] *)
| Dial : watchE error               (** [clientv3.New(c.cfg)] *)
| RecvWatch : watchE (option (list (string * Z))).
                                    (** the next response on the watch
                                        channel: the key and version of
                                        each event; [None] once the
                                        channel is closed *)

Definition wrap64 (z : Z) : Z := z mod 2 ^ 64.

(** The first event whose key has one of [keys] as a prefix. *)
Definition firstMatch (keys : list string) (evs : list (string * Z))
  : option (string * Z) :=
  List.find (fun ev => existsb (fun k => GoStrings.HasPrefix (fst ev) k) keys) evs.

(** One round of [for wresp := range rch]. *)
Definition etcdRound (keys : list string) (_ : unit)
  : itree watchE (unit + Z * error) :=
  Vis RecvWatch (fun r =>
    match r with
    | None => Ret (inr (0, None))
    | Some evs =>
        match firstMatch keys evs with
        | Some ev => Ret (inr (wrap64 (snd ev), None))
        | None => Ret (inl tt)
        end
    end).

(** [_EtcdClient.WatchPrefix]; the goroutine that turns the stop signal
    into a cancelled context shows as the watch channel being closed. *)
Definition etcdWatchPrefix (prefix : string) (keys : list string)
  (waitIndex : Z) : itree watchE (Z * error) :=
  if waitIndex =? 0 then Ret (1, None)
  else
    Vis Dial (fun err =>
      match err with
      | Some e => Ret (1, Some e)
      | None => ITree.iter (etcdRound keys) tt
      end).

(** [EnvClient.WatchPrefix] *)
Definition envWatchPrefix (prefix : string) (keys : list string)
  (waitIndex : Z) : itree watchE (Z * error) :=
  Vis RecvStop (fun _ => Ret (0, None)).

(** The part of the client interface that the processor's watchers use. *)
Record Client := {
  WatchEnabled : bool;
  WatchPrefix : string -> list string -> Z -> itree watchE (Z * error)
}.

Definition EtcdClient : Client :=
  {| WatchEnabled := true; WatchPrefix := etcdWatchPrefix |}.

Definition EnvClient : Client :=
  {| WatchEnabled := false; WatchPrefix := envWatchPrefix |}.

(** The drivers of this repository. *)
Definition drivers : list Client := [EtcdClient; EnvClient].

(** The call returns [r] without waiting for anything. *)
Definition returnsAtOnce {R} (t : itree watchE R) (r : R) : Prop :=
  observe t = RetF r.

End Backends.

(** ** processor_old.go: the processor and its onetime mode *)

Module Processor.

(** What a call on the processor does to the wait-group and the task
    scheduler, in program order. *)
Inductive Mode := Onetime | Interval | Watch.

Inductive Event :=
| EvWarning (msg : string)
| EvAdd (n : Z)            (** [p.wg.Add(n)] *)
| EvGo (m : Mode)          (** [go p.run...] *)
| EvWait.                  (** [p.wg.Wait()] *)

(** The fields of [Processor] that processor_old.go reads and writes:
    two [int32] flags and the resolved options. *)
Record Options := {
  useOnetimeMode : bool;
  useIntervalMode : bool;
  useWatchMode : bool
}.

Record Processor := {
  runing : Z;
  stoped : Z;
  option_ : Options
}.

Definition IsRunning (p : Processor) : bool := runing p =? 1.
Definition isStoped (p : Processor) : bool := stoped p =? 1.

Definition storeRuning (v : Z) (p : Processor) : Processor :=
  {| runing := v; stoped := stoped p; option_ := option_ p |}.
Definition storeStoped (v : Z) (p : Processor) : Processor :=
  {| runing := runing p; stoped := v; option_ := option_ p |}.
Definition setOption (o : Options) (p : Processor) : Processor :=
  {| runing := runing p; stoped := stoped p; option_ := o |}.

(** [Start]; [opts] is the value of [newOptions(opts...)] and
    [watchEnabled] that of [client.WatchEnabled()]. *)
Definition Start (watchEnabled : bool) (opts : Options) (p : Processor)
  : Processor * list Event :=
  if negb (runing p =? 0) then (p, [EvWarning "Processor is running"])
  else
    let p := setOption opts (storeRuning 1 p) in
    if useOnetimeMode opts then (p, [EvAdd 1; EvGo Onetime])
    else if useIntervalMode opts then (p, [EvAdd 1; EvGo Interval])
    else if useWatchMode opts then (p, [EvAdd 1; EvGo Watch])
    else if watchEnabled then (p, [EvAdd 1; EvGo Watch])
    else (p, [EvAdd 1; EvGo Interval]).

(** [Stop] *)
Definition Stop (p : Processor) : Processor * list Event :=
  if negb (IsRunning p) then (p, [])
  else
    let p := storeStoped 1 p in
    let p := storeRuning 0 p in
    let p := storeStoped 0 p in
    (p, [EvWait]).

(** A processor as [NewProcessor] makes it: every field zero. *)
Definition NewProcessor : Processor :=
  {| runing := 0; stoped := 0;
     option_ := {| useOnetimeMode := false; useIntervalMode := false;
                   useWatchMode := false |} |}.

(** The states a processor is in between calls of [Start] and [Stop]. *)
Inductive reachable : Processor -> Prop :=
| reach_new : reachable NewProcessor
| reach_start we o p : reachable p -> reachable (fst (Start we o p))
| reach_stop p : reachable p -> reachable (fst (Stop p)).

Section RunOnce.

(** The resources and the state of the world they act on.
    [MakeAllTemplateResourceProcessor] and
    [TemplateResourceProcessor.Process] are not among the sources;
    [stopRequested] is what [p.isStoped()] reads at that moment (the
    flag is shared with the goroutine that calls [Stop]). *)
Variables T W : Type.
Variable MakeAll : W -> Result (list T).
Variable Process : T -> W -> error * W.
Variable stopRequested : W -> bool.

(** The loop of [runOnce].  Next to [allErrors] it yields the calls of
    [Process] it made, each with its result, in order. *)
Fixpoint runLoop (ts : list T) (w : W) (allErrors : list string)
  (calls : list (T * error)) : list string * list (T * error) * W :=
  match ts with
  | [] => (allErrors, calls, w)
  | t :: rest =>
      if stopRequested w then (allErrors, calls, w)
      else
        let '(err, w') := Process t w in
        match err with
        | Some e => runLoop rest w' (allErrors ++ [e]) (calls ++ [(t, err)])
        | None => runLoop rest w' allErrors (calls ++ [(t, err)])
        end
  end.

(** [runOnce] *)
Definition runOnce (w : W) : error * list (T * error) * W :=
  match MakeAll w with
  | Err e => (Some e, [], w)
  | Ok ts =>
      let '(allErrors, calls, w') := runLoop ts w [] [] in
      match allErrors with
      | e :: _ => (Some e, calls, w')
      | [] => (None, calls, w')
      end
  end.

End RunOnce.

End Processor.

(** ** The syntax of [mode], in the words of the specification *)

Module ModeSyntax.

(** "parse mode as an integer accepting 0-prefixed octal / 0x hex /
    decimal": the value of a digit character, ... *)
Definition hexDigit (c : ascii) : option Z :=
  match String.index 0 (String c EmptyString) "0123456789abcdef" with
  | Some i => Some (Z.of_nat i)
  | None =>
      match String.index 0 (String c EmptyString) "ABCDEF" with
      | Some i => Some (Z.of_nat i + 10)
      | None => None
      end
  end.

(** ... the value of a run of digits in a base, most significant first
    ([None] when a character is not a digit of the base), ... *)
Fixpoint digitsValue (base acc : Z) (ds : string) : option Z :=
  match ds with
  | EmptyString => Some acc
  | String c ds' =>
      match hexDigit c with
      | Some d =>
          if d <? base then digitsValue base (acc * base + d) ds' else None
      | None => None
      end
  end.

(** ... and the value of an unsigned integer literal: hexadecimal digits
    after [0x], octal digits after [0], decimal digits otherwise; [None]
    when the string is not such a literal. *)
Definition uintValue (s : string) : option Z :=
  match s with
  | EmptyString => None
  | String c0 rest =>
      if Ascii.eqb c0 "0"%char then
        match rest with
        | EmptyString => Some 0
        | String c1 ds =>
            if Ascii.eqb c1 "x"%char || Ascii.eqb c1 "X"%char then
              match ds with
              | EmptyString => None
              | _ => digitsValue 16 0 ds
              end
            else digitsValue 8 0 rest
        end
      else digitsValue 10 0 s
  end.

(** From Go 1.13 on the syntax is wider: "0b" or "0B" announces binary
    digits, "0o" or "0O" octal digits like the plain "0", and underscores
    may stand between digits: every underscore has a digit, or the base
    prefix, before it and a digit after it. *)
Definition isUnderscore (c : ascii) : bool := Ascii.eqb c "_"%char.

(** [afterDigit]: the position follows a digit or the base prefix. *)
Fixpoint separated (afterDigit : bool) (ds : string) : bool :=
  match ds with
  | EmptyString => true
  | String c ds' =>
      if isUnderscore c then
        afterDigit
        && match ds' with
           | EmptyString => false
           | String c' _ => negb (isUnderscore c')
           end
        && separated false ds'
      else separated true ds'
  end.


Fixpoint withoutUnderscores (ds : string) : string :=
  match ds with
  | EmptyString => EmptyString
  | String c ds' =>
      if isUnderscore c then withoutUnderscores ds'
      else String c (withoutUnderscores ds')
  end.

(** The value of digits with underscores between them. *)
Definition sepValue (base : Z) (afterPrefix : bool) (ds : string)
  : option Z :=
  if separated afterPrefix ds
  then digitsValue base 0 (withoutUnderscores ds)
  else None.

Definition oneOf (c a b : ascii) : bool := Ascii.eqb c a || Ascii.eqb c b.

(** The value of an unsigned integer literal in the syntax of Go 1.13. *)
Definition uintValueSep (s : string) : option Z :=
  match s with
  | EmptyString => None
  | String c0 rest =>
      if Ascii.eqb c0 "0"%char then
        match rest with
        | String c1 (String _ _ as ds) =>
            if oneOf c1 "b" "B" then sepValue 2 true ds
            else if oneOf c1 "o" "O" then sepValue 8 true ds
            else if oneOf c1 "x" "X" then sepValue 16 true ds
            else sepValue 8 true rest
        | _ => sepValue 8 true rest
        end
      else sepValue 10 false s
  end.

End ModeSyntax.

(** ** Concrete environments and resources for the examples *)

Module Examples.

Import Resource.

(** An environment in which the backend returns [backend], the template
    renders to [rendered], the stage file gets the suffix [000], the
    commands listed in [failing] exit with status 1 and [os.Rename]
    reports [renameError]. *)
Definition env (backend : list (string * string)) (rendered : string)
  (failing : list string) (renameError : error) : Env :=
  {| GetValues := fun _ => Ok backend;
     sameConfig := sameConfigBytes;
     parseFiles := fun _ _ _ => None;
     execute := fun _ _ _ => Ok rendered;
     tempFile := fun dir prefix _ => Ok (dir +:+ "/" +:+ prefix +:+ "000");
     renderCheckCmd := fun cmd _ => Ok cmd;
     shell := fun cmd _ =>
                if bool_decide (cmd ∈ failing) then Some "exit status 1"
                else None;
     renameFails := fun _ _ _ => renameError;
     writeFails := fun _ _ => None;
     readFails := fun _ _ => None;
     chmodFails := fun _ _ => None;
     chownFails := fun _ _ => None;
     umask := 18;
     euid := 0;
     egid := 0;
     goRelease := Strconv.Go1_13 |}.


(** The resource of the first scenario of the specification, with the
    given [mode], check command and flags. *)
Definition resource (mode checkCmd : string) (keep noop_ syncOnly_ : bool)
  (stage : option string) : TemplateResource :=
  {| CheckCmd := checkCmd;
     Dest := "/etc/app.conf";
     FileMode := 420;
     Gid := 0;
     Keys := ["/port"];
     Mode := mode;
     Prefix := "/app";
     ReloadCmd := "";
     Src := "/tmpl/app.conf.tmpl";
     StageFile := stage;
     Uid := 0;
     funcMap := [];
     lastIndex := 0;
     keepStageFile := keep;
     noop := noop_;
     store := ∅;
     syncOnly := syncOnly_;
     PGPPrivateKey := "" |}.

Definition file (data : string) : File :=
  {| fdata := data; fmode := 420; fuid := 0; fgid := 0 |}.

(** A file system holding the template and an older [dest]. *)
Definition deployed : World :=
  {| files := <["/etc/app.conf" := file "port=8080"]>
              (<["/tmpl/app.conf.tmpl" := file "port={{getv /port}}"]> ∅);
     events := [] |}.

(** The same after a stage file with new contents has been written. *)
Definition staged : World :=
  {| files := <["/etc/.app.conf000" := file "port=-1"]> (files deployed);
     events := [] |}.

End Examples.

(** ** Onetime mode, in the words of the specification *)

Module OnetimeSpec.

Section Spec.

Variables T W : Type.
Variable Process : T -> W -> error * W.

(** "for each, invoke the render pipeline": every resource in turn,
    whatever the earlier ones returned. *)
Fixpoint processAll (ts : list T) (w : W) : list (T * error) * W :=
  match ts with
  | [] => ([], w)
  | t :: rest =>
      let '(err, w1) := Process t w in
      let '(calls, w2) := processAll rest w1 in
      ((t, err) :: calls, w2)
  end.

(** "the first error is surfaced at the end" *)
Fixpoint firstError (results : list error) : error :=
  match results with
  | [] => None
  | Some e :: _ => Some e
  | None :: rest => firstError rest
  end.

(** The errors among the results of the calls, oldest first. *)
Definition errorsOf (calls : list (T * error)) : list string :=
  omap snd calls.

End Spec.

End OnetimeSpec.

(** ** The crypt functions, in the words of the specification *)

Module CryptSpec.

Section Spec.

Variable secconfDecode : string -> string -> Result string.

(** "decodes the value portion": the pair with its value replaced by the
    plaintext. *)
Definition decodePair (key : string) (kv : KV.KVPair) : Result KV.KVPair :=
  match secconfDecode (KV.Value kv) key with
  | Ok b => Ok {| KV.Key := KV.Key kv; KV.Value := b |}
  | Err e => Err e
  end.

Definition decodeValue (key : string) (v : string) : Result string :=
  secconfDecode v key.

(** Every element decoded, or the error of the first one that fails. *)
Fixpoint decodeEach {A : Type} (dec : A -> Result A) (xs : list A)
  : Result (list A) :=
  match xs with
  | [] => Ok []
  | x :: rest =>
      match dec x with
      | Err e => Err e
      | Ok y =>
          match decodeEach dec rest with
          | Err e => Err e
          | Ok ys => Ok (y :: ys)
          end
      end
  end.

(** "each delegates to its plain counterpart and decodes the value portion
    before returning; decoding failure propagates" *)
Definition cget (store : TemplateFunc.KVStoreQueries) (key arg : string)
  : KV.KVPair * error :=
  match TemplateFunc.storeGet store arg with
  | (kv, None) =>
      match decodePair key kv with
      | Ok kv' => (kv', None)
      | Err e => (kv, Some e)
      end
  | (kv, Some e) => (kv, Some e)
  end.

Definition cgets (store : TemplateFunc.KVStoreQueries) (key arg : string)
  : TemplateFunc.slice KV.KVPair * error :=
  match TemplateFunc.storeGetAll store arg with
  | (Some kvs, None) =>
      match decodeEach (decodePair key) kvs with
      | Ok l => (Some l, None)
      | Err e => (None, Some e)
      end
  | other => other
  end.

Definition cgetv (store : TemplateFunc.KVStoreQueries) (key arg : string)
  : string * error :=
  match TemplateFunc.storeGetValue store arg [] with
  | (v, None) =>
      match decodeValue key v with
      | Ok b => (b, None)
      | Err e => (v, Some e)
      end
  | (v, Some e) => (v, Some e)
  end.

Definition cgetvs (store : TemplateFunc.KVStoreQueries) (key arg : string)
  : TemplateFunc.slice string * error :=
  match TemplateFunc.storeGetAllValues store arg with
  | (Some vs, None) =>
      match decodeEach (decodeValue key) vs with
      | Ok l => (Some l, None)
      | Err e => (None, Some e)
      end
  | other => other
  end.

End Spec.

(** The names of the crypt functions. *)
Definition cryptNames : list string := ["cget"; "cgets"; "cgetv"; "cgetvs"].

End CryptSpec.

(** ** A concrete store and decoder for the examples *)

Module CryptExamples.

(** A stand-in for the decoder: values of the form [enc:...] decode to
    what follows the colon, anything else is rejected. *)
Definition decoder (data key : string) : Result string :=
  if String.prefix "enc:" data
  then Ok (String.substring 4 (String.length data - 4) data)
  else Err "illegal base64 data".

(** A store with one good and one damaged value under [/db]. *)
Definition pairs : list KV.KVPair :=
  [{| KV.Key := "/db/pw"; KV.Value := "enc:secret" |};
   {| KV.Key := "/db/user"; KV.Value := "damaged" |}].

Definition queries : TemplateFunc.KVStoreQueries :=
  {| TemplateFunc.storeGet := fun k =>
       match List.find (fun kv => String.eqb (KV.Key kv) k) pairs with
       | Some kv => (kv, None)
       | None => ({| KV.Key := ""; KV.Value := "" |}, Some KV.ErrNotExist)
       end;
     TemplateFunc.storeGetAll := fun _ => (Some pairs, None);
     TemplateFunc.storeGetValue := fun k _ =>
       match List.find (fun kv => String.eqb (KV.Key kv) k) pairs with
       | Some kv => (KV.Value kv, None)
       | None => ("", Some KV.ErrNotExist)
       end;
     TemplateFunc.storeGetAllValues := fun _ => (Some (map KV.Value pairs), None) |}.

End CryptExamples.

(** ** The snapshot after setVars, in the words of the specification *)

Module SnapshotSpec.

(** "get("/"+k) == v iff the backend returned (prefix+k, v)", with the
    stored key written as the text has it, ... *)
Definition asWritten (prefix : string) (result : list (string * string))
  (st : gmap string string) : Prop :=
  forall s v,
    KV.Get ("/" +:+ s) st = Ok {| KV.Key := "/" +:+ s; KV.Value := v |}
    <-> In (prefix +:+ s, v) result.

(** ... and with "rejoining under /" read as [path.Join]. *)
Definition asJoined (prefix : string) (result : list (string * string))
  (st : gmap string string) : Prop :=
  forall s v,
    KV.Get (GoPath.Join ["/"; s]) st
    = Ok {| KV.Key := GoPath.Join ["/"; s]; KV.Value := v |}
    <-> In (prefix +:+ s, v) result.

(** No two returned pairs with different values land on the same key. *)
Definition collisionFree (prefix : string) (result : list (string * string))
  : Prop :=
  forall k1 v1 k2 v2,
    In (k1, v1) result -> In (k2, v2) result ->
    GoPath.Join ["/"; GoStrings.TrimPrefix k1 prefix]
    = GoPath.Join ["/"; GoStrings.TrimPrefix k2 prefix] ->
    v1 = v2.

(** A path element without a slash. *)
Fixpoint noSlash (s : string) : bool :=
  match s with
  | EmptyString => true
  | String c s' => negb (Ascii.eqb c GoPath.slash) && noSlash s'
  end.

End SnapshotSpec.

(** ** Conditions on a run of sync *)

Module SyncSpec.

Import Resource.

(** The check is skipped, or its command exits with status 0. *)
Definition checkPasses (E : Env) (t : TemplateResource) (staged : string)
  (w : World) : Prop :=
  syncOnly t = true \/ CheckCmd t = "" \/
  exists cmd, renderCheckCmd E (CheckCmd t) staged = Ok cmd
              /\ shell E cmd (files w) = None.

(** [sameConfig] (util.go, not among the sources) reports agreement only
    for two existing files with the same bytes. *)
Definition sameConfigSound (E : Env) : Prop :=
  forall staged dest fs,
    fst (sameConfig E staged dest fs) = true ->
    exists s d, fs !! staged = Some s /\ fs !! dest = Some d
                /\ fdata s = fdata d.

(** [TempFile] never hands out the path [p]. *)
Definition neverTemp (E : Env) (p : string) : Prop :=
  forall dir prefix fs, tempFile E dir prefix fs <> Ok p.

End SyncSpec.

(** ** Further environments for the examples *)

Module MoreExamples.

Import Resource.

(** [E] with a [TempFile] that always hands out [name]. *)
Definition fixedTemp (name : string) (E : Env) : Env :=
  {| GetValues := GetValues E; sameConfig := sameConfig E;
     parseFiles := parseFiles E; execute := execute E;
     tempFile := fun _ _ _ => Ok name; renderCheckCmd := renderCheckCmd E;
     shell := shell E; renameFails := renameFails E;
     writeFails := writeFails E; readFails := readFails E;
     chmodFails := chmodFails E; chownFails := chownFails E;
     umask := umask E; euid := euid E; egid := egid E;
     goRelease := goRelease E |}.

(** [E] with a backend that fails. *)
Definition failingBackend (msg : string) (E : Env) : Env :=
  {| GetValues := fun _ => Err msg; sameConfig := sameConfig E;
     parseFiles := parseFiles E; execute := execute E;
     tempFile := tempFile E; renderCheckCmd := renderCheckCmd E;
     shell := shell E; renameFails := renameFails E;
     writeFails := writeFails E; readFails := readFails E;
     chmodFails := chmodFails E; chownFails := chownFails E;
     umask := umask E; euid := euid E; egid := egid E;
     goRelease := goRelease E |}.

Definition stage : string := "/etc/.app.conf000".

(** The resource of the examples with its stage file written. *)
Definition stagedResource (keep syncOnly_ : bool) : TemplateResource :=
  Examples.resource "" "" keep false syncOnly_ (Some stage).

(** The environment of the examples: an empty backend, a template that
    renders to [port=-1], no failing command. *)
Definition plainEnv : Env := Examples.env [] "port=-1" [] None.


(** The same with an [os.Rename] that is refused. *)
Definition deniedEnv : Env :=
  Examples.env [] "port=-1" []
    (Some "rename /etc/.app.conf000 /etc/app.conf: permission denied").

(** [E] for a process of user and group 1000 that may not give files
    away: every [os.Chown] fails. *)
Definition unprivileged (E : Env) : Env :=
  {| GetValues := GetValues E; sameConfig := sameConfig E;
     parseFiles := parseFiles E; execute := execute E;
     tempFile := tempFile E; renderCheckCmd := renderCheckCmd E;
     shell := shell E; renameFails := renameFails E;
     writeFails := writeFails E; readFails := readFails E;
     chmodFails := chmodFails E;
     chownFails := fun _ _ => Some "operation not permitted";
     umask := umask E; euid := 1000; egid := 1000;
     goRelease := goRelease E |}.


(** A file system in which the stage file holds the bytes of [dest]. *)
Definition unchanged : World :=
  {| files := <[stage := Examples.file "port=8080"]> (files Examples.deployed);
     events := [] |}.

End MoreExamples.

(** ** resource.go: NewTemplateResource *)

Module NewResource.

(** The fields of [Config] that [NewTemplateResource] reads. *)
Record Config := {
  KeepStageFile : bool;
  Noop : bool;
  Prefix : string;
  SyncOnly : bool;
  PGPPrivateKey : string;
  TemplateDir : string
}.

Definition ErrEmptySrc : string := "empty src template".

(** The value the descriptor is decoded over: every field zero, except
    the uid and gid of -1 that mark them as unset. *)
Definition unsetResource : Resource.TemplateResource :=
  {| Resource.CheckCmd := ""; Resource.Dest := ""; Resource.FileMode := 0;
     Resource.Gid := -1; Resource.Keys := []; Resource.Mode := "";
     Resource.Prefix := ""; Resource.ReloadCmd := ""; Resource.Src := "";
     Resource.StageFile := None; Resource.Uid := -1; Resource.funcMap := [];
     Resource.lastIndex := 0; Resource.keepStageFile := false;
     Resource.noop := false; Resource.store := ∅;
     Resource.syncOnly := false; Resource.PGPPrivateKey := "" |}.

Section WithDecoder.

(** [toml.DecodeFile(path, &tc)]: the resource with the keys of the
    [template] table decoded over the given value, or the error. *)
Variable DecodeFile
  : string -> Resource.TemplateResource -> Result Resource.TemplateResource.

(** The names bound by [newFuncMap()] and [store.FuncMap], which are not
    among the sources. *)
Variable baseFuncs : list string.

(** [os.Geteuid()] and [os.Getegid()] *)
Variables euid egid : Z.

(** [NewTemplateResource] *)
Definition NewTemplateResource (path : string) (config : Config)
  : Result Resource.TemplateResource :=
  match DecodeFile path unsetResource with
  | Err e =>
      Err ("Cannot process template resource " +:+ path +:+ " - " +:+ e)
  | Ok tr =>
      let prefix :=
        if negb (String.eqb (Prefix config) "") then Prefix config
        else Resource.Prefix tr in
      let prefix :=
        if negb (GoStrings.HasPrefix prefix "/") then "/" +:+ prefix
        else prefix in
      let crypt := (0 <? String.length (PGPPrivateKey config))%nat in
      if String.eqb (Resource.Src tr) "" then Err ErrEmptySrc
      else
        Ok {| Resource.CheckCmd := Resource.CheckCmd tr;
              Resource.Dest := Resource.Dest tr;
              Resource.FileMode := Resource.FileMode tr;
              Resource.Gid :=
                if Resource.Gid tr =? -1 then egid else Resource.Gid tr;
              Resource.Keys := Resource.Keys tr;
              Resource.Mode := Resource.Mode tr;
              Resource.Prefix := prefix;
              Resource.ReloadCmd := Resource.ReloadCmd tr;
              Resource.Src := GoPath.Join [TemplateDir config; Resource.Src tr];
              Resource.StageFile := Resource.StageFile tr;
              Resource.Uid :=
                if Resource.Uid tr =? -1 then euid else Resource.Uid tr;
              Resource.funcMap :=
                if crypt then baseFuncs ++ CryptSpec.cryptNames else baseFuncs;
              Resource.lastIndex := Resource.lastIndex tr;
              Resource.keepStageFile := KeepStageFile config;
              Resource.noop := Noop config;
              Resource.store := KV.Purge;
              Resource.syncOnly := SyncOnly config;
              Resource.PGPPrivateKey :=
                if crypt then PGPPrivateKey config
                else Resource.PGPPrivateKey tr |}
  end.

End WithDecoder.

End NewResource.

(** ** template_func.go: Seq, Reverse and Map *)

Module TemplateUtil.

(** Go's [int] on a 64-bit target. *)
Definition minInt : Z := - 2 ^ 63.
Definition maxInt : Z := 2 ^ 63 - 1.
Definition wrapInt (z : Z) : Z := (z + 2 ^ 63) mod 2 ^ 64 - 2 ^ 63.

(** [append(arr, x)]; the nil slice becomes a slice of one element. *)
Definition append {A : Type} (arr : TemplateFunc.slice A) (x : A)
  : TemplateFunc.slice A :=
  match arr with
  | None => Some [x]
  | Some l => Some (l ++ [x])
  end.

(** The loop of [Seq]: [for i := first; i <= last; i++].  [fuel] bounds
    the number of tests of the condition; [None] when it runs out. *)
Fixpoint seqLoop (fuel : nat) (i last : Z) (arr : TemplateFunc.slice Z)
  : option (TemplateFunc.slice Z) :=
  match fuel with
  | O => None
  | S fuel' =>
      if i <=? last
      then seqLoop fuel' (wrapInt (i + 1)) last (append arr i)
      else Some arr
  end.

(** [Seq] *)
Definition Seq (fuel : nat) (first last : Z)
  : option (TemplateFunc.slice Z) :=
  seqLoop fuel first last None.

(** The loop of [Reverse] on one slice: [left] and [right] move towards
    each other and the elements under them are exchanged.  An index out of
    range would panic, which shows as [None], as does running out of
    [fuel]. *)
Fixpoint reverseLoop {A : Type} (fuel : nat) (left right : Z) (v : list A)
  : option (list A) :=
  if left <? right then
    match fuel with
    | O => None
    | S fuel' =>
        match v !! Z.to_nat left, v !! Z.to_nat right with
        | Some a, Some b =>
            reverseLoop fuel' (left + 1) (right - 1)
              (<[Z.to_nat right := a]> (<[Z.to_nat left := b]> v))
        | _, _ => None
        end
    end
  else Some v.

Definition reverseSlice {A : Type} (v : list A) : option (list A) :=
  reverseLoop (length v) 0 (Z.of_nat (length v) - 1) v.

(** An [interface{}] value handed to a template function: a slice of
    strings, a slice of pairs, a string, or a value of another type. *)
Inductive Value :=
| VStrings (v : list string)
| VPairs (v : list KV.KVPair)
| VString (s : string)
| VInt (n : Z)
| VBool (b : bool).

(** [Reverse]: the type switch with its two cases. *)
Definition Reverse (values : Value) : option Value :=
  match values with
  | VStrings v => option_map VStrings (reverseSlice v)
  | VPairs v => option_map VPairs (reverseSlice v)
  | other => Some other
  end.

Definition ErrMapCall : string := "invalid map call".
Definition ErrMapKeys : string := "map keys must be strings".

(** The loop of [Map]: [values[i]] is the key and [values[i+1]] the value. *)
Fixpoint mapLoop (values : list Value) (dict : gmap string Value)
  : Result (gmap string Value) :=
  match values with
  | k :: v :: rest =>
      match k with
      | VString key => mapLoop rest (<[key := v]> dict)
      | _ => Err ErrMapKeys
      end
  | _ => Ok dict
  end.

(** [Map] *)
Definition Map (values : list Value) : Result (gmap string Value) :=
  if negb (Nat.eqb (length values mod 2) 0) then Err ErrMapCall
  else mapLoop values ∅.

(** The arguments of [Map] as pairs, when there is an even number of them
    and every key is a string. *)
Fixpoint pairsOf (values : list Value) : option (list (string * Value)) :=
  match values with
  | [] => Some []
  | VString key :: v :: rest =>
      option_map (cons (key, v)) (pairsOf rest)
  | _ => None
  end.

End TemplateUtil.

(** ** Running a WatchPrefix call against its environment *)

Module WatchRun.

Import Backends.

(** The call [t] run to its return: [dialed] is what the dial reports and
    [responses] are the responses the watch channel delivers, oldest
    first.  Every step takes one unit of [fuel]; the result is [None] when
    the fuel runs out, or when the call is left waiting for a response
    after the last one of [responses]. *)
Fixpoint run {R : Type} (fuel : nat) (dialed : error)
  (responses : list (option (list (string * Z)))) (t : itree watchE R)
  : option R :=
  match fuel with
  | O => None
  | S fuel' =>
      match observe t with
      | RetF r => Some r
      | TauF t' => run fuel' dialed responses t'
      | VisF e k =>
          match e in watchE X return (X -> itree watchE R) -> option R with
          | RecvStop => fun k => run fuel' dialed responses (k true)
          | Dial => fun k => run fuel' dialed responses (k dialed)
          | RecvWatch => fun k =>
              match responses with
              | [] => None
              | r :: rest => run fuel' dialed rest (k r)
              end
          end k
      end
  end.

(** No event of the response is about one of [keys]. *)
Definition quiet (keys : list string) (r : option (list (string * Z)))
  : bool :=
  match r with
  | Some evs =>
      match firstMatch keys evs with Some _ => false | None => true end
  | None => false
  end.

End WatchRun.

(** ** The etcd driver: GetValues *)

Module EtcdValues.

Section WithClient.

(** [clientv3.New(c.cfg)]: the error, if the dial fails. *)
Variable dial : error.

(** [client.Get(ctx, key, WithPrefix(), WithSort(SortByKey, SortDescend))]:
    the pairs of [resp.Kvs] in their order, or the error. *)
Variable get : string -> Result (list (string * string)).

(** [for _, ev := range resp.Kvs { vars[ev.Key] = ev.Value }] *)
Definition store (vars : gmap string string) (kvs : list (string * string))
  : gmap string string :=
  fold_left (fun m kv => <[fst kv := snd kv]> m) kvs vars.

(** The loop over [keys]. *)
Fixpoint getLoop (keys : list string) (vars : gmap string string)
  : gmap string string * error :=
  match keys with
  | [] => (vars, None)
  | key :: rest =>
      match get key with
      | Err e => (vars, Some e)
      | Ok kvs => getLoop rest (store vars kvs)
      end
  end.

(** [GetValues] *)
Definition GetValues (keys : list string) : gmap string string * error :=
  match dial with
  | Some e => (∅, Some e)
  | None => getLoop keys ∅
  end.

End WithClient.

End EtcdValues.

(** ** processor_old.go: the interval mode *)

Module IntervalMode.

Section RunInterval.

(** As for [runOnce]: the resources and the world they act on;
    [sleep] is what [time.Sleep(p.option.GetInterval())] lets happen to
    the world (among other things, a call of [Stop]). *)
Variables T W : Type.
Variable MakeAll : W -> Result (list T).
Variable Process : T -> W -> error * W.
Variable stopRequested : W -> bool.
Variable sleep : W -> W.

(** One pass over the resources: [true] when the pass ended because the
    processor was stopped.  [calls] are the calls of [Process] made so
    far, each with its result. *)
Fixpoint pass (ts : list T) (w : W) (calls : list (T * error))
  : bool * list (T * error) * W :=
  match ts with
  | [] => (false, calls, w)
  | t :: rest =>
      if stopRequested w then (true, calls, w)
      else
        let '(err, w') := Process t w in
        pass rest w' (calls ++ [(t, err)])
  end.

(** [runInIntervalMode]; [fuel] bounds the number of passes, and the
    result is [None] when the loop is still running after them. *)
Fixpoint runInIntervalMode (fuel : nat) (w : W) (calls : list (T * error))
  : option (list (T * error) * W) :=
  match fuel with
  | O => None
  | S fuel' =>
      if stopRequested w then Some (calls, w)
      else
        match MakeAll w with
        | Err _ => Some (calls, w)
        | Ok ts =>
            let '(stopped, calls', w') := pass ts w calls in
            if stopped then Some (calls', w')
            else runInIntervalMode fuel' (sleep w') calls'
        end
  end.

End RunInterval.

End IntervalMode.

(** An instance for the examples: the world is the number of sleeps so
    far, there are two resources, and the first one always fails. *)
Module IntervalExamples.

Definition makeAll (w : nat) : Result (list string) := Ok ["a"; "b"].

Definition process (t : string) (w : nat) : error * nat :=
  (if String.eqb t "a" then Some "boom" else None, w).

(** Stop is called during the [n]-th sleep. *)
Definition stopAfter (n : nat) (w : nat) : bool := (n <=? w)%nat.

Definition never (w : nat) : bool := false.

End IntervalExamples.

(** ** The logger: levels and the standard logger *)

Module Logger.

(** [logLevelType], a [uint32]. *)
Definition logUnknownLevel : Z := 0.
Definition logDebugLevel : Z := 1.
Definition logInfoLevel : Z := 2.
Definition logWarnLevel : Z := 3.
Definition logErrorLevel : Z := 4.
Definition logPanicLevel : Z := 5.
Definition logFatalLevel : Z := 6.

Definition Valid (level : Z) : bool :=
  (logDebugLevel <=? level) && (level <=? logFatalLevel).

Definition newLogLevel (name : string) : Z :=
  if String.eqb name "DEBUG" then logDebugLevel
  else if String.eqb name "INFO" then logInfoLevel
  else if String.eqb name "WARN" then logWarnLevel
  else if String.eqb name "ERROR" then logErrorLevel
  else if String.eqb name "PANIC" then logPanicLevel
  else if String.eqb name "FATAL" then logFatalLevel
  else logUnknownLevel.

(** [logLevelType.String] *)
Definition String_ (level : Z) : string :=
  if level =? logDebugLevel then "DEBUG"
  else if level =? logInfoLevel then "INFO"
  else if level =? logWarnLevel then "WARN"
  else if level =? logErrorLevel then "ERROR"
  else if level =? logPanicLevel then "PANIC"
  else if level =? logFatalLevel then "FATAL"
  else "INVALID".

(** How a call ends: it returns, it panics with a value, or it ends the
    process with [os.Exit]. *)
Inductive Outcome (A : Type) : Type :=
| Returned (a : A)
| Panicked (msg : string)
| Exited (code : Z).
Arguments Returned {A} a.
Arguments Panicked {A} msg.
Arguments Exited {A} code.

(** [stdLogger]: the level, and what has been handed to [Output] of the
    embedded [log.Logger], oldest first. *)
Record stdLogger := { level : Z; output : list string }.

(** [newStdLogger]; [defaultLevel] are the variadic arguments. *)
Definition newStdLogger (defaultLevel : list string) : Outcome stdLogger :=
  match defaultLevel with
  | [] => Returned {| level := logWarnLevel; output := [] |}
  | name :: _ =>
      if negb (Valid (newLogLevel name))
      then Panicked ("invalid level: " +:+ name)
      else Returned {| level := newLogLevel name; output := [] |}
  end.

Definition getLevel (p : stdLogger) : Z := level p.

(** [setLevel]: the swap; its result is the level before. *)
Definition setLevel (l : Z) (p : stdLogger) : Z * stdLogger :=
  (level p, {| level := l; output := output p |}).

Definition getLevelName (p : stdLogger) : string := String_ (getLevel p).

Definition setLevelByName (levelName : string) (p : stdLogger)
  : Outcome (string * stdLogger) :=
  if negb (Valid (newLogLevel levelName))
  then Panicked ("invalid level: " +:+ levelName)
  else
    let '(old, p') := setLevel (newLogLevel levelName) p in
    Returned (String_ old, p').

Definition GetLevel (p : stdLogger) : string := String_ (getLevel p).

Definition SetLevel (new : string) (p : stdLogger)
  : Outcome (string * stdLogger) :=
  setLevelByName new p.

(** [p.Output(2, s)] *)
Definition Output (s : string) (p : stdLogger) : stdLogger :=
  {| level := level p; output := output p ++ [s] |}.

(** The methods that write a message; [s] is the message as [fmt.Sprint],
    [fmt.Sprintln] or [fmt.Sprintf] formatted it, so each definition
    stands for the three methods of its severity. *)
Definition Debug (s : string) (p : stdLogger) : stdLogger :=
  if getLevel p <=? logDebugLevel
  then Output ("[" +:+ String_ logDebugLevel +:+ "] " +:+ s) p else p.

Definition Info (s : string) (p : stdLogger) : stdLogger :=
  if getLevel p <=? logInfoLevel
  then Output ("[" +:+ String_ logInfoLevel +:+ "] " +:+ s) p else p.

Definition Warning (s : string) (p : stdLogger) : stdLogger :=
  if getLevel p <=? logWarnLevel
  then Output ("[" +:+ String_ logWarnLevel +:+ "] " +:+ s) p else p.

Definition Error (s : string) (p : stdLogger) : stdLogger :=
  if getLevel p <=? logErrorLevel
  then Output ("[" +:+ String_ logErrorLevel +:+ "] " +:+ s) p else p.

(** [Panic]: the logger as the call leaves it, and the value of the
    panic. *)
Definition Panic (s : string) (p : stdLogger) : stdLogger * Outcome unit :=
  (if getLevel p <=? logPanicLevel
   then Output ("[" +:+ String_ logPanicLevel +:+ "] " +:+ s) p else p,
   Panicked s).

(** [Fatal] *)
Definition Fatal (s : string) (p : stdLogger) : stdLogger * Outcome unit :=
  (Output ("[" +:+ String_ logFatalLevel +:+ "] " +:+ s) p, Exited 1).

(** The loggers that [newStdLogger] and [SetLevel] lead to. *)
Inductive made : stdLogger -> Prop :=
| made_new names p : newStdLogger names = Returned p -> made p
| made_set name p old p' :
    made p -> SetLevel name p = Returned (old, p') -> made p'
| made_debug s p : made p -> made (Debug s p)
| made_info s p : made p -> made (Info s p)
| made_warning s p : made p -> made (Warning s p)
| made_error s p : made p -> made (Error s p).

End Logger.

(** ** The env driver: GetValues *)

Module EnvValues.

(** [strings.Index(s, c)] for a separator of one byte: the index of its
    first occurrence, or -1. *)
Fixpoint Index (s : string) (c : ascii) : Z :=
  match s with
  | EmptyString => -1
  | String a s' =>
      if Ascii.eqb a c then 0
      else let i := Index s' c in if i <? 0 then -1 else i + 1
  end.

(** [e[:index]] and [e[index+1:]]; a slice expression with a negative
    bound panics, which shows as [None]. *)
Definition cut (e : string) : option (string * string) :=
  let index := Index e "=" in
  if index <? 0 then None
  else
    let i := Z.to_nat index in
    Some (String.substring 0 i e,
          String.substring (i + 1) (String.length e - (i + 1)) e).

(** The loop that fills [envMap] from [os.Environ()]. *)
Fixpoint envMapLoop (allEnvVars : list string) (envMap : gmap string string)
  : option (gmap string string) :=
  match allEnvVars with
  | [] => Some envMap
  | e :: rest =>
      match cut e with
      | None => None
      | Some (k, v) => envMapLoop rest (<[k := v]> envMap)
      end
  end.

(** [strings.NewReplacer(old, new).Replace(s)] for [old] and [new] of one
    byte each. *)
Fixpoint replaceByte (old new : ascii) (s : string) : string :=
  match s with
  | EmptyString => EmptyString
  | String a s' =>
      String (if Ascii.eqb a old then new else a) (replaceByte old new s')
  end.

Section WithCase.

(** [strings.ToUpper] and [strings.ToLower] *)
Variables ToUpper ToLower : string -> string.

(** The order in which the [i]-th [range envMap] visits the entries; Go
    leaves it unspecified. *)
Variable rangeOrder : nat -> gmap string string -> list (string * string).

Definition transform (key : string) : string :=
  let k := GoStrings.TrimPrefix key "/" in
  ToUpper (replaceByte "/" "_" k).

Definition clean (key : string) : string :=
  let newKey := "/" +:+ key in
  replaceByte "_" "/" (ToLower newKey).

(** The inner loop, over the entries of [envMap]. *)
Definition matchLoop (k : string) (entries : list (string * string))
  (vars : gmap string string) : gmap string string :=
  fold_left
    (fun vars entry =>
       if GoStrings.HasPrefix (fst entry) k
       then <[clean (fst entry) := snd entry]> vars
       else vars)
    entries vars.

(** The outer loop, over [keys]; [i] counts its iterations. *)
Fixpoint keysLoop (i : nat) (keys : list string)
  (envMap vars : gmap string string) : gmap string string :=
  match keys with
  | [] => vars
  | key :: rest =>
      keysLoop (S i) rest envMap
        (matchLoop (transform key) (rangeOrder i envMap) vars)
  end.

(** [EnvClient.GetValues]; [allEnvVars] is what [os.Environ()] returns. *)
Definition GetValues (allEnvVars keys : list string)
  : TemplateFunc.Run (gmap string string * error) :=
  match envMapLoop allEnvVars ∅ with
  | None => TemplateFunc.Panics
  | Some envMap => TemplateFunc.Returns (keysLoop 0 keys envMap ∅, None)
  end.

End WithCase.

(** [range] visits every entry of the map, and nothing else. *)
Definition visitsAll
  (rangeOrder : nat -> gmap string string -> list (string * string)) : Prop :=
  forall i m k v, In (k, v) (rangeOrder i m) <-> m !! k = Some v.

(** *** Upper and lower case of ASCII strings *)

Definition upperByte (c : ascii) : ascii :=
  let n := nat_of_ascii c in
  if ((97 <=? n) && (n <=? 122))%nat then ascii_of_nat (n - 32) else c.

Definition lowerByte (c : ascii) : ascii :=
  let n := nat_of_ascii c in
  if ((65 <=? n) && (n <=? 90))%nat then ascii_of_nat (n + 32) else c.

Fixpoint mapBytes (f : ascii -> ascii) (s : string) : string :=
  match s with
  | EmptyString => EmptyString
  | String a s' => String (f a) (mapBytes f s')
  end.

(** [strings.ToUpper] and [strings.ToLower] on strings of ASCII
    characters. *)
Definition ToUpperASCII : string -> string := mapBytes upperByte.
Definition ToLowerASCII : string -> string := mapBytes lowerByte.

(** A character of a key as the templates write them: an ASCII character
    that is neither an upper-case letter nor the underscore. *)
Definition keyByte (c : ascii) : bool :=
  let n := nat_of_ascii c in
  ((n <? 128) && negb ((65 <=? n) && (n <=? 90)) && negb (n =? 95))%nat.

Fixpoint keyBytes (s : string) : bool :=
  match s with
  | EmptyString => true
  | String a s' => keyByte a && keyBytes s'
  end.

(** An iteration order for the examples. *)
Definition sortedOrder (i : nat) (m : gmap string string)
  : list (string * string) :=
  map_to_list m.

End EnvValues.

Module EnvExamples.

Definition environ : list string :=
  ["APP_DB_HOST=10.0.0.1"; "APPLE=1"; "HOME=/root"].

Definition envMap : gmap string string :=
  <["HOME" := "/root"]>
    (<["APPLE" := "1"]> (<["APP_DB_HOST" := "10.0.0.1"]> ∅)).

End EnvExamples.

(** ** Options of the library and of the etcd driver *)

Module ConfigOptions.

Section WithFuncs.

(** The type of the template functions and of the updaters of a function
    map. *)
Variables Fn Updater : Type.

(** The fields of [Config] that the options of this file write (the hooks
    apart). *)
Record Config := {
  Onetime : bool;
  Watch : bool;
  Interval : Z;
  FuncMap : option (gmap string Fn);     (** [None] is the nil map *)
  FuncMapUpdater : list Updater
}.

Definition Options := Config -> Config.

(** [applyOptions] *)
Definition applyOptions (opts : list Options) (p : Config) : Config :=
  fold_left (fun p fn => fn p) opts p.

Definition WithOnetimeMode : Options := fun opt =>
  {| Onetime := true; Watch := Watch opt; Interval := Interval opt;
     FuncMap := FuncMap opt; FuncMapUpdater := FuncMapUpdater opt |}.

Definition WithIntervalMode : Options := fun opt =>
  {| Onetime := false; Watch := false; Interval := Interval opt;
     FuncMap := FuncMap opt; FuncMapUpdater := FuncMapUpdater opt |}.

Definition WithInterval (interval : Z) : Options := fun opt =>
  {| Onetime := Onetime opt; Watch := Watch opt; Interval := interval;
     FuncMap := FuncMap opt; FuncMapUpdater := FuncMapUpdater opt |}.

Definition WithWatchMode : Options := fun opt =>
  {| Onetime := false; Watch := true; Interval := Interval opt;
     FuncMap := FuncMap opt; FuncMapUpdater := FuncMapUpdater opt |}.

(** The order in which [range] visits the entries of a map; Go leaves it
    unspecified. *)
Variable rangeOrder : gmap string Fn -> list (string * Fn).

(** [for k, fn := range m { opt.FuncMap[k] = fn }] *)
Definition copyInto (m : gmap string Fn) (acc : gmap string Fn)
  : gmap string Fn :=
  fold_left (fun acc kv => <[fst kv := snd kv]> acc) (rangeOrder m) acc.

Definition WithFuncMap (maps : list (gmap string Fn)) : Options := fun opt =>
  let made := match FuncMap opt with
              | None => ∅
              | Some m => m
              end in
  {| Onetime := Onetime opt; Watch := Watch opt; Interval := Interval opt;
     FuncMap := Some (fold_left (fun acc m => copyInto m acc) maps made);
     FuncMapUpdater := FuncMapUpdater opt |}.

Definition WithFuncMapUpdater (funcMapUpdater : list Updater) : Options :=
  fun opt =>
  {| Onetime := Onetime opt; Watch := Watch opt; Interval := Interval opt;
     FuncMap := FuncMap opt;
     FuncMapUpdater := FuncMapUpdater opt ++ funcMapUpdater |}.

End WithFuncs.

End ConfigOptions.

Module EtcdOptions.

(** The fields of [libconfd.BackendConfig] that the etcd driver uses. *)
Record BackendConfig := {
  Host : list string;
  UserName : string;
  Password : string;
  ClientCAKeys : string;
  ClientCert : string;
  ClientKey : string
}.

Definition EtcdOptions := BackendConfig -> BackendConfig.

Definition defaultHost : list string := ["127.0.0.1:2379"].

(** [applyOptions] *)
Definition applyOptions (cfg : BackendConfig) (opts : list EtcdOptions)
  : BackendConfig :=
  let cfg := fold_left (fun cfg fn => fn cfg) opts cfg in
  if (length (Host cfg) =? 0)%nat
  then {| Host := defaultHost; UserName := UserName cfg;
          Password := Password cfg; ClientCAKeys := ClientCAKeys cfg;
          ClientCert := ClientCert cfg; ClientKey := ClientKey cfg |}
  else cfg.

Definition WitchMachines (node : list string) : EtcdOptions := fun opt =>
  {| Host := Host opt ++ node; UserName := UserName opt;
     Password := Password opt; ClientCAKeys := ClientCAKeys opt;
     ClientCert := ClientCert opt; ClientKey := ClientKey opt |}.

Definition WitchBasicAuth (userName password : string) : EtcdOptions :=
  fun opt =>
  {| Host := Host opt; UserName := userName; Password := password;
     ClientCAKeys := ClientCAKeys opt; ClientCert := ClientCert opt;
     ClientKey := ClientKey opt |}.

Definition WitchCACert (caCert cert key : string) : EtcdOptions := fun opt =>
  {| Host := Host opt; UserName := UserName opt; Password := Password opt;
     ClientCAKeys := caCert; ClientCert := cert; ClientKey := key |}.

End EtcdOptions.

(** ** processor_old.go: the watcher of one resource *)

Module Monitor.

Import Backends.

(** What [monitorPrefix] asks besides the waiting points of
    [WatchPrefix]: the stop flag, and a render. *)
Variant monitorE : Type -> Type :=
| IsStoped : monitorE bool                    (** [p.isStoped()] *)
| Process (lastIndex : Z) : monitorE error.   (** [t.Process(opts...)],
                                                  with [t.lastIndex] as it
                                                  is at the call *)

(** One round of the loop: the new [t.lastIndex], or the [break]. *)
Definition monitorRound (client : Client) (prefix : string)
  (keys : list string) (lastIndex : Z)
  : itree (watchE +' monitorE) (Z + unit) :=
  ITree.bind (ITree.trigger (inr1 IsStoped)) (fun stopped : bool =>
    if stopped then Ret (inr tt)
    else
      ITree.bind
        (translate (fun X (e : watchE X) => inl1 e)
           (WatchPrefix client prefix keys lastIndex))
        (fun r : Z * error =>
           ITree.bind (ITree.trigger (inr1 (Process (fst r))))
             (fun _ : error => Ret (inl (fst r))))).

(** [monitorPrefix]; [keys] is the value of [t.getAbsKeys()]. *)
Definition monitorPrefix (client : Client) (prefix : string)
  (keys : list string) (lastIndex : Z) : itree (watchE +' monitorE) unit :=
  ITree.iter (monitorRound client prefix keys) lastIndex.

(** What a run of the watcher did, in order. *)
Inductive Action :=
| AStoped (answer : bool)
| AStopSignal
| ADial (res : error)
| AResponse (r : option (list (string * Z)))
| AProcess (lastIndex : Z) (res : error).

(** What the watcher's environment answers: the successive values of the
    stop flag, the result of a dial, the responses of the watch channel
    and the result of a render. *)
Record Answers := {
  stops : list bool;
  dialed : error;
  responses : list (option (list (string * Z)));
  rendered : Z -> error
}.

(** The watcher run against [a].  The result is the actions so far, and
    whether the watcher returned; it has not when the fuel ran out or
    when it was left waiting for an answer [a] does not have. *)
Fixpoint run (fuel : nat) (a : Answers) (trace : list Action)
  (t : itree (watchE +' monitorE) unit) : list Action * bool :=
  match fuel with
  | O => (trace, false)
  | S fuel' =>
      match observe t with
      | RetF _ => (trace, true)
      | TauF t' => run fuel' a trace t'
      | VisF e k =>
          match e with
          | inl1 w =>
              match w in watchE X
                    return (X -> itree (watchE +' monitorE) unit)
                           -> list Action * bool with
              | RecvStop => fun k =>
                  run fuel' a (trace ++ [AStopSignal]) (k true)
              | Dial => fun k =>
                  run fuel' a (trace ++ [ADial (dialed a)]) (k (dialed a))
              | RecvWatch => fun k =>
                  match responses a with
                  | [] => (trace, false)
                  | r :: rest =>
                      run fuel'
                        {| stops := stops a; dialed := dialed a;
                           responses := rest; rendered := rendered a |}
                        (trace ++ [AResponse r]) (k r)
                  end
              end k
          | inr1 m =>
              match m in monitorE X
                    return (X -> itree (watchE +' monitorE) unit)
                           -> list Action * bool with
              | IsStoped => fun k =>
                  match stops a with
                  | [] => (trace, false)
                  | s :: rest =>
                      run fuel'
                        {| stops := rest; dialed := dialed a;
                           responses := responses a;
                           rendered := rendered a |}
                        (trace ++ [AStoped s]) (k s)
                  end
              | Process i => fun k =>
                  run fuel' a (trace ++ [AProcess i (rendered a i)])
                    (k (rendered a i))
              end k
          end
      end
  end.

End Monitor.

(** * Properties *)

(** ** The system calls whose result the pipeline discards *)

Section FileSystemFacts.

Import Resource.

Variable E : Env.

Lemma files_osChmod_ne (p q : string) (m : Z) (w : World) :
  p <> q -> files (osChmod E p m w) !! q = files w !! q.
Proof.
  intros Hne. unfold osChmod. cbn [files emit].
  destruct (chmodFails E p (files w)); [reflexivity|].
  cbn [files withFiles]. now rewrite lookup_alter_ne.
Qed.

Lemma files_osChown_ne (p q : string) (u g : Z) (w : World) :
  p <> q -> files (osChown E p u g w) !! q = files w !! q.
Proof.
  intros Hne. unfold osChown. cbn [files emit].
  destruct (chownFails E p (files w)); [reflexivity|].
  cbn [files withFiles]. now rewrite lookup_alter_ne.
Qed.

Lemma files_osChmod_eq (p : string) (m : Z) (w : World) :
  files (osChmod E p m w) !! p
  = match chmodFails E p (files w) with
    | Some _ => files w !! p
    | None =>
        option_map (fun f => {| fdata := fdata f; fmode := Z.land m modeBits;
                                fuid := fuid f; fgid := fgid f |})
          (files w !! p)
    end.
Proof.
  unfold osChmod. cbn [files emit].
  destruct (chmodFails E p (files w)); [reflexivity|].
  cbn [files withFiles]. rewrite lookup_alter_eq.
  now destruct (files w !! p).
Qed.

Lemma files_osChown_eq (p : string) (u g : Z) (w : World) :
  files (osChown E p u g w) !! p
  = match chownFails E p (files w) with
    | Some _ => files w !! p
    | None =>
        option_map (fun f => {| fdata := fdata f; fmode := fmode f;
                                fuid := chownId u (fuid f);
                                fgid := chownId g (fgid f) |})
          (files w !! p)
    end.
Proof.
  unfold osChown. cbn [files emit].
  destruct (chownFails E p (files w)); [reflexivity|].
  cbn [files withFiles]. rewrite lookup_alter_eq.
  now destruct (files w !! p).
Qed.

Lemma fdata_osChmod (p q : string) (m : Z) (w : World) :
  option_map fdata (files (osChmod E p m w) !! q)
  = option_map fdata (files w !! q).
Proof.
  destruct (decide (p = q)) as [<-|Hne].
  - rewrite files_osChmod_eq.
    destruct (chmodFails E p (files w)); [reflexivity|].
    now destruct (files w !! p).
  - now rewrite files_osChmod_ne.
Qed.

Lemma fdata_osChown (p q : string) (u g : Z) (w : World) :
  option_map fdata (files (osChown E p u g w) !! q)
  = option_map fdata (files w !! q).
Proof.
  destruct (decide (p = q)) as [<-|Hne].
  - rewrite files_osChown_eq.
    destruct (chownFails E p (files w)); [reflexivity|].
    now destruct (files w !! p).
  - now rewrite files_osChown_ne.
Qed.


Lemma events_osChown (p : string) (u g : Z) (w : World) :
  events (osChown E p u g w) = events w ++ [EvChown p u g].
Proof. unfold osChown. now destruct (chownFails E p (files w)). Qed.

End FileSystemFacts.

(** ** Examples of the embedded library functions *)

Example ParseUint_octal :
  Strconv.ParseUint0 Strconv.Go1_12 "0644" 32 = Ok 420
  /\ Strconv.ParseUint0 Strconv.Go1_13 "0644" 32 = Ok 420.
Proof. split; reflexivity. Qed.
Example ParseUint_hex :
  Strconv.ParseUint0 Strconv.Go1_12 "0x1A4" 32 = Ok 420
  /\ Strconv.ParseUint0 Strconv.Go1_13 "0x1A4" 32 = Ok 420.
Proof. split; reflexivity. Qed.
Example ParseUint_dec :
  Strconv.ParseUint0 Strconv.Go1_12 "420" 32 = Ok 420
  /\ Strconv.ParseUint0 Strconv.Go1_13 "420" 32 = Ok 420.
Proof. split; reflexivity. Qed.
Example ParseUint_bad :
  Strconv.ParseUint0 Strconv.Go1_12 "0x" 32 = Err Strconv.ErrSyntax
  /\ Strconv.ParseUint0 Strconv.Go1_13 "0x" 32 = Err Strconv.ErrSyntax.
Proof. split; reflexivity. Qed.
Example ParseUint_big :
  Strconv.ParseUint0 Strconv.Go1_12 "4294967296" 32 = Err Strconv.ErrRange
  /\ Strconv.ParseUint0 Strconv.Go1_13 "4294967296" 32 = Err Strconv.ErrRange.
Proof. split; reflexivity. Qed.
Example ParseUint_binary :
  Strconv.ParseUint0 Strconv.Go1_12 "0b101" 32 = Err Strconv.ErrSyntax
  /\ Strconv.ParseUint0 Strconv.Go1_13 "0b101" 32 = Ok 5.
Proof. split; reflexivity. Qed.
Example ParseUint_0o :
  Strconv.ParseUint0 Strconv.Go1_12 "0o644" 32 = Err Strconv.ErrSyntax
  /\ Strconv.ParseUint0 Strconv.Go1_13 "0o644" 32 = Ok 420.
Proof. split; reflexivity. Qed.
Example ParseUint_underscores :
  Strconv.ParseUint0 Strconv.Go1_13 "1_000" 32 = Ok 1000
  /\ Strconv.ParseUint0 Strconv.Go1_13 "0x_1F" 32 = Ok 31
  /\ Strconv.ParseUint0 Strconv.Go1_13 "0_7" 32 = Ok 7
  /\ Strconv.ParseUint0 Strconv.Go1_13 "_1" 32 = Err Strconv.ErrSyntax
  /\ Strconv.ParseUint0 Strconv.Go1_13 "1_" 32 = Err Strconv.ErrSyntax
  /\ Strconv.ParseUint0 Strconv.Go1_13 "1__0" 32 = Err Strconv.ErrSyntax
  /\ Strconv.ParseUint0 Strconv.Go1_12 "1_000" 32 = Err Strconv.ErrSyntax.
Proof. repeat split; reflexivity. Qed.
Example uintValue_big : ModeSyntax.uintValue "4294967296" = Some 4294967296.
Proof. reflexivity. Qed.
Example Join_root_abs : GoPath.Join ["/"; "/port"] = "/port".
Proof. reflexivity. Qed.
Example Join_root_messy : GoPath.Join ["/"; "a//b/../c/"] = "/a/c".
Proof. reflexivity. Qed.
Example Join_root_empty : GoPath.Join ["/"; ""] = "/".
Proof. reflexivity. Qed.
Example Dir_dest : GoPath.Dir "/etc/nginx/nginx.conf" = "/etc/nginx".
Proof. reflexivity. Qed.
Example Base_dest : GoPath.Base "/etc/nginx/nginx.conf" = "nginx.conf".
Proof. reflexivity. Qed.
Example TrimPrefix_app : GoStrings.TrimPrefix "/app/port" "/app" = "/port".
Proof. reflexivity. Qed.
Example Contains_busy :
  GoStrings.Contains "rename a b: device or resource busy" Resource.busy = true.
Proof. reflexivity. Qed.

(** ** strconv.ParseUint against the syntax of the specification *)

Section ParseUintFacts.

Import Strconv ModeSyntax.

Lemma digit_agrees (c : ascii) (base : Z) :
  base <= 16 ->
  match digitVal c with
  | Some v => if v >=? base then None else Some v
  | None => None
  end
  = match hexDigit c with
    | Some d => if d <? base then Some d else None
    | None => None
    end.
Proof.
  intros Hb.
  destruct c as [[] [] [] [] [] [] [] []]; vm_compute digitVal;
    vm_compute hexDigit; cbv beta iota;
    repeat match goal with
      | |- context [?v >=? base] => destruct (Z.geb_spec v base)
      | |- context [?v <? base] => destruct (Z.ltb_spec v base)
      end; try reflexivity; lia.
Qed.

Lemma digitVal_nonneg (c : ascii) (v : Z) : digitVal c = Some v -> 0 <= v.
Proof.
  unfold digitVal.
  repeat match goal with
    | |- context [if ?b then _ else _] => destruct b eqn:?
    end; intros [= <-]; try discriminate;
    repeat match goal with
      | H : _ && _ = true |- _ => apply andb_true_iff in H; destruct H
      | H : (_ <=? _) = true |- _ => apply Z.leb_le in H
      end; lia.
Qed.

Lemma digitsValue_ge (base : Z) (ds : string) :
  1 <= base ->
  forall n v, 0 <= n -> digitsValue base n ds = Some v -> n <= v.
Proof.
  intros Hb. induction ds as [|c ds IH]; intros n v Hn; simpl.
  - intros [= <-]. lia.
  - destruct (hexDigit c) as [d|] eqn:Hd; [|discriminate].
    destruct (Z.ltb_spec d base); [|discriminate].
    assert (0 <= d).
    { revert Hd. unfold hexDigit.
      repeat match goal with
        | |- context [match ?o with _ => _ end] => destruct o
        end; intros [= <-]; lia. }
    intros Hv. apply IH in Hv; nia.
Qed.

(** The digit loop computes the value of the digits, and reports an error
    exactly when a character is no digit of the base or the value
    exceeds [maxVal]. *)
Lemma parseDigits_spec (base maxVal : Z) (ds : string) :
  2 <= base <= 16 -> 0 <= maxVal <= maxUint64 ->
  forall n, 0 <= n <= maxVal ->
  match parseDigits base (maxUint64 / base + 1) maxVal ds n with
  | Ok v => digitsValue base n ds = Some v /\ v <= maxVal
  | Err _ =>
      digitsValue base n ds = None \/
      exists v, digitsValue base n ds = Some v /\ maxVal < v
  end.
Proof.
  intros Hb Hmax. unfold maxUint64 in *.
  assert (Hdiv : (2 ^ 64 - 1) / base * base <= 2 ^ 64 - 1
                 /\ 2 ^ 64 - 1 < ((2 ^ 64 - 1) / base + 1) * base).
  { pose proof (Z.mul_div_le (2 ^ 64 - 1) base).
    pose proof (Z.mul_succ_div_gt (2 ^ 64 - 1) base). lia. }
  set (q := (2 ^ 64 - 1) / base) in *.
  induction ds as [|c ds IH]; intros n Hn; simpl.
  - split; [reflexivity | lia].
  - pose proof (digit_agrees c base ltac:(lia)) as HD.
    pose proof (digitVal_nonneg c) as Hnn.
    destruct (digitVal c) as [v|].
    2:{ destruct (hexDigit c) as [d|]; [|now left].
        destruct (d <? base); [discriminate | now left]. }
    specialize (Hnn v eq_refl).
    destruct (Z.geb_spec v base) as [Hge|Hlt].
    { destruct (hexDigit c) as [d|]; [|now left].
      destruct (d <? base); [discriminate | now left]. }
    destruct (hexDigit c) as [d|]; [|discriminate].
    destruct (d <? base); [|discriminate].
    injection HD as <-.
    assert (Hmono : forall m, maxVal < m ->
              digitsValue base m ds = None \/
              exists r, digitsValue base m ds = Some r /\ maxVal < r).
    { intros m Hm. destruct (digitsValue base m ds) as [r|] eqn:Hr; [|now left].
      right. exists r. split; [reflexivity|].
      apply digitsValue_ge in Hr; lia. }
    destruct (Z.geb_spec n (q + 1)) as [Hcut|Hcut].
    { apply Hmono. nia. }
    assert (Hsmall : 0 <= n * base < 2 ^ 64) by nia.
    unfold wrap64. rewrite (Z.mod_small (n * base)) by lia.
    destruct (Z_lt_ge_dec (n * base + v) (2 ^ 64)) as [Hfit|Hover].
    + rewrite (Z.mod_small (n * base + v)) by lia.
      destruct (Z.ltb_spec (n * base + v) (n * base)); [lia|].
      cbn [orb].
      destruct (Z.gtb_spec (n * base + v) maxVal) as [Hgt|Hle].
      * apply Hmono. lia.
      * apply IH. lia.
    + assert (Hm : (n * base + v) mod 2 ^ 64 = n * base + v - 2 ^ 64).
      { symmetry. apply (Z.mod_unique _ _ 1); lia. }
      rewrite Hm.
      destruct (Z.ltb_spec (n * base + v - 2 ^ 64) (n * base)); [|lia].
      cbn [orb]. apply Hmono. lia.
Qed.

End ParseUintFacts.

(** Up to Go 1.12, [ParseUint] with base 0 and 32 bits reads exactly the
    literals of the specification whose value fits 32 bits. *)
Lemma ParseUint0Classic_spec (s : string) :
  match Strconv.ParseUint0Classic s 32 with
  | Ok v => ModeSyntax.uintValue s = Some v /\ 0 <= v <= 4294967295
  | Err _ =>
      ModeSyntax.uintValue s = None \/
      exists v, ModeSyntax.uintValue s = Some v /\ 4294967295 < v
  end.
Proof.
  assert (Hgen : forall base ds, 2 <= base <= 16 ->
            match Strconv.parseDigits base (Strconv.maxUint64 / base + 1)
                    (2 ^ 32 - 1) ds 0 with
            | Ok v => ModeSyntax.digitsValue base 0 ds = Some v
                      /\ 0 <= v <= 4294967295
            | Err _ =>
                ModeSyntax.digitsValue base 0 ds = None \/
                exists v, ModeSyntax.digitsValue base 0 ds = Some v
                          /\ 4294967295 < v
            end).
  { intros base ds Hb.
    pose proof (parseDigits_spec base (2 ^ 32 - 1) ds Hb
                  ltac:(unfold Strconv.maxUint64; lia) 0 ltac:(lia)) as H.
    destruct (Strconv.parseDigits _ _ _ _ _) as [v|e].
    - destruct H as [H1 H2]. split; [exact H1|].
      apply digitsValue_ge in H1; lia.
    - destruct H as [H|[v [H1 H2]]]; [now left|].
      right. exists v. split; [exact H1 | lia]. }
  unfold Strconv.ParseUint0Classic, Strconv.detectBase, ModeSyntax.uintValue,
    Strconv.isX.
  destruct s as [|c0 rest]; [now left|].
  destruct (Ascii.eqb c0 "0"%char).
  - destruct rest as [|c1 ds].
    + cbn. split; [reflexivity | lia].
    + destruct (Ascii.eqb c1 "x"%char || Ascii.eqb c1 "X"%char).
      * destruct ds as [|c2 ds]; [now left|]. apply Hgen. lia.
      * apply Hgen. lia.
  - apply Hgen. lia.
Qed.

(** The two digit switches agree on every byte. *)
Lemma digitValLower_eq (c : ascii) : Strconv.digitValLower c = Strconv.digitVal c.
Proof. destruct c as [[] [] [] [] [] [] [] []]; reflexivity. Qed.

(** On digits of the specification's syntax the loop of Go 1.13 is the
    older loop: there is no underscore to skip. *)
Lemma parseDigitsSep_agree (base cutoff maxVal : Z) (ds : string) :
  forall acc v n,
    ModeSyntax.digitsValue base acc ds = Some v ->
    Strconv.parseDigitsSep base cutoff maxVal ds n false
    = match Strconv.parseDigits base cutoff maxVal ds n with
      | Ok r => Ok (r, false)
      | Err e => Err e
      end.
Proof.
  induction ds as [|c ds IH]; intros acc v n; cbn [ModeSyntax.digitsValue
    Strconv.parseDigitsSep Strconv.parseDigits]; [reflexivity|].
  destruct (ModeSyntax.hexDigit c) as [d|] eqn:Hd; [|discriminate].
  destruct (d <? base); [|discriminate].
  intros Hv.
  assert (Hu : Ascii.eqb c Strconv.underscore = false).
  { destruct (Ascii.eqb_spec c Strconv.underscore) as [->|]; [|reflexivity].
    vm_compute in Hd. discriminate. }
  rewrite Hu, digitValLower_eq.
  destruct (Strconv.digitVal c) as [x|]; [|reflexivity].
  destruct (x >=? base); [reflexivity|].
  destruct (n >=? cutoff); [reflexivity|].
  cbv zeta.
  destruct (_ || _); [reflexivity|].
  eapply IH. exact Hv.
Qed.

(** On a literal of the specification's syntax both releases agree. *)
Lemma ParseUint0_releases_agree (s : string) (v : Z) :
  ModeSyntax.uintValue s = Some v ->
  Strconv.ParseUint0Sep s 32 = Strconv.ParseUint0Classic s 32.
Proof.
  assert (Hloop : forall base ds w,
            ModeSyntax.digitsValue base 0 ds = Some w ->
            match Strconv.parseDigitsSep base (Strconv.maxUint64 / base + 1)
                    (2 ^ 32 - 1) ds 0 false with
            | Ok (n, underscores) =>
                if underscores && negb (Strconv.underscoreOK s)
                then Err Strconv.ErrSyntax else Ok n
            | Err e => Err e
            end
            = Strconv.parseDigits base (Strconv.maxUint64 / base + 1)
                (2 ^ 32 - 1) ds 0).
  { intros base ds w Hw.
    rewrite (parseDigitsSep_agree _ _ _ _ _ _ _ Hw).
    destruct (Strconv.parseDigits _ _ _ _ _); reflexivity. }
  unfold ModeSyntax.uintValue, Strconv.ParseUint0Sep, Strconv.ParseUint0Classic,
    Strconv.detectBaseSep, Strconv.detectBase, Strconv.isX.
  destruct s as [|c0 rest]; [discriminate|].
  change (String.eqb (String c0 rest) "") with false. cbv iota.
  destruct (Ascii.eqb c0 "0"%char).
  - destruct rest as [|c1 ds]; [intros _; reflexivity|].
    destruct (Ascii.eqb c1 "x"%char || Ascii.eqb c1 "X"%char) eqn:Hx.
    + destruct ds as [|c2 ds]; [discriminate|].
      assert (Hl : Strconv.lower c1 = 120).
      { apply orb_true_iff in Hx as [Hx|Hx];
          apply Ascii.eqb_eq in Hx; subst c1; reflexivity. }
      rewrite Hl. cbn [Z.eqb Pos.eqb]. apply Hloop.
    + intros Hv.
      assert (Hl : (Strconv.lower c1 =? 98) = false
                   /\ (Strconv.lower c1 =? 111) = false
                   /\ (Strconv.lower c1 =? 120) = false).
      { cbn [ModeSyntax.digitsValue] in Hv.
        destruct (ModeSyntax.hexDigit c1) as [d|] eqn:Hd; [|discriminate].
        destruct (Z.ltb_spec d 8); [|discriminate]. clear Hv Hx.
        destruct c1 as [[] [] [] [] [] [] [] []]; vm_compute in Hd;
          try discriminate; injection Hd as <-; try lia;
          repeat split; reflexivity. }
      destruct Hl as (-> & -> & ->).
      destruct ds; eapply Hloop; exact Hv.
  - apply Hloop.
Qed.

(** [ParseUint] with base 0 and 32 bits on the literals of the
    specification, for either release: the value when it fits 32 bits, an
    error when it does not; up to Go 1.12 every other string is an error. *)
Lemma ParseUint0_spec (release : Strconv.Release) (s : string) :
  match ModeSyntax.uintValue s with
  | Some v =>
      if v <=? 4294967295
      then Strconv.ParseUint0 release s 32 = Ok v
      else exists e, Strconv.ParseUint0 release s 32 = Err e
  | None =>
      release = Strconv.Go1_12 ->
      exists e, Strconv.ParseUint0 release s 32 = Err e
  end.
Proof.
  pose proof (ParseUint0Classic_spec s) as H.
  destruct (ModeSyntax.uintValue s) as [v|] eqn:Hv.
  - assert (Hr : Strconv.ParseUint0 release s 32 = Strconv.ParseUint0Classic s 32).
    { destruct release; [reflexivity|].
      exact (ParseUint0_releases_agree s v Hv). }
    rewrite Hr.
    destruct (Strconv.ParseUint0Classic s 32) as [r|e].
    + destruct H as [[= <-] Hb]. destruct (Z.leb_spec v 4294967295); [reflexivity | lia].
    + destruct H as [H|[r [[= <-] Hb]]]; [discriminate|].
      destruct (Z.leb_spec v 4294967295); [lia | eauto].
  - intros ->. cbn [Strconv.ParseUint0].
    destruct (Strconv.ParseUint0Classic s 32) as [r|e]; [|eauto].
    destruct H as [[=] _].
Qed.

(** ** ParseUint from Go 1.13 on *)

Section ParseUintSepFacts.

Import Strconv ModeSyntax.



(** What [underscoreOK] takes for a digit. *)
Local Abbreviation scanDigit hex c :=
  (((48 <=? byteZ c) && (byteZ c <=? 57))
   || (hex && (97 <=? lower c) && (lower c <=? 102))).

Local Abbreviation allScan hex ds :=
  (Forall (fun c => isUnderscore c = true \/ scanDigit hex c = true)
     (list_ascii_of_string ds)).
















End ParseUintSepFacts.

Example uintValueSep_binary : ModeSyntax.uintValueSep "0b11" = Some 3.
Proof. reflexivity. Qed.
Example uintValueSep_octal : ModeSyntax.uintValueSep "0o644" = Some 420.
Proof. reflexivity. Qed.
Example uintValueSep_underscores :
  ModeSyntax.uintValueSep "0x_1_a4" = Some 420
  /\ ModeSyntax.uintValueSep "4_2_0" = Some 420.
Proof. split; reflexivity. Qed.
Example uintValueSep_misplaced :
  ModeSyntax.uintValueSep "_1_" = None
  /\ ModeSyntax.uintValueSep "1__0" = None
  /\ ModeSyntax.uintValueSep "0b" = None
  /\ ModeSyntax.uintValueSep "0b_" = None
  /\ ModeSyntax.uintValueSep "0b12" = None.
Proof. repeat split; reflexivity. Qed.
Example ParseUint_misplaced_underscores :
  Strconv.ParseUint0 Strconv.Go1_13 "_1_" 32 = Err Strconv.ErrSyntax
  /\ Strconv.ParseUint0 Strconv.Go1_13 "1__0" 32 = Err Strconv.ErrSyntax
  /\ Strconv.ParseUint0 Strconv.Go1_13 "0b11" 32 = Ok 3.
Proof. repeat split; reflexivity. Qed.

(** ** setFileMode *)



(** With the standard library from Go 1.13 on, modes in the further forms
    of integer literals are accepted as well. *)
Example setFileMode_binary_mode :
  Resource.setFileMode (Examples.env [] "" [] None)
    (Examples.resource "0b110100100" "" false false false None)
    Examples.deployed
  = (None, Resource.setFileModeField 420
             (Examples.resource "0b110100100" "" false false false None)).
Proof. reflexivity. Qed.

(** ** Processor.Stop *)

Lemma reachable_flags (p : Processor.Processor) :
  Processor.reachable p ->
  Processor.stoped p = 0 /\ (Processor.runing p = 0 \/ Processor.runing p = 1).
Proof.
  induction 1 as [|we o p Hp [IH1 IH2]|p Hp [IH1 IH2]].
  - split; [reflexivity | now left].
  - unfold Processor.Start.
    destruct (Z.eqb_spec (Processor.runing p) 0) as [H0|H0]; cbn [negb].
    + repeat match goal with
        | |- context [if ?b then _ else _] => destruct b
        end; cbn; auto.
    + cbn. auto.
  - unfold Processor.Stop, Processor.IsRunning.
    destruct (Z.eqb_spec (Processor.runing p) 1); cbn; auto.
Qed.

(** C9.  Stop on a processor that is not running returns the processor as
    it was, without waiting on the wait-group (no event at all); and in
    every state that calls of Start and Stop lead to from a new processor,
    both flags are false afterwards. *)
Theorem Stop_not_running (p : Processor.Processor) :
  Processor.IsRunning p = false ->
  Processor.Stop p = (p, []) /\
  ~ In Processor.EvWait (snd (Processor.Stop p)) /\
  (Processor.reachable p ->
   Processor.IsRunning (fst (Processor.Stop p)) = false /\
   Processor.isStoped (fst (Processor.Stop p)) = false).
Proof.
  intros Hr.
  assert (Hs : Processor.Stop p = (p, [])).
  { unfold Processor.Stop. rewrite Hr. reflexivity. }
  rewrite Hs. cbn [fst snd]. split; [reflexivity|]. split; [intros []|].
  intros Hp. split; [exact Hr|].
  apply reachable_flags in Hp as [H0 _].
  unfold Processor.isStoped. rewrite H0. reflexivity.
Qed.

Lemma Stop_not_running_witness :
  Processor.Stop Processor.NewProcessor = (Processor.NewProcessor, []) /\
  ~ In Processor.EvWait (snd (Processor.Stop Processor.NewProcessor)) /\
  (Processor.reachable Processor.NewProcessor ->
   Processor.IsRunning (fst (Processor.Stop Processor.NewProcessor)) = false /\
   Processor.isStoped (fst (Processor.Stop Processor.NewProcessor)) = false).
Proof. apply (Stop_not_running Processor.NewProcessor). reflexivity. Defined.

(** A running processor, for contrast: Stop waits and clears both flags. *)
Example Stop_running :
  Processor.Stop
    (fst (Processor.Start false
            {| Processor.useOnetimeMode := true;
               Processor.useIntervalMode := false;
               Processor.useWatchMode := false |} Processor.NewProcessor))
  = ({| Processor.runing := 0; Processor.stoped := 0;
        Processor.option_ := {| Processor.useOnetimeMode := true;
                                Processor.useIntervalMode := false;
                                Processor.useWatchMode := false |} |},
     [Processor.EvWait]).
Proof. reflexivity. Qed.

(** ** Processor.runOnce *)

Section RunOnceFacts.

Variables T W : Type.
Variable Process : T -> W -> error * W.
Variable stopRequested : W -> bool.

Lemma errorsOf_app (a b : list (T * error)) :
  OnetimeSpec.errorsOf T (a ++ b)
  = OnetimeSpec.errorsOf T a ++ OnetimeSpec.errorsOf T b.
Proof. unfold OnetimeSpec.errorsOf. apply omap_app. Qed.

Lemma head_errorsOf (calls : list (T * error)) :
  match OnetimeSpec.errorsOf T calls with e :: _ => Some e | [] => None end
  = OnetimeSpec.firstError (map snd calls).
Proof.
  induction calls as [|[t [e|]] calls IH]; cbn; auto.
Qed.

(** The loop calls [Process] on the resources of a front part of the list,
    one after the other, and what is left of the list was cut off by a
    stop request. *)
Lemma runLoop_spec (ts : list T) :
  forall w allErrors calls,
  exists cs rest w',
    Processor.runLoop T W Process stopRequested ts w allErrors calls
    = (allErrors ++ OnetimeSpec.errorsOf T cs, calls ++ cs, w')
    /\ OnetimeSpec.processAll T W Process (map fst cs) w = (cs, w')
    /\ ts = map fst cs ++ rest
    /\ (rest = [] \/ stopRequested w' = true).
Proof.
  induction ts as [|t ts IH]; intros w allErrors calls; cbn [Processor.runLoop].
  - exists [], [], w. cbn. rewrite !app_nil_r. auto.
  - destruct (stopRequested w) eqn:Hstop.
    + exists [], (t :: ts), w. cbn. rewrite !app_nil_r. auto.
    + destruct (Process t w) as [err w1] eqn:HP.
      assert (Hstep : exists cs rest w',
                Processor.runLoop T W Process stopRequested ts w1
                  (allErrors ++ OnetimeSpec.errorsOf T [(t, err)])
                  (calls ++ [(t, err)])
                = ((allErrors ++ OnetimeSpec.errorsOf T [(t, err)])
                     ++ OnetimeSpec.errorsOf T cs,
                   (calls ++ [(t, err)]) ++ cs, w')
                /\ OnetimeSpec.processAll T W Process (map fst cs) w1 = (cs, w')
                /\ ts = map fst cs ++ rest
                /\ (rest = [] \/ stopRequested w' = true)) by apply IH.
      destruct Hstep as (cs & rest & w' & Hrun & Hall & Hts & Hrest).
      exists ((t, err) :: cs), rest, w'.
      repeat split.
      * destruct err as [e|]; cbn in Hrun |- *;
          [|rewrite app_nil_r in Hrun]; rewrite Hrun;
          now rewrite <- ?app_assoc.
      * cbn. rewrite HP, Hall. reflexivity.
      * cbn. now rewrite Hts.
      * exact Hrest.
Qed.

End RunOnceFacts.

(** C7.  When the list of resources has been built, runOnce calls Process
    on the resources in order, whatever the earlier calls returned: the
    calls it makes are those of rendering a front part of the list one
    resource after the other, nothing but a stop request cuts the list
    short, and the value it returns is the first error among the results
    of the calls, nil when there is none. *)
Theorem runOnce_surfaces_first_error
  (T W : Type) (MakeAll : W -> Result (list T))
  (Process : T -> W -> error * W) (stopRequested : W -> bool)
  (w : W) (ts : list T) :
  MakeAll w = Ok ts ->
  exists calls rest w',
    Processor.runOnce T W MakeAll Process stopRequested w
    = (OnetimeSpec.firstError (map snd calls), calls, w')
    /\ OnetimeSpec.processAll T W Process (map fst calls) w = (calls, w')
    /\ ts = map fst calls ++ rest
    /\ (rest = [] \/ stopRequested w' = true).
Proof.
  intros Hmk. unfold Processor.runOnce. rewrite Hmk.
  destruct (runLoop_spec T W Process stopRequested ts w [] [])
    as (cs & rest & w' & Hrun & Hall & Hts & Hrest).
  exists cs, rest, w'. rewrite Hrun. cbn [app].
  rewrite <- head_errorsOf.
  repeat split; try assumption.
  destruct (OnetimeSpec.errorsOf T cs); reflexivity.
Qed.

Lemma runOnce_surfaces_first_error_witness :
  exists calls rest w',
    Processor.runOnce string (list string)
      (fun _ => Ok ["a.toml"; "bad.toml"; "c.toml"; "worse.toml"])
      (fun t log =>
         (if String.prefix "bad" t then Some "check failed"
          else if String.prefix "worse" t then Some "reload failed"
          else None, log ++ [t]))
      (fun _ => false) []
    = (OnetimeSpec.firstError (map snd calls), calls, w')
    /\ OnetimeSpec.processAll string (list string)
         (fun t log =>
            (if String.prefix "bad" t then Some "check failed"
             else if String.prefix "worse" t then Some "reload failed"
             else None, log ++ [t]))
         (map fst calls) [] = (calls, w')
    /\ ["a.toml"; "bad.toml"; "c.toml"; "worse.toml"] = map fst calls ++ rest
    /\ (rest = [] \/ (fun _ : list string => false) w' = true).
Proof.
  exact (runOnce_surfaces_first_error string (list string)
           (fun _ => Ok ["a.toml"; "bad.toml"; "c.toml"; "worse.toml"])
           (fun t log =>
              (if String.prefix "bad" t then Some "check failed"
               else if String.prefix "worse" t then Some "reload failed"
               else None, log ++ [t]))
           (fun _ => false) []
           ["a.toml"; "bad.toml"; "c.toml"; "worse.toml"] eq_refl).
Defined.

(** A run over four resources of which the second and the fourth fail: all
    four are rendered and the error of the second is returned. *)
Example runOnce_four_resources :
  Processor.runOnce string (list string)
    (fun _ => Ok ["a.toml"; "bad.toml"; "c.toml"; "worse.toml"])
    (fun t log =>
       (if String.prefix "bad" t then Some "check failed"
        else if String.prefix "worse" t then Some "reload failed"
        else None, log ++ [t]))
    (fun _ => false) []
  = (Some "check failed",
     [("a.toml", None); ("bad.toml", Some "check failed");
      ("c.toml", None); ("worse.toml", Some "reload failed")],
     ["a.toml"; "bad.toml"; "c.toml"; "worse.toml"]).
Proof. reflexivity. Qed.

(** ** WatchPrefix with waitIndex 0 *)

(** C4, as the claim states it, fails for the env driver: its WatchPrefix
    first receives from the stop channel, whatever the wait index, and the
    index it then returns is 0. *)
Lemma env_WatchPrefix_blocks :
  In Backends.EnvClient Backends.drivers /\
  ~ Backends.returnsAtOnce
      (Backends.WatchPrefix Backends.EnvClient "/app" ["/app/port"] 0)
      (1, None).
Proof.
  split; [right; left; reflexivity|].
  unfold Backends.returnsAtOnce. cbn. discriminate.
Qed.

(** C4, amended.  The etcd driver's WatchPrefix with wait index 0 returns
    (1, nil) at once; the env driver's WatchPrefix, for every wait index,
    waits for the stop signal and then returns (0, nil). *)
Theorem WatchPrefix_zero_index (prefix : string) (keys : list string) :
  Backends.returnsAtOnce
    (Backends.WatchPrefix Backends.EtcdClient prefix keys 0) (1, None)
  /\ forall waitIndex,
       observe (Backends.WatchPrefix Backends.EnvClient prefix keys waitIndex)
       = VisF Backends.RecvStop (fun _ => Ret (0, None)).
Proof. split; [reflexivity | intros; reflexivity]. Qed.

(** ** The template function map and the crypt functions *)

Section CryptFacts.

Import TemplateFunc.

Variable secconfDecode : string -> string -> Result string.
Variable store : KVStoreQueries.
Variable key : string.

Lemma cgetsLoop_spec (todo done : list KV.KVPair) :
  cgetsLoop secconfDecode key done todo
  = match CryptSpec.decodeEach (CryptSpec.decodePair secconfDecode key) todo with
    | Ok l => (Some (done ++ l), None)
    | Err e => (None, Some e)
    end.
Proof.
  revert done. induction todo as [|kv todo IH]; intros done; cbn.
  - now rewrite app_nil_r.
  - unfold CryptSpec.decodePair at 1.
    destruct (secconfDecode (KV.Value kv) key) as [b|e]; [|reflexivity].
    rewrite IH.
    destruct (CryptSpec.decodeEach _ todo); [|reflexivity].
    now rewrite <- app_assoc.
Qed.

Lemma cgetvsLoop_spec (todo done : list string) :
  cgetvsLoop secconfDecode key done todo
  = match CryptSpec.decodeEach (CryptSpec.decodeValue secconfDecode key) todo with
    | Ok l => (Some (done ++ l), None)
    | Err e => (None, Some e)
    end.
Proof.
  revert done. induction todo as [|v todo IH]; intros done; cbn.
  - now rewrite app_nil_r.
  - unfold CryptSpec.decodeValue at 1.
    destruct (secconfDecode v key) as [b|e]; [|reflexivity].
    rewrite IH.
    destruct (CryptSpec.decodeEach _ todo); [|reflexivity].
    now rewrite <- app_assoc.
Qed.

(** The plain lookups are bound to the store, with or without a key. *)
Lemma NewTemplateFuncMap_plain :
  snd (NewTemplateFuncMap secconfDecode store key) !! "get"
  = Some (FnKV (fun k => Returns (storeGet store k)))
  /\ snd (NewTemplateFuncMap secconfDecode store key) !! "gets"
     = Some (FnKVs (fun pat => Returns (storeGetAll store pat)))
  /\ snd (NewTemplateFuncMap secconfDecode store key) !! "getv"
     = Some (FnVal (fun k v => Returns (storeGetValue store k v)))
  /\ snd (NewTemplateFuncMap secconfDecode store key) !! "getvs"
     = Some (FnVals (fun pat => Returns (storeGetAllValues store pat))).
Proof.
  unfold NewTemplateFuncMap. cbn [snd FuncMap].
  destruct (0 <? String.length key)%nat; repeat split; reflexivity.
Qed.

Lemma FuncMap_of_new :
  FuncMap (fst (NewTemplateFuncMap secconfDecode store key))
  = snd (NewTemplateFuncMap secconfDecode store key).
Proof. reflexivity. Qed.

End CryptFacts.

Lemma decodeEach_first_failure {A : Type} (dec : A -> Result A) (xs : list A) :
  Exists (fun x => isOk (dec x) = false) xs ->
  exists e x, In x xs /\ dec x = Err e /\ CryptSpec.decodeEach dec xs = Err e.
Proof.
  induction xs as [|x xs IH]; intros HE.
  - inversion HE.
  - cbn. destruct (dec x) as [y|e] eqn:Hx.
    + inversion HE as [? ? Hbad|? ? Htl]; subst.
      * rewrite Hx in Hbad. discriminate.
      * destruct (IH Htl) as (e & x' & Hin & Hd & ->).
        exists e, x'. auto.
    + exists e, x. auto.
Qed.

(** The crypt functions stored in the map were bound when the map held the
    plain functions only; the finished map answers their lookups alike. *)
Lemma crypt_funcs_see_same_plain
  (secconfDecode : string -> string -> Result string)
  (store : TemplateFunc.KVStoreQueries) (key arg : string) :
  let p0 := TemplateFunc.withPlainFuncs store key in
  let p := fst (TemplateFunc.NewTemplateFuncMap secconfDecode store key) in
  TemplateFunc.Cget secconfDecode p arg = TemplateFunc.Cget secconfDecode p0 arg
  /\ TemplateFunc.Cgets secconfDecode p arg = TemplateFunc.Cgets secconfDecode p0 arg
  /\ TemplateFunc.Cgetv secconfDecode p arg = TemplateFunc.Cgetv secconfDecode p0 arg
  /\ TemplateFunc.Cgetvs secconfDecode p arg = TemplateFunc.Cgetvs secconfDecode p0 arg.
Proof.
  intros p0 p.
  destruct (NewTemplateFuncMap_plain secconfDecode store key) as (H1 & H2 & H3 & H4).
  unfold TemplateFunc.Cget, TemplateFunc.Cgets, TemplateFunc.Cgetv,
    TemplateFunc.Cgetvs.
  subst p. rewrite FuncMap_of_new, H1, H2, H3, H4.
  repeat split; reflexivity.
Qed.

(** What each crypt function returns, its plain counterpart resolved. *)
Lemma crypt_funcs_delegate
  (secconfDecode : string -> string -> Result string)
  (store : TemplateFunc.KVStoreQueries) (key arg : string) :
  let p0 := TemplateFunc.withPlainFuncs store key in
  TemplateFunc.Cget secconfDecode p0 arg
  = TemplateFunc.Returns
      match TemplateFunc.storeGet store arg with
      | (kv, None) =>
          match CryptSpec.decodePair secconfDecode key kv with
          | Ok kv' => (kv', None)
          | Err e => (kv, Some e)
          end
      | (kv, Some e) => (kv, Some e)
      end
  /\ TemplateFunc.Cgets secconfDecode p0 arg
     = TemplateFunc.Returns
         match TemplateFunc.storeGetAll store arg with
         | (Some kvs, None) =>
             match CryptSpec.decodeEach
                     (CryptSpec.decodePair secconfDecode key) kvs with
             | Ok l => (Some l, None)
             | Err e => (None, Some e)
             end
         | other => other
         end
  /\ TemplateFunc.Cgetv secconfDecode p0 arg
     = TemplateFunc.Returns
         match TemplateFunc.storeGetValue store arg [] with
         | (v, None) =>
             match CryptSpec.decodeValue secconfDecode key v with
             | Ok b => (b, None)
             | Err e => (v, Some e)
             end
         | (v, Some e) => (v, Some e)
         end
  /\ TemplateFunc.Cgetvs secconfDecode p0 arg
     = TemplateFunc.Returns
         match TemplateFunc.storeGetAllValues store arg with
         | (Some vs, None) =>
             match CryptSpec.decodeEach
                     (CryptSpec.decodeValue secconfDecode key) vs with
             | Ok l => (Some l, None)
             | Err e => (None, Some e)
             end
         | other => other
         end.
Proof.
  intros p0.
  unfold TemplateFunc.Cget, TemplateFunc.Cgets, TemplateFunc.Cgetv,
    TemplateFunc.Cgetvs, CryptSpec.decodePair, CryptSpec.decodeValue.
  change (TemplateFunc.PGPPrivateKey p0) with key.
  repeat split.
  - change (TemplateFunc.FuncMap p0 !! "get")
      with (Some (TemplateFunc.FnKV
                    (fun k => TemplateFunc.Returns (TemplateFunc.storeGet store k)))).
    cbv beta iota.
    destruct (TemplateFunc.storeGet store arg) as [kv [e|]]; [reflexivity|].
    destruct (secconfDecode (KV.Value kv) key); reflexivity.
  - change (TemplateFunc.FuncMap p0 !! "gets")
      with (Some (TemplateFunc.FnKVs
                    (fun k => TemplateFunc.Returns (TemplateFunc.storeGetAll store k)))).
    cbv beta iota.
    destruct (TemplateFunc.storeGetAll store arg) as [[kvs|] [e|]];
      try reflexivity.
    rewrite cgetsLoop_spec. unfold CryptSpec.decodePair.
    destruct (CryptSpec.decodeEach _ kvs); reflexivity.
  - change (TemplateFunc.FuncMap p0 !! "getv")
      with (Some (TemplateFunc.FnVal
                    (fun k v => TemplateFunc.Returns
                                  (TemplateFunc.storeGetValue store k v)))).
    cbv beta iota.
    destruct (TemplateFunc.storeGetValue store arg []) as [v [e|]]; [reflexivity|].
    destruct (secconfDecode v key); reflexivity.
  - change (TemplateFunc.FuncMap p0 !! "getvs")
      with (Some (TemplateFunc.FnVals
                    (fun k => TemplateFunc.Returns
                                (TemplateFunc.storeGetAllValues store k)))).
    cbv beta iota.
    destruct (TemplateFunc.storeGetAllValues store arg) as [[vs|] [e|]];
      try reflexivity.
    rewrite cgetvsLoop_spec. unfold CryptSpec.decodeValue.
    destruct (CryptSpec.decodeEach _ vs); reflexivity.
Qed.

(** C10.  When decoding fails for a value of the matched set, Cgets
    returns the nil slice of pairs together with the error of the first
    value that fails, and Cgetvs the nil slice of strings likewise. *)
Theorem crypt_lists_nil_on_failure
  (secconfDecode : string -> string -> Result string)
  (store : TemplateFunc.KVStoreQueries) (key pattern : string) :
  (forall kvs,
     TemplateFunc.storeGetAll store pattern = (Some kvs, None) ->
     Exists (fun kv => isOk (secconfDecode (KV.Value kv) key) = false) kvs ->
     exists e kv,
       In kv kvs /\ secconfDecode (KV.Value kv) key = Err e /\
       TemplateFunc.Cgets secconfDecode
         (fst (TemplateFunc.NewTemplateFuncMap secconfDecode store key)) pattern
       = TemplateFunc.Returns (None, Some e))
  /\
  (forall vs,
     TemplateFunc.storeGetAllValues store pattern = (Some vs, None) ->
     Exists (fun v => isOk (secconfDecode v key) = false) vs ->
     exists e v,
       In v vs /\ secconfDecode v key = Err e /\
       TemplateFunc.Cgetvs secconfDecode
         (fst (TemplateFunc.NewTemplateFuncMap secconfDecode store key)) pattern
       = TemplateFunc.Returns (None, Some e)).
Proof.
  destruct (crypt_funcs_see_same_plain secconfDecode store key pattern)
    as (_ & Hs & _ & Hvs).
  destruct (crypt_funcs_delegate secconfDecode store key pattern)
    as (_ & Ds & _ & Dvs).
  cbv zeta in *. split.
  - intros kvs Hget HE. rewrite Hs, Ds, Hget.
    destruct (decodeEach_first_failure
                (CryptSpec.decodePair secconfDecode key) kvs) as (e & kv & Hin & Hd & ->).
    { eapply Exists_impl; [exact HE|]. intros kv. cbn.
      unfold CryptSpec.decodePair.
      destruct (secconfDecode (KV.Value kv) key); auto. }
    exists e, kv. repeat split; auto.
    unfold CryptSpec.decodePair in Hd.
    destruct (secconfDecode (KV.Value kv) key); congruence.
  - intros vs Hget HE. rewrite Hvs, Dvs, Hget.
    destruct (decodeEach_first_failure
                (CryptSpec.decodeValue secconfDecode key) vs) as (e & v & Hin & Hd & ->).
    { exact HE. }
    exists e, v. repeat split; auto.
Qed.

Lemma crypt_lists_nil_on_failure_witness :
  exists e kv,
    In kv CryptExamples.pairs /\
    CryptExamples.decoder (KV.Value kv) "key" = Err e /\
    TemplateFunc.Cgets CryptExamples.decoder
      (fst (TemplateFunc.NewTemplateFuncMap CryptExamples.decoder
              CryptExamples.queries "key")) "/db/*"
    = TemplateFunc.Returns (None, Some e).
Proof.
  apply (proj1 (crypt_lists_nil_on_failure CryptExamples.decoder
                  CryptExamples.queries "key" "/db/*")
           CryptExamples.pairs eq_refl).
  apply Exists_cons_tl, Exists_cons_hd. reflexivity.
Defined.

Lemma crypt_names_unbound_without_key
  (secconfDecode : string -> string -> Result string)
  (store : TemplateFunc.KVStoreQueries) (name : string) :
  In name CryptSpec.cryptNames ->
  snd (TemplateFunc.NewTemplateFuncMap secconfDecode store "") !! name = None
  /\ ~ name ∈ TemplateFunc.builtins.
Proof.
  intros Hin. cbn in Hin.
  destruct Hin as [<-|[<-|[<-|[<-|[]]]]];
    (split; [vm_compute; reflexivity
           | rewrite list_elem_of_In; cbn; intuition discriminate]).
Qed.

(** C8.  The function map binds cget, cgets, cgetv and cgetvs exactly when
    the PGP private key is not empty.  Without a key, a template that
    refers to one of them fails to parse with a function that is not
    defined.  With a key, each is bound to a function that calls its plain
    counterpart and decodes the value part of what that returned; an error
    of the counterpart or of the decoder is returned as the error. *)
Theorem crypt_funcs_iff_key
  (secconfDecode : string -> string -> Result string)
  (store : TemplateFunc.KVStoreQueries) (key : string) :
  (forall name, In name CryptSpec.cryptNames ->
     (is_Some (snd (TemplateFunc.NewTemplateFuncMap secconfDecode store key) !! name)
      <-> key <> ""))
  /\
  (key = "" ->
   forall idents name,
     In name CryptSpec.cryptNames -> In name idents ->
     exists f,
       In f idents /\
       TemplateFunc.parseIdents
         (snd (TemplateFunc.NewTemplateFuncMap secconfDecode store key)) idents
       = Some ("function " +:+ TemplateFunc.quote +:+ f +:+ TemplateFunc.quote
               +:+ " not defined"))
  /\
  (key <> "" ->
   exists fget fgets fgetv fgetvs,
     snd (TemplateFunc.NewTemplateFuncMap secconfDecode store key) !! "cget"
     = Some (TemplateFunc.FnKV fget)
     /\ snd (TemplateFunc.NewTemplateFuncMap secconfDecode store key) !! "cgets"
        = Some (TemplateFunc.FnKVs fgets)
     /\ snd (TemplateFunc.NewTemplateFuncMap secconfDecode store key) !! "cgetv"
        = Some (TemplateFunc.FnStr fgetv)
     /\ snd (TemplateFunc.NewTemplateFuncMap secconfDecode store key) !! "cgetvs"
        = Some (TemplateFunc.FnVals fgetvs)
     /\ forall arg,
          fget arg = TemplateFunc.Returns (CryptSpec.cget secconfDecode store key arg)
          /\ fgets arg = TemplateFunc.Returns (CryptSpec.cgets secconfDecode store key arg)
          /\ fgetv arg = TemplateFunc.Returns (CryptSpec.cgetv secconfDecode store key arg)
          /\ fgetvs arg = TemplateFunc.Returns (CryptSpec.cgetvs secconfDecode store key arg)).
Proof.
  split; [|split].
  - intros name Hin. destruct key as [|c key].
    + destruct (crypt_names_unbound_without_key secconfDecode store name Hin)
        as [-> _].
      split; [intros [? ?]; discriminate | intros H; now destruct H].
    + split; [discriminate|]. intros _. cbn in Hin.
      destruct Hin as [<-|[<-|[<-|[<-|[]]]]]; eexists; reflexivity.
  - intros -> idents name Hname Hin.
    destruct (crypt_names_unbound_without_key secconfDecode store name Hname)
      as [Hm Hb].
    unfold TemplateFunc.parseIdents.
    destruct (List.find _ idents) as [f|] eqn:Hf.
    + apply List.find_some in Hf as [Hf _]. eauto.
    + apply (List.find_none _ _ Hf) in Hin. rewrite Hm in Hin.
      rewrite bool_decide_eq_false_2 in Hin by (intros [? ?]; discriminate).
      rewrite (bool_decide_eq_false_2 _ Hb) in Hin. discriminate.
  - intros Hk. destruct key as [|c key]; [now destruct Hk|].
    do 4 eexists. repeat (split; [reflexivity|]).
    intros arg.
    exact (crypt_funcs_delegate secconfDecode store (String c key) arg).
Qed.

Lemma crypt_funcs_iff_key_witness :
  exists f,
    In f ["getv"; "cgetv"] /\
    TemplateFunc.parseIdents
      (snd (TemplateFunc.NewTemplateFuncMap CryptExamples.decoder
              CryptExamples.queries "")) ["getv"; "cgetv"]
    = Some ("function " +:+ TemplateFunc.quote +:+ f +:+ TemplateFunc.quote
            +:+ " not defined").
Proof.
  apply (proj1 (proj2 (crypt_funcs_iff_key CryptExamples.decoder
                         CryptExamples.queries "")) eq_refl
           ["getv"; "cgetv"] "cgetv").
  - right. right. left. reflexivity.
  - right. left. reflexivity.
Defined.

(** The sixth scenario of the specification: with a key, [cgetv] yields
    the plaintext; without one, parsing the template fails. *)
Example cgetv_with_key :
  TemplateFunc.Cgetv CryptExamples.decoder
    (fst (TemplateFunc.NewTemplateFuncMap CryptExamples.decoder
            CryptExamples.queries "key")) "/db/pw"
  = TemplateFunc.Returns ("secret", None).
Proof. vm_compute. reflexivity. Qed.

Example cgetv_without_key :
  TemplateFunc.parseIdents
    (snd (TemplateFunc.NewTemplateFuncMap CryptExamples.decoder
            CryptExamples.queries "")) ["cgetv"]
  = Some ("function " +:+ TemplateFunc.quote +:+ "cgetv" +:+ TemplateFunc.quote
          +:+ " not defined").
Proof. vm_compute. reflexivity. Qed.

(** ** sync: the check command, noop mode and the stage file *)

Section SyncFacts.

Import Resource.

Variable E : Env.

Lemma eqb_empty_false (s : string) : s <> "" -> String.eqb s "" = false.
Proof. intros H. now apply String.eqb_neq. Qed.

Lemma files_osRemove_ne (p q : string) (w : World) :
  p <> q -> files (osRemove p w) !! q = files w !! q.
Proof. intros H. cbn. now apply lookup_delete_ne. Qed.

Lemma files_osRemove_eq (p : string) (w : World) :
  files (osRemove p w) !! p = None.
Proof. cbn. apply lookup_delete_eq. Qed.

(** C1.  Take a resource with noop and sync-only off and a check command
    set, whose rendered check command exits with a non-zero status.  Then
    sync leaves dest as it was.  The check command runs when the staged
    file and dest differ; sync then returns the error "Config check
    failed: ..." and asks nothing more of the system than running the
    command and (unless the stage file is kept) removing the stage file:
    no rename and no write follows.  When the files agree no command is
    run and nothing is written.  So whenever a command has run, sync
    returns the error. *)
Theorem sync_check_failed
  (t : TemplateResource) (w : World) (staged cmd e : string) :
  noop t = false -> syncOnly t = false -> CheckCmd t <> "" ->
  StageFile t = Some staged -> staged <> Dest t ->
  renderCheckCmd E (CheckCmd t) staged = Ok cmd ->
  shell E cmd (files w) = Some e ->
  files (snd (sync E t w)) !! Dest t = files w !! Dest t
  /\ (if fst (sameConfig E staged (Dest t) (files w))
      then fst (sync E t w) = None
           /\ events (snd (sync E t w))
              = events w ++ (if keepStageFile t then [] else [EvRemove staged])
      else fst (sync E t w) = Some ("Config check failed: " +:+ e)
           /\ events (snd (sync E t w))
              = events w ++ [EvRun cmd (Some e)]
                  ++ (if keepStageFile t then [] else [EvRemove staged]))
  /\ (forall c r,
        In (EvRun c r) (events (snd (sync E t w))) ->
        ~ In (EvRun c r) (events w) ->
        fst (sync E t w) = Some ("Config check failed: " +:+ e)).
Proof.
  intros Hnoop Hso Hcc Hst Hne Hrender Hexit.
  unfold sync, syncBody. rewrite Hst, Hnoop.
  destruct (sameConfig E staged (Dest t) (files w)) as [ok err].
  cbn [fst]. destruct ok; cbn [negb].
  - destruct (keepStageFile t); cbn [fst snd].
    + rewrite app_nil_r. repeat split; auto. intros c r H1 H2. contradiction.
    + rewrite files_osRemove_ne by exact Hne. repeat split; auto.
      intros c r H1 H2. cbn in H1. apply in_app_or in H1 as [H1|[H1|[]]];
        [contradiction | discriminate].
  - rewrite Hso, (eqb_empty_false _ Hcc). cbn [negb andb].
    unfold check. rewrite Hst, Hrender. unfold runCommand. rewrite Hexit.
    destruct (keepStageFile t); cbn [fst snd].
    + rewrite app_nil_r. auto.
    + rewrite files_osRemove_ne by exact Hne. cbn.
      rewrite <- app_assoc. auto.
Qed.

(** C5.  With noop set, sync returns nil; of the file system it changes
    nothing except that it removes the stage file (unless that is kept), so
    dest is neither created nor modified, whatever the comparison said and
    whatever the check and reload commands are; no command is run. *)
Theorem sync_noop (t : TemplateResource) (w : World) (staged : string) :
  noop t = true -> StageFile t = Some staged -> staged <> Dest t ->
  fst (sync E t w) = None
  /\ files (snd (sync E t w))
     = (if keepStageFile t then files w else delete staged (files w))
  /\ files (snd (sync E t w)) !! Dest t = files w !! Dest t
  /\ events (snd (sync E t w))
     = events w ++ (if keepStageFile t then [] else [EvRemove staged]).
Proof.
  intros Hnoop Hst Hne.
  unfold sync, syncBody. rewrite Hst, Hnoop.
  destruct (sameConfig E staged (Dest t) (files w)) as [ok err].
  destruct (keepStageFile t); cbn [fst snd].
  - rewrite app_nil_r. auto.
  - rewrite files_osRemove_ne by exact Hne. auto.
Qed.

End SyncFacts.

Lemma sync_check_failed_witness :
  Resource.files
    (snd (Resource.sync (Examples.env [] "port=-1" ["false"] None)
            (Examples.resource "" "false" false false false
               (Some "/etc/.app.conf000")) Examples.staged))
    !! "/etc/app.conf"
  = Resource.files Examples.staged !! "/etc/app.conf"
  /\ fst (Resource.sync (Examples.env [] "port=-1" ["false"] None)
            (Examples.resource "" "false" false false false
               (Some "/etc/.app.conf000")) Examples.staged)
     = Some ("Config check failed: " +:+ "exit status 1")
  /\ Resource.events
       (snd (Resource.sync (Examples.env [] "port=-1" ["false"] None)
               (Examples.resource "" "false" false false false
                  (Some "/etc/.app.conf000")) Examples.staged))
     = [] ++ [Resource.EvRun "false" (Some "exit status 1")]
          ++ [Resource.EvRemove "/etc/.app.conf000"].
Proof.
  destruct (sync_check_failed (Examples.env [] "port=-1" ["false"] None)
              (Examples.resource "" "false" false false false
                 (Some "/etc/.app.conf000")) Examples.staged
              "/etc/.app.conf000" "false" "exit status 1"
              eq_refl eq_refl ltac:(discriminate) eq_refl ltac:(discriminate)
              eq_refl eq_refl) as (H1 & H2 & _).
  exact (conj H1 H2).
Defined.

Lemma sync_noop_witness :
  fst (Resource.sync (Examples.env [] "port=-1" [] None)
         (Examples.resource "" "false" false true false
            (Some "/etc/.app.conf000")) Examples.staged) = None
  /\ Resource.files
       (snd (Resource.sync (Examples.env [] "port=-1" [] None)
               (Examples.resource "" "false" false true false
                  (Some "/etc/.app.conf000")) Examples.staged))
     = delete "/etc/.app.conf000" (Resource.files Examples.staged)
  /\ Resource.files
       (snd (Resource.sync (Examples.env [] "port=-1" [] None)
               (Examples.resource "" "false" false true false
                  (Some "/etc/.app.conf000")) Examples.staged))
       !! "/etc/app.conf"
     = Resource.files Examples.staged !! "/etc/app.conf"
  /\ Resource.events
       (snd (Resource.sync (Examples.env [] "port=-1" [] None)
               (Examples.resource "" "false" false true false
                  (Some "/etc/.app.conf000")) Examples.staged))
     = [] ++ [Resource.EvRemove "/etc/.app.conf000"].
Proof.
  exact (sync_noop (Examples.env [] "port=-1" [] None)
           (Examples.resource "" "false" false true false
              (Some "/etc/.app.conf000")) Examples.staged
           "/etc/.app.conf000" eq_refl eq_refl ltac:(discriminate)).
Defined.

(** ** The scenarios of the specification, run on the model *)

(** Fresh deploy: dest is missing; afterwards it holds the rendered bytes
    with mode 0644 and the stage file is gone. *)
Example scenario_fresh_deploy :
  Resource.process (Examples.env [("/app/port", "8080")] "port=8080" [] None)
    (Examples.resource "" "" false false false None)
    {| Resource.files := delete "/etc/app.conf" (Resource.files Examples.deployed);
       Resource.events := [] |}
  = (None,
     Resource.setStageFileField (Some "/etc/.app.conf000")
       (Resource.setStoreField {[ "/port" := "8080" ]}
          (Examples.resource "" "" false false false None)),
     {| Resource.files := Resource.files Examples.deployed;
        Resource.events :=
          [Resource.EvTempFile "/etc/.app.conf000";
           Resource.EvChmod "/etc/.app.conf000" 420;
           Resource.EvChown "/etc/.app.conf000" 0 0;
           Resource.EvRename "/etc/.app.conf000" "/etc/app.conf" None;
           Resource.EvRemove "/etc/.app.conf000"] |}).
Proof. vm_compute. reflexivity. Qed.

(** An unchanged render does not rename. *)
Example scenario_unchanged :
  Resource.events
    (snd (Resource.process (Examples.env [("/app/port", "8080")] "port=8080" [] None)
            (Examples.resource "" "" false false false None) Examples.deployed))
  = [Resource.EvTempFile "/etc/.app.conf000";
     Resource.EvChmod "/etc/.app.conf000" 420;
     Resource.EvChown "/etc/.app.conf000" 0 0;
     Resource.EvRemove "/etc/.app.conf000"].
Proof. vm_compute. reflexivity. Qed.

(** A failed check leaves dest as it was and removes the stage file. *)
Example scenario_check_failure :
  fst (fst (Resource.process
              (Examples.env [("/app/port", "-1")] "port=-1" ["false"] None)
              (Examples.resource "" "false" false false false None)
              Examples.deployed))
  = Some "Config check failed: exit status 1"
  /\ Resource.files
       (snd (Resource.process
               (Examples.env [("/app/port", "-1")] "port=-1" ["false"] None)
               (Examples.resource "" "false" false false false None)
               Examples.deployed))
     = Resource.files Examples.deployed.
Proof. split; vm_compute; reflexivity. Qed.

(** Noop mode: dest is unchanged and the stage file removed. *)
Example scenario_noop :
  fst (fst (Resource.process
              (Examples.env [("/app/port", "9090")] "port=9090" [] None)
              (Examples.resource "" "false" false true false None)
              Examples.deployed))
  = None
  /\ Resource.files
       (snd (Resource.process
               (Examples.env [("/app/port", "9090")] "port=9090" [] None)
               (Examples.resource "" "false" false true false None)
               Examples.deployed))
     = Resource.files Examples.deployed.
Proof. split; vm_compute; reflexivity. Qed.

(** A busy destination: the rename fails, dest is written in place and
    keeps its old mode; the stage file is removed afterwards. *)
Example scenario_busy_destination :
  Resource.events
    (snd (Resource.process
            (Examples.env [("/app/port", "9090")] "port=9090" []
               (Some "rename: device or resource busy"))
            (Examples.resource "" "" false false false None) Examples.deployed))
  = [Resource.EvTempFile "/etc/.app.conf000";
     Resource.EvChmod "/etc/.app.conf000" 420;
     Resource.EvChown "/etc/.app.conf000" 0 0;
     Resource.EvRename "/etc/.app.conf000" "/etc/app.conf"
       (Some "rename: device or resource busy");
     Resource.EvReadFile "/etc/.app.conf000";
     Resource.EvWriteFile "/etc/app.conf" None;
     Resource.EvChown "/etc/app.conf" 0 0;
     Resource.EvRemove "/etc/.app.conf000"]
  /\ Resource.files
       (snd (Resource.process
               (Examples.env [("/app/port", "9090")] "port=9090" []
                  (Some "rename: device or resource busy"))
               (Examples.resource "" "" false false false None) Examples.deployed))
       !! "/etc/app.conf"
     = Some (Examples.file "port=9090").
Proof. split; vm_compute; reflexivity. Qed.

(** X6.  Before [sync] runs, the render has not touched any file but the stage
    file: [createStageFile] leaves every path alone that [TempFile] does
    not hand out. *)
Lemma createStageFile_frame
  (E : Resource.Env) (t : Resource.TemplateResource) (w : Resource.World)
  (p : string) :
  (forall dir prefix fs, Resource.tempFile E dir prefix fs <> Ok p) ->
  Resource.files (snd (Resource.createStageFile E t w)) !! p
  = Resource.files w !! p.
Proof.
  intros Hp. unfold Resource.createStageFile.
  destruct (negb (Resource.isFileExist (Resource.Src t) (Resource.files w)));
    [reflexivity|].
  destruct (Resource.parseFiles E _ _ _); [reflexivity|].
  destruct (Resource.tempFile E _ _ _) as [temp|] eqn:Ht; [|reflexivity].
  assert (Hne : temp <> p) by (intros ->; exact (Hp _ _ _ Ht)).
  destruct (Resource.execute E _ _ _); cbn [snd].
  - rewrite files_osChown_ne, files_osChmod_ne by exact Hne. cbn.
    rewrite !lookup_insert_ne by exact Hne. reflexivity.
  - cbn. rewrite lookup_delete_ne, lookup_insert_ne by exact Hne. reflexivity.
Qed.

(** ** The stage file after a render *)


Section StageFacts.

Import Resource.

Variable E : Env.



End StageFacts.


(** ** setVars: the snapshot after a pull *)

Section PathFacts.

Import GoPath SnapshotSpec.

Lemma splitSlash_not_nil (s : string) : splitSlash s <> [].
Proof.
  induction s as [|c s IH]; cbn; [discriminate|].
  destruct (Ascii.eqb c slash); [discriminate|].
  destruct (splitSlash s); [contradiction | discriminate].
Qed.

Lemma splitSlash_noSlash (s : string) :
  Forall (fun c => noSlash c = true) (splitSlash s).
Proof.
  induction s as [|c s IH]; cbn.
  - repeat constructor.
  - destruct (Ascii.eqb c slash) eqn:Hc.
    + constructor; [reflexivity | exact IH].
    + destruct (splitSlash s) as [|x xs]; [repeat constructor; cbn; now rewrite Hc|].
      inversion IH; subst. constructor; [cbn; now rewrite Hc | assumption].
Qed.

Lemma splitSlash_single (a : string) : noSlash a = true -> splitSlash a = [a].
Proof.
  induction a as [|c a IH]; cbn [splitSlash noSlash]; [reflexivity|].
  intros H. apply andb_true_iff in H as [Hc Ha].
  apply negb_true_iff in Hc. rewrite Hc, (IH Ha). reflexivity.
Qed.

Lemma splitSlash_cons (a s : string) :
  noSlash a = true -> splitSlash (a +:+ "/" +:+ s) = a :: splitSlash s.
Proof.
  induction a as [|c a IH]; [reflexivity|].
  change (String c a +:+ "/" +:+ s) with (String c (a +:+ "/" +:+ s)).
  cbn [splitSlash noSlash].
  intros H. apply andb_true_iff in H as [Hc Ha].
  apply negb_true_iff in Hc. rewrite Hc, (IH Ha). reflexivity.
Qed.

Lemma splitSlash_joinSlash (cs : list string) :
  Forall (fun c => noSlash c = true) cs -> cs <> [] ->
  splitSlash (joinSlash cs) = cs.
Proof.
  induction cs as [|a cs IH]; [contradiction|].
  intros HF _. inversion HF as [|? ? Ha Hcs]; subst.
  destruct cs as [|b cs].
  - cbn. now apply splitSlash_single.
  - change (joinSlash (a :: b :: cs)) with (a +:+ "/" +:+ joinSlash (b :: cs)).
    rewrite splitSlash_cons by exact Ha.
    rewrite IH; [reflexivity | exact Hcs | discriminate].
Qed.

(** The elements [Clean] keeps are non-empty and free of slashes. *)
Lemma cleanStep_keeps (rooted : bool) (stack : list string) (c : string) :
  noSlash c = true ->
  Forall (fun x => noSlash x = true /\ KV.nonEmpty x = true) stack ->
  Forall (fun x => noSlash x = true /\ KV.nonEmpty x = true)
    (cleanStep rooted stack c).
Proof.
  intros Hc Hs. unfold cleanStep.
  destruct (String.eqb c "") eqn:He; [exact Hs|].
  assert (Hne : KV.nonEmpty c = true) by (unfold KV.nonEmpty; now rewrite He).
  destruct (String.eqb c "."); [exact Hs|].
  destruct (String.eqb c "..").
  - destruct stack as [|top rest].
    + destruct rooted; repeat constructor; assumption.
    + destruct (String.eqb top "..").
      * constructor; [split|]; assumption.
      * now inversion Hs.
  - constructor; [split|]; assumption.
Qed.

Lemma cleanElems_keeps (rooted : bool) (cs : list string) :
  Forall (fun c => noSlash c = true) cs ->
  Forall (fun x => noSlash x = true /\ KV.nonEmpty x = true)
    (cleanElems rooted cs).
Proof.
  intros Hcs. unfold cleanElems. apply Forall_rev.
  assert (Hgen : forall stack,
            Forall (fun x => noSlash x = true /\ KV.nonEmpty x = true) stack ->
            Forall (fun x => noSlash x = true /\ KV.nonEmpty x = true)
              (fold_left (cleanStep rooted) cs stack)).
  { induction Hcs as [|c cs Hc Hcs IH]; intros stack Hs; cbn; [exact Hs|].
    apply IH. now apply cleanStep_keeps. }
  apply Hgen. constructor.
Qed.

(** A key made by [path.Join("/", x)] is already normalized. *)
Lemma normalize_Join_root (x : string) :
  KV.normalize (Join ["/"; x]) = Join ["/"; x].
Proof.
  cbn [Join]. change (String.eqb "/" "") with false. cbv iota.
  unfold Clean.
  change (joinSlash ["/"; x]) with ("/" +:+ "/" +:+ x).
  change (String.eqb ("/" +:+ "/" +:+ x) "") with false.
  change (isRooted ("/" +:+ "/" +:+ x)) with true. cbv iota zeta.
  set (cs := cleanElems true (splitSlash ("/" +:+ "/" +:+ x))).
  assert (Hcs : Forall (fun c => noSlash c = true /\ KV.nonEmpty c = true) cs).
  { apply cleanElems_keeps, splitSlash_noSlash. }
  unfold KV.normalize. f_equal.
  change (splitSlash ("/" +:+ joinSlash cs))
    with (EmptyString :: splitSlash (joinSlash cs)).
  cbn [List.filter]. change (KV.nonEmpty "") with false. cbv iota.
  destruct cs as [|c cs']; [reflexivity|].
  rewrite splitSlash_joinSlash; [| |discriminate].
  - f_equal. clear -Hcs. induction Hcs as [|y ys [_ Hy] _ IH]; [reflexivity|].
    cbn [List.filter]. rewrite Hy. now f_equal.
  - eapply Forall_impl; [exact Hcs|]. now intros y [Hy _].
Qed.

End PathFacts.

Lemma prefix_app (p s : string) : String.prefix p (p +:+ s) = true.
Proof.
  induction p as [|c p IH]; [now destruct s|].
  change (String c p +:+ s) with (String c (p +:+ s)). cbn [String.prefix].
  destruct (Ascii.ascii_dec c c); [exact IH | contradiction].
Qed.

Lemma substring_all (s : string) : String.substring 0 (String.length s) s = s.
Proof. induction s as [|c s IH]; cbn; [reflexivity | now rewrite IH]. Qed.

Lemma TrimPrefix_append (p s : string) : GoStrings.TrimPrefix (p +:+ s) p = s.
Proof.
  unfold GoStrings.TrimPrefix, GoStrings.HasPrefix. rewrite prefix_app.
  induction p as [|c p IH].
  - change (EmptyString +:+ s) with s. cbn [String.length].
    rewrite Nat.sub_0_r. apply substring_all.
  - change (String c p +:+ s) with (String c (p +:+ s)).
    cbn [String.length String.substring Nat.sub]. exact IH.
Qed.

Section SetVarsFacts.

Variable prefix : string.

(** The key under which [setVars] stores the value of the returned key [k]. *)
Local Abbreviation newKey k := (GoPath.Join ["/"; GoStrings.TrimPrefix k prefix]).

Local Abbreviation fill result :=
  (fold_left
     (fun st kv =>
        KV.Set_ (GoPath.Join ["/"; GoStrings.TrimPrefix (fst kv) prefix])
                (snd kv) st)
     result KV.Purge).

Lemma fill_snoc (result : list (string * string)) (k v : string) :
  fill (result ++ [(k, v)]) = <[newKey k := v]> (fill result).
Proof.
  rewrite fold_left_app. cbn [fold_left fst snd]. unfold KV.Set_.
  now rewrite normalize_Join_root.
Qed.

Lemma fill_sound (result : list (string * string)) (K v : string) :
  fill result !! K = Some v -> exists k, In (k, v) result /\ K = newKey k.
Proof.
  induction result as [|[k' v'] result IH] using rev_ind.
  - cbn. unfold KV.Purge. rewrite lookup_empty. discriminate.
  - rewrite fill_snoc. destruct (decide (newKey k' = K)) as [<-|Hne].
    + rewrite lookup_insert_eq. intros [= <-]. exists k'.
      split; [apply in_or_app; right; now left | reflexivity].
    + rewrite lookup_insert_ne by exact Hne. intros H.
      destruct (IH H) as (k & Hin & ->). exists k.
      split; [apply in_or_app; now left | reflexivity].
Qed.

Lemma fill_present (result : list (string * string)) (k v : string) :
  In (k, v) result -> is_Some (fill result !! newKey k).
Proof.
  induction result as [|[k' v'] result IH] using rev_ind; [intros []|].
  rewrite fill_snoc. intros Hin.
  destruct (decide (newKey k' = newKey k)) as [->|Hne].
  - rewrite lookup_insert_eq. eauto.
  - rewrite lookup_insert_ne by exact Hne. apply IH.
    apply in_app_or in Hin as [Hin|[[= -> ->]|[]]]; [exact Hin | contradiction].
Qed.

Lemma fill_complete (result : list (string * string)) (k v : string) :
  SnapshotSpec.collisionFree prefix result ->
  In (k, v) result -> fill result !! newKey k = Some v.
Proof.
  induction result as [|[k' v'] result IH] using rev_ind; [intros _ []|].
  intros Hfree Hin. rewrite fill_snoc.
  destruct (decide (newKey k' = newKey k)) as [Heq|Hne].
  - rewrite Heq, lookup_insert_eq. f_equal.
    apply (Hfree k' v' k v); [apply in_or_app; right; now left | exact Hin | exact Heq].
  - rewrite lookup_insert_ne by exact Hne. apply IH.
    + intros k1 v1 k2 v2 H1 H2. apply Hfree; apply in_or_app; now left.
    + apply in_app_or in Hin as [Hin|[[= -> ->]|[]]]; [exact Hin | contradiction].
Qed.

End SetVarsFacts.

Lemma Get_Ok_iff (K v : string) (st : gmap string string) :
  KV.Get K st = Ok {| KV.Key := K; KV.Value := v |} <-> st !! K = Some v.
Proof.
  unfold KV.Get. destruct (st !! K) as [v'|]; split; intros H;
    try discriminate; congruence.
Qed.

(** C2, as the claim states it, fails.  Read to the letter, a returned key
    [/app/port] under the prefix [/app] is stored as [/port] and not as
    [//port].  Read with the stored key made by [path.Join], two returned
    keys that are joined to the same key overwrite each other, so that a
    returned pair is missing from the snapshot. *)
Lemma setVars_snapshot_not_as_claimed :
  ~ SnapshotSpec.asWritten "/app" [("/app/port", "8080")]
      (Resource.store
         (snd (Resource.setVars
                 (Examples.env [("/app/port", "8080")] "" [] None)
                 (Examples.resource "" "" false false false None))))
  /\
  ~ SnapshotSpec.asJoined "/app" [("/app/a", "1"); ("/app//a", "2")]
      (Resource.store
         (snd (Resource.setVars
                 (Examples.env [("/app/a", "1"); ("/app//a", "2")] "" [] None)
                 (Examples.resource "" "" false false false None)))).
Proof.
  split.
  - intros H. destruct (H "/port" "8080") as [_ H2].
    specialize (H2 (or_introl eq_refl)). vm_compute in H2. discriminate.
  - intros H. destruct (H "/a" "1") as [_ H2].
    specialize (H2 (or_introl eq_refl)). vm_compute in H2. discriminate.
Qed.

(** C2, amended.  After a successful setVars with prefix P and backend
    result R, the snapshot holds only what this pull stored: a key is
    present exactly when it is path.Join("/", TrimPrefix(k, P)) for a
    returned key k, and its value is that of such a returned pair.  When no
    two returned pairs with different values are joined to the same key,
    get(K) returns v iff the backend returned some (k, v) with
    K = path.Join("/", TrimPrefix(k, P)); in particular a returned pair
    (P + s, v) is found under path.Join("/", s). *)
Theorem setVars_snapshot
  (E : Resource.Env) (t : Resource.TemplateResource)
  (result : list (string * string)) :
  Resource.GetValues E (Resource.appendPrefix (Resource.Prefix t) (Resource.Keys t))
  = Ok result ->
  fst (Resource.setVars E t) = None
  /\ (forall K v,
        Resource.store (snd (Resource.setVars E t)) !! K = Some v ->
        exists k, In (k, v) result
                  /\ K = GoPath.Join ["/"; GoStrings.TrimPrefix k (Resource.Prefix t)])
  /\ (forall k v,
        In (k, v) result ->
        is_Some (Resource.store (snd (Resource.setVars E t))
                   !! GoPath.Join ["/"; GoStrings.TrimPrefix k (Resource.Prefix t)]))
  /\ (SnapshotSpec.collisionFree (Resource.Prefix t) result ->
      (forall K v,
         KV.Get K (Resource.store (snd (Resource.setVars E t)))
         = Ok {| KV.Key := K; KV.Value := v |}
         <-> exists k, In (k, v) result
                       /\ K = GoPath.Join ["/"; GoStrings.TrimPrefix k (Resource.Prefix t)])
      /\ (forall s v,
            In (Resource.Prefix t +:+ s, v) result ->
            KV.Get (GoPath.Join ["/"; s]) (Resource.store (snd (Resource.setVars E t)))
            = Ok {| KV.Key := GoPath.Join ["/"; s]; KV.Value := v |})).
Proof.
  intros Hget. unfold Resource.setVars. rewrite Hget. cbn [fst snd Resource.store].
  split; [reflexivity|]. split; [|split].
  - intros K v. apply fill_sound.
  - intros k v. apply fill_present.
  - intros Hfree. split.
    + intros K v. rewrite Get_Ok_iff. split.
      * apply fill_sound.
      * intros (k & Hin & ->). now apply fill_complete.
    + intros s v Hin. rewrite Get_Ok_iff.
      rewrite <- (TrimPrefix_append (Resource.Prefix t) s) at 1.
      now apply fill_complete.
Qed.

Lemma setVars_snapshot_witness :
  fst (Resource.setVars (Examples.env [("/app/port", "8080")] "" [] None)
         (Examples.resource "" "" false false false None)) = None
  /\ Resource.store
       (snd (Resource.setVars (Examples.env [("/app/port", "8080")] "" [] None)
               (Examples.resource "" "" false false false None)))
       !! "/port" = Some "8080".
Proof.
  destruct (setVars_snapshot (Examples.env [("/app/port", "8080")] "" [] None)
              (Examples.resource "" "" false false false None)
              [("/app/port", "8080")] eq_refl) as (H1 & _ & _ & H4).
  split; [exact H1|].
  apply Get_Ok_iff.
  apply (proj2 (H4 ltac:(intros k1 v1 k2 v2 [[= <- <-]|[]] [[= <- <-]|[]] _;
                          reflexivity))
           "/port" "8080").
  left. reflexivity.
Defined.

(** ** sync: the remaining paths *)

Section SyncPaths.

Import Resource.

Variable E : Env.

(** The check step of [sync] as one value. *)
Local Abbreviation checkStep t w :=
  (if negb (syncOnly t) && negb (String.eqb (CheckCmd t) "")
   then check E t w else (None, w)).

Import SyncSpec.

Lemma checkStep_passes (t : TemplateResource) (staged : string) (w : World) :
  StageFile t = Some staged -> checkPasses E t staged w ->
  exists w1, checkStep t w = (None, w1) /\ files w1 = files w.
Proof.
  intros Hst [Hso|[Hcc|(cmd & Hr & Hs)]].
  - rewrite Hso. cbn. eauto.
  - rewrite Hcc. cbn. rewrite andb_false_r. eauto.
  - destruct (negb (syncOnly t) && negb (String.eqb (CheckCmd t) "")); [|eauto].
    unfold check, runCommand. rewrite Hst, Hr, Hs. eauto.
Qed.

Lemma syncReload_files (t : TemplateResource) (w : World) :
  files (snd (syncReload E t w)) = files w.
Proof.
  unfold syncReload, reload, runCommand.
  destruct (negb (syncOnly t) && negb (String.eqb (ReloadCmd t) ""));
    [|reflexivity].
  destruct (shell E (ReloadCmd t) (files w)); reflexivity.
Qed.

Lemma syncReload_result (t : TemplateResource) (w : World) :
  fst (syncReload E t w)
  = if negb (syncOnly t) && negb (String.eqb (ReloadCmd t) "")
    then shell E (ReloadCmd t) (files w) else None.
Proof.
  unfold syncReload, reload, runCommand.
  destruct (negb (syncOnly t) && negb (String.eqb (ReloadCmd t) ""));
    [|reflexivity].
  destruct (shell E (ReloadCmd t) (files w)); reflexivity.
Qed.

(** X1.  An unchanged render writes nothing: when the comparison reports
    that the staged file and dest agree, sync returns nil, runs no command
    and renames nothing; all it does is remove the stage file, unless that
    is kept. *)
Theorem sync_unchanged_is_noop
  (t : TemplateResource) (w : World) (staged : string) :
  StageFile t = Some staged ->
  fst (sameConfig E staged (Dest t) (files w)) = true ->
  sync E t w = (None, if keepStageFile t then w else osRemove staged w).
Proof.
  intros Hst Hok. unfold sync, syncBody. rewrite Hst.
  destruct (sameConfig E staged (Dest t) (files w)) as [ok err].
  cbn in Hok. subst ok. cbn [negb].
  destruct (noop t), (keepStageFile t); reflexivity.
Qed.

(** X2.  In sync-only mode sync runs no command at all, whatever the check
    and reload commands are and whichever path it takes. *)
Theorem sync_only_runs_no_command
  (t : TemplateResource) (w : World) (c : string) (r : error) :
  syncOnly t = true ->
  In (EvRun c r) (events (snd (sync E t w))) -> In (EvRun c r) (events w).
Proof.
  intros Hso. unfold sync.
  destruct (StageFile t) as [staged|]; [|auto].
  assert (Hbody : In (EvRun c r) (events (snd (syncBody E t staged w))) ->
                  In (EvRun c r) (events w)).
  { unfold syncBody, syncReload, osRename, ioutilReadFile, ioutilWriteFile.
    rewrite Hso. cbn [negb andb].
    destruct (sameConfig E staged (Dest t) (files w)) as [ok err].
    destruct (noop t); [auto|]. destruct ok; [auto|]. cbn [negb].
    destruct (files w !! staged) as [f|];
      [destruct (renameFails E staged (Dest t) (files w)) as [e|];
       [destruct (GoStrings.Contains e busy);
        [cbn [files emit]; destruct (files w !! staged);
         [destruct (readFails E staged (files w));
          [|cbn [files emit]; destruct (writeFails E (Dest t) (files w))]|]|]|]|];
      cbn [snd]; rewrite ?events_osChown; cbn; rewrite ?in_app_iff; cbn;
      intuition discriminate. }
  destruct (syncBody E t staged w) as [e w'].
  destruct (keepStageFile t); cbn in *; [exact Hbody|].
  rewrite in_app_iff. cbn. intuition discriminate.
Qed.

(** X3.  The swap: when the files differ, the check passes or is skipped
    and the rename succeeds, dest is the staged file (bytes, mode and
    owner) and the stage path is gone.  What sync returns is the result of
    the reload command, so a failed reload leaves dest already replaced. *)
Theorem sync_swap
  (t : TemplateResource) (w : World) (staged : string) (f : File) :
  noop t = false -> StageFile t = Some staged -> staged <> Dest t ->
  fst (sameConfig E staged (Dest t) (files w)) = false ->
  checkPasses E t staged w ->
  files w !! staged = Some f ->
  renameFails E staged (Dest t) (files w) = None ->
  files (snd (sync E t w)) !! Dest t = Some f
  /\ files (snd (sync E t w)) !! staged = None
  /\ fst (sync E t w)
     = (if negb (syncOnly t) && negb (String.eqb (ReloadCmd t) "")
        then shell E (ReloadCmd t) (<[Dest t := f]> (delete staged (files w)))
        else None).
Proof.
  intros Hnoop Hst Hne Hdiff Hck Hf Hren.
  destruct (checkStep_passes t staged w Hst Hck) as (w1 & Hstep & Hw1).
  unfold sync, syncBody. rewrite Hst, Hnoop.
  destruct (sameConfig E staged (Dest t) (files w)) as [ok err].
  cbn in Hdiff. subst ok. cbn [negb]. rewrite Hstep.
  unfold osRename. rewrite Hw1, Hf, Hren.
  set (w2 := emit _ _).
  pose proof (syncReload_files t w2) as Hfiles.
  pose proof (syncReload_result t w2) as Hres.
  destruct (syncReload E t w2) as [e w3]. cbn [fst snd] in *.
  assert (Hw2 : files w2 = <[Dest t := f]> (delete staged (files w)))
    by reflexivity.
  rewrite Hw2 in *.
  destruct (keepStageFile t); cbn [fst snd].
  - rewrite Hfiles. repeat split; [apply lookup_insert_eq | | exact Hres].
    rewrite lookup_insert_ne by congruence. apply lookup_delete_eq.
  - repeat split; [| apply files_osRemove_eq | exact Hres].
    rewrite files_osRemove_ne by exact Hne. rewrite Hfiles.
    apply lookup_insert_eq.
Qed.


(** X5.  Any other failure of the rename is returned as it is: dest is
    left alone and no write is attempted. *)
Theorem sync_rename_error
  (t : TemplateResource) (w : World) (staged e : string) (f : File) :
  noop t = false -> StageFile t = Some staged -> staged <> Dest t ->
  fst (sameConfig E staged (Dest t) (files w)) = false ->
  checkPasses E t staged w ->
  files w !! staged = Some f ->
  renameFails E staged (Dest t) (files w) = Some e ->
  GoStrings.Contains e busy = false ->
  fst (sync E t w) = Some e
  /\ files (snd (sync E t w)) !! Dest t = files w !! Dest t
  /\ (forall p r, In (EvWriteFile p r) (events (snd (sync E t w))) ->
                  In (EvWriteFile p r) (events w)).
Proof.
  intros Hnoop Hst Hne Hdiff Hck Hf Hren Hbusy.
  assert (Hev : forall w1, checkStep t w = (None, w1) ->
            forall p r, In (EvWriteFile p r) (events w1) ->
                        In (EvWriteFile p r) (events w)).
  { intros w1.
    destruct (negb (syncOnly t) && negb (String.eqb (CheckCmd t) ""));
      [|intros [= <-]; auto].
    unfold check, runCommand. rewrite Hst.
    destruct (renderCheckCmd E (CheckCmd t) staged); [|discriminate].
    intros [= _ <-] p r. cbn. rewrite in_app_iff. cbn. intuition discriminate. }
  destruct (checkStep_passes t staged w Hst Hck) as (w1 & Hstep & Hw1).
  specialize (Hev w1 Hstep).
  unfold sync, syncBody. rewrite Hst, Hnoop.
  destruct (sameConfig E staged (Dest t) (files w)) as [ok err].
  cbn in Hdiff. subst ok. cbn [negb]. rewrite Hstep.
  unfold osRename. rewrite Hw1, Hf, Hren, Hbusy.
  destruct (keepStageFile t); cbn [fst snd].
  - repeat split; [cbn; now rewrite Hw1|].
    intros p r. cbn. rewrite in_app_iff. cbn.
    intros [H|[H|[]]]; [now apply Hev | discriminate].
  - rewrite files_osRemove_ne by exact Hne.
    repeat split; [cbn; now rewrite Hw1|].
    intros p r. cbn. rewrite !in_app_iff. cbn.
    intros [[H|[H|[]]]|[H|[]]]; try discriminate. now apply Hev.
Qed.


End SyncPaths.

(** ** createStageFile and process *)

Section ProcessFacts.

Import Resource SyncSpec.

Variable E : Env.

(** The stage file after a successful [createStageFile]. *)
Lemma createStageFile_file (t : TemplateResource) (w : World)
  (temp out : string) :
  let written := {| fdata := out; fmode := createMode E 384;
                    fuid := euid E; fgid := egid E |} in
  let w2 := withFiles
              (<[temp := written]>
                 (files (emit (EvTempFile temp)
                           (withFiles
                              (<[temp := {| fdata := ""; fmode := createMode E 384;
                                            fuid := euid E; fgid := egid E |}]>
                                 (files w)) w))))
              (emit (EvTempFile temp)
                 (withFiles
                    (<[temp := {| fdata := ""; fmode := createMode E 384;
                                  fuid := euid E; fgid := egid E |}]>
                       (files w)) w)) in
  exists sf,
    files (osChown E temp (Uid t) (Gid t) (osChmod E temp (FileMode t) w2))
      !! temp = Some sf
    /\ fdata sf = out
    /\ ((forall fs, chmodFails E temp fs = None) ->
        fmode sf = Z.land (FileMode t) modeBits)
    /\ ((forall fs, chmodFails E temp fs <> None) ->
        fmode sf = createMode E 384)
    /\ ((forall fs, chownFails E temp fs = None) ->
        fuid sf = chownId (Uid t) (euid E)
        /\ fgid sf = chownId (Gid t) (egid E))
    /\ ((forall fs, chownFails E temp fs <> None) ->
        fuid sf = euid E /\ fgid sf = egid E).
Proof.
  intros written w2.
  assert (Hw2 : files w2 !! temp = Some written)
    by (subst w2; cbn; apply lookup_insert_eq).
  rewrite files_osChown_eq, files_osChmod_eq, Hw2.
  destruct (chmodFails E temp (files w2)) as [me|] eqn:Hcm;
    destruct (chownFails E temp (files (osChmod E temp (FileMode t) w2)))
      as [ce|] eqn:Hco;
    cbn [option_map]; eexists; (split; [reflexivity|]);
    cbn [fdata fmode fuid fgid written];
    (split; [reflexivity|]);
    (split; [intros Hall; specialize (Hall (files w2));
             try congruence; reflexivity|]);
    (split; [intros Hall; specialize (Hall (files w2));
             try congruence; reflexivity|]);
    split; intros Hall;
    specialize (Hall (files (osChmod E temp (FileMode t) w2)));
    try congruence; split; reflexivity.
Qed.

(** What a successful [createStageFile] has done. *)
Lemma createStageFile_success
  (t t' : TemplateResource) (w w' : World) :
  createStageFile E t w = (None, t', w') ->
  exists temp out sf,
    tempFile E (GoPath.Dir (Dest t)) ("." +:+ GoPath.Base (Dest t)) (files w)
    = Ok temp
    /\ execute E (Src t) (files w) (store t) = Ok out
    /\ t' = setStageFileField (Some temp) t
    /\ files w' !! temp = Some sf
    /\ fdata sf = out.
Proof.
  unfold createStageFile.
  destruct (negb (isFileExist (Src t) (files w))); [discriminate|].
  destruct (parseFiles E (funcMap t) (Src t) (files w)); [discriminate|].
  destruct (tempFile E _ _ (files w)) as [temp|]; [|discriminate].
  destruct (execute E (Src t) (files w) (store t)) as [out|]; [|discriminate].
  intros [= <- <-].
  destruct (createStageFile_file t w temp out) as (sf & Hsf & Hdata & _).
  exists temp, out, sf. repeat split; assumption.
Qed.


(** X8.  A render that cannot resolve the file mode or cannot pull the
    values from the backend touches no file and asks nothing of the
    system, and the snapshot of the resource is the one it had: a failed
    pull does not purge it. *)
Theorem process_early_failure (t : TemplateResource) (w : World) :
  fst (setFileMode E t w) <> None
  \/ (exists e, GetValues E (appendPrefix (Prefix t) (Keys t)) = Err e) ->
  fst (fst (process E t w)) <> None
  /\ snd (process E t w) = w
  /\ store (snd (fst (process E t w))) = store t.
Proof.
  intros H. unfold process.
  destruct (setFileMode E t w) as [[e|] t1] eqn:Hm.
  - cbn. repeat split; [discriminate|].
    unfold setFileMode in Hm.
    repeat match type of Hm with
      | context [if ?b then _ else _] => destruct b
      | context [match ?x with _ => _ end] => destruct x
      end; inversion Hm; reflexivity.
  - destruct H as [H|[e He]]; [now destruct H|].
    assert (Ht1 : Prefix t1 = Prefix t /\ Keys t1 = Keys t /\ store t1 = store t).
    { unfold setFileMode in Hm.
      repeat match type of Hm with
        | context [if ?b then _ else _] => destruct b
        | context [match ?x with _ => _ end] => destruct x
        end; inversion Hm; auto. }
    destruct Ht1 as (Hp & Hk & Hs).
    unfold setVars. rewrite Hp, Hk, He. cbn.
    repeat split; [discriminate | exact Hs].
Qed.

(** After a sync that returns nil without noop, dest holds the bytes of
    the staged file. *)
Lemma sync_success_dest_bytes
  (t : TemplateResource) (w w' : World) (staged : string) (f : File) :
  sameConfigSound E ->
  noop t = false -> StageFile t = Some staged -> staged <> Dest t ->
  files w !! staged = Some f ->
  sync E t w = (None, w') ->
  exists d, files w' !! Dest t = Some d /\ fdata d = fdata f.
Proof.
  intros Hsound Hnoop Hst Hne Hf.
  unfold sync. rewrite Hst.
  assert (Hbody : forall w1, syncBody E t staged w = (None, w1) ->
            exists d, files w1 !! Dest t = Some d /\ fdata d = fdata f).
  { intros w1. unfold syncBody. rewrite Hnoop.
    pose proof (Hsound staged (Dest t) (files w)) as Hs.
    destruct (sameConfig E staged (Dest t) (files w)) as [ok err].
    destruct ok; cbn [negb fst] in *.
    - intros [= <-]. destruct (Hs eq_refl) as (s & d & H1 & H2 & H3).
      exists d. split; [exact H2|]. congruence.
    - assert (Hck : forall r,
                (if negb (syncOnly t) && negb (String.eqb (CheckCmd t) "")
                 then check E t w else (None, w)) = r ->
                files (snd r) = files w).
      { intros r <-.
        destruct (negb (syncOnly t) && negb (String.eqb (CheckCmd t) ""));
          [|reflexivity].
        unfold check, runCommand. rewrite Hst.
        destruct (renderCheckCmd E (CheckCmd t) staged); reflexivity. }
      destruct (if negb (syncOnly t) && negb (String.eqb (CheckCmd t) "")
                then check E t w else (None, w)) as [[e|] w0] eqn:Hstep;
        [discriminate|].
      specialize (Hck _ eq_refl). cbn in Hck.
      unfold osRename. rewrite Hck, Hf.
      destruct (renameFails E staged (Dest t) (files w)) as [re|].
      + destruct (GoStrings.Contains re busy); [|discriminate].
        unfold ioutilReadFile. cbn [files emit]. rewrite Hck, Hf.
        destruct (readFails E staged (files w)); [discriminate|].
        unfold ioutilWriteFile. cbn [files emit]. rewrite Hck.
        destruct (writeFails E (Dest t) (files w)); [discriminate|].
        set (w4 := emit (EvWriteFile (Dest t) None) _).
        set (w5 := osChown E (Dest t) (Uid t) (Gid t) w4).
        pose proof (syncReload_files E t w5) as Hfiles.
        destruct (syncReload E t w5) as [e' w6]. cbn [snd] in Hfiles.
        intros [= -> <-]. rewrite Hfiles.
        pose proof (fdata_osChown E (Dest t) (Dest t) (Uid t) (Gid t) w4)
          as Hdata.
        fold w5 in Hdata.
        assert (Hw4 : option_map fdata (files w4 !! Dest t)
                      = Some (fdata f)).
        { subst w4. cbn. rewrite lookup_insert_eq.
          now destruct (files w !! Dest t). }
        rewrite Hw4 in Hdata.
        destruct (files w5 !! Dest t) as [d|]; [|discriminate].
        exists d. split; [reflexivity|]. now injection Hdata.
      + set (w2 := emit _ _).
        pose proof (syncReload_files E t w2) as Hfiles.
        destruct (syncReload E t w2) as [e' w6]. cbn in Hfiles.
        intros [= -> <-]. rewrite Hfiles. subst w2. cbn.
        rewrite lookup_insert_eq. eauto. }
  destruct (syncBody E t staged w) as [e w1].
  destruct (keepStageFile t); intros [= -> <-].
  - now apply Hbody.
  - rewrite files_osRemove_ne by exact Hne. now apply Hbody.
Qed.

Lemma setFileMode_keeps (t t1 : TemplateResource) (w : World) :
  setFileMode E t w = (None, t1) -> exists m, t1 = setFileModeField m t.
Proof.
  unfold setFileMode.
  repeat match goal with
    | |- context [if ?b then _ else _] => destruct b
    | |- context [match ?x with _ => _ end] => destruct x
    end; intros [= <-]; eauto.
Qed.

Lemma setVars_keeps (t t2 : TemplateResource) :
  setVars E t = (None, t2) -> exists st, t2 = setStoreField st t.
Proof.
  unfold setVars. destruct (GetValues E _); intros [= <-]; eauto.
Qed.

(** X9.  A completed render publishes what the template produced: when
    process returns nil and noop is off, dest exists and holds exactly the
    bytes the template was executed to, whether sync found dest in
    agreement, renamed the stage file or fell back to writing. *)
Theorem process_publishes_rendered_bytes
  (t t' : TemplateResource) (w w' : World) :
  sameConfigSound E -> neverTemp E (Dest t) ->
  noop t = false ->
  process E t w = (None, t', w') ->
  exists out d,
    execute E (Src t) (files w) (store t') = Ok out
    /\ files w' !! Dest t = Some d /\ fdata d = out.
Proof.
  intros Hsound Htemp Hnoop. unfold process.
  destruct (setFileMode E t w) as [[e|] t1] eqn:Hm; [discriminate|].
  destruct (setFileMode_keeps _ _ _ Hm) as [m ->].
  destruct (setVars E (setFileModeField m t)) as [[e|] t2] eqn:Hv;
    [discriminate|].
  destruct (setVars_keeps _ _ Hv) as [st ->].
  destruct (createStageFile E _ w) as [[[e|] t3] w3] eqn:Hc; [discriminate|].
  destruct (createStageFile_success _ _ _ _ Hc)
    as (temp & out & sf & Htmp & Hex & -> & Hfile & Hsf).
  cbn [Dest Src store setStoreField setFileModeField] in *.
  destruct (sync E _ w3) as [[e|] w4] eqn:Hs; [discriminate|].
  intros [= <- <-].
  assert (Hne : temp <> Dest t) by (intros ->; exact (Htemp _ _ _ Htmp)).
  destruct (sync_success_dest_bytes
              (setStageFileField (Some temp)
                 (setStoreField st (setFileModeField m t)))
              w3 w4 temp _ Hsound Hnoop eq_refl Hne Hfile Hs)
    as (d & Hd & Hbytes).
  exists out, d. cbn in *. split; [exact Hex|]. split; [exact Hd|].
  congruence.
Qed.

End ProcessFacts.

(** ** NewTemplateResource *)

Lemma Clean_not_empty (p : string) : GoPath.Clean p <> "".
Proof.
  unfold GoPath.Clean.
  destruct (String.eqb p ""); [discriminate|].
  destruct (GoPath.isRooted p); [discriminate|].
  destruct (String.eqb (GoPath.joinSlash _) "") eqn:He; [discriminate|].
  now apply String.eqb_neq.
Qed.

(** X10.  NewTemplateResource fails when the descriptor cannot be decoded,
    with "Cannot process template resource <path> - <error of the
    decoder>", or names no src, with ErrEmptySrc.  In every resource it
    returns the prefix starts with "/": it is the prefix of the
    configuration when that is set and the one of the descriptor
    otherwise, with a "/" put in front when it has none, so an empty
    prefix becomes "/".  The src is the non-empty path of the descriptor's
    src under the template directory, the snapshot is empty and the flags
    are those of the configuration.  A uid or gid the descriptor leaves
    unset (-1) is that of the process, one it sets is kept.  With a
    non-empty key in the configuration the key is the resource's and the
    crypt functions are bound; the remaining settings are those of the
    descriptor. *)
Theorem NewTemplateResource_normalizes
  (DecodeFile : string -> Resource.TemplateResource
                -> Result Resource.TemplateResource)
  (baseFuncs : list string) (euid egid : Z)
  (path : string) (config : NewResource.Config) :
  match NewResource.NewTemplateResource DecodeFile baseFuncs euid egid
          path config with
  | Ok tr =>
      exists decoded,
        DecodeFile path NewResource.unsetResource = Ok decoded
        /\ Resource.Src decoded <> ""
        /\ GoStrings.HasPrefix (Resource.Prefix tr) "/" = true
        /\ (exists chosen,
              chosen = (if String.eqb (NewResource.Prefix config) ""
                        then Resource.Prefix decoded
                        else NewResource.Prefix config)
              /\ (Resource.Prefix tr = chosen
                  \/ (GoStrings.HasPrefix chosen "/" = false
                      /\ Resource.Prefix tr = "/" +:+ chosen)))
        /\ Resource.Src tr
           = GoPath.Join [NewResource.TemplateDir config; Resource.Src decoded]
        /\ Resource.Src tr <> ""
        /\ Resource.store tr = ∅
        /\ Resource.keepStageFile tr = NewResource.KeepStageFile config
        /\ Resource.noop tr = NewResource.Noop config
        /\ Resource.syncOnly tr = NewResource.SyncOnly config
        /\ Resource.Uid tr
           = (if Resource.Uid decoded =? -1 then euid
              else Resource.Uid decoded)
        /\ Resource.Gid tr
           = (if Resource.Gid decoded =? -1 then egid
              else Resource.Gid decoded)
        /\ Resource.PGPPrivateKey tr
           = (if (0 <? String.length (NewResource.PGPPrivateKey config))%nat
              then NewResource.PGPPrivateKey config
              else Resource.PGPPrivateKey decoded)
        /\ Resource.funcMap tr
           = (if (0 <? String.length (NewResource.PGPPrivateKey config))%nat
              then baseFuncs ++ CryptSpec.cryptNames else baseFuncs)
        /\ Resource.CheckCmd tr = Resource.CheckCmd decoded
        /\ Resource.ReloadCmd tr = Resource.ReloadCmd decoded
        /\ Resource.Dest tr = Resource.Dest decoded
        /\ Resource.Keys tr = Resource.Keys decoded
        /\ Resource.Mode tr = Resource.Mode decoded
        /\ Resource.FileMode tr = Resource.FileMode decoded
        /\ Resource.StageFile tr = Resource.StageFile decoded
        /\ Resource.lastIndex tr = Resource.lastIndex decoded
  | Err e =>
      (exists e',
         DecodeFile path NewResource.unsetResource = Err e'
         /\ e = "Cannot process template resource " +:+ path +:+ " - "
                 +:+ e')
      \/ (e = NewResource.ErrEmptySrc
          /\ exists decoded,
               DecodeFile path NewResource.unsetResource = Ok decoded
               /\ Resource.Src decoded = "")
  end.
Proof.
  unfold NewResource.NewTemplateResource.
  destruct (DecodeFile path NewResource.unsetResource) as [tr|e]; [|eauto].
  destruct (String.eqb (Resource.Src tr) "") eqn:Hsrc.
  - right. split; [reflexivity|]. exists tr. split; [reflexivity|].
    now apply String.eqb_eq.
  - apply String.eqb_neq in Hsrc.
    exists tr. cbn [Resource.Prefix Resource.Src Resource.store
                    Resource.keepStageFile Resource.noop Resource.syncOnly
                    Resource.Uid Resource.Gid Resource.PGPPrivateKey
                    Resource.funcMap Resource.CheckCmd Resource.ReloadCmd
                    Resource.Dest Resource.Keys Resource.Mode
                    Resource.FileMode Resource.StageFile
                    Resource.lastIndex].
    split; [reflexivity|]. split; [exact Hsrc|].
    set (chosen := if negb (String.eqb (NewResource.Prefix config) "")
                   then NewResource.Prefix config else Resource.Prefix tr).
    assert (Hch : chosen = (if String.eqb (NewResource.Prefix config) ""
                            then Resource.Prefix tr
                            else NewResource.Prefix config)).
    { subst chosen. now destruct (String.eqb (NewResource.Prefix config) ""). }
    split.
    { destruct (GoStrings.HasPrefix chosen "/") eqn:Hp; cbn [negb];
        [exact Hp | exact (prefix_app "/" chosen)]. }
    split.
    { exists chosen. split; [exact Hch|].
      destruct (GoStrings.HasPrefix chosen "/") eqn:Hp; cbn [negb]; auto. }
    split; [reflexivity|]. split; [|repeat split; reflexivity].
    cbn [GoPath.Join].
    destruct (String.eqb (NewResource.TemplateDir config) "");
      [|apply Clean_not_empty].
    destruct (String.eqb (Resource.Src tr) "") eqn:He;
      [apply String.eqb_eq in He; contradiction|].
    apply Clean_not_empty.
Qed.

(** ** Seq, Reverse and Map *)

Section SeqFacts.

Import TemplateUtil.

Lemma wrapInt_small (z : Z) : minInt <= z <= maxInt -> wrapInt z = z.
Proof.
  unfold minInt, maxInt, wrapInt. intros H.
  rewrite Z.mod_small by lia. lia.
Qed.

(** The integers from [first] on, [n] of them. *)
Local Abbreviation upFrom first n :=
  (map (fun k => first + Z.of_nat k) (seq 0 n)).

Lemma upFrom_snoc (first : Z) (n : nat) :
  upFrom first (S n) = upFrom first n ++ [first + Z.of_nat n].
Proof. rewrite seq_S, map_app. reflexivity. Qed.

Lemma seqLoop_counts (n : nat) :
  forall fuel first k last,
    minInt <= first -> last < maxInt ->
    Z.of_nat k + Z.of_nat n = last - first + 1 ->
    (n < fuel)%nat ->
    seqLoop fuel (first + Z.of_nat k) last
      (if Nat.eqb k 0 then None else Some (upFrom first k))
    = Some (if Nat.eqb (k + n) 0 then None else Some (upFrom first (k + n))).
Proof.
  induction n as [|n IH]; intros fuel first k last Hf Hl Hn Hfuel;
    (destruct fuel as [|fuel]; [lia|]); cbn [seqLoop].
  - destruct (Z.leb_spec (first + Z.of_nat k) last); [lia|].
    now rewrite Nat.add_0_r.
  - destruct (Z.leb_spec (first + Z.of_nat k) last); [|lia].
    rewrite wrapInt_small by (unfold minInt, maxInt in *; lia).
    replace (first + Z.of_nat k + 1) with (first + Z.of_nat (S k)) by lia.
    replace (append (if Nat.eqb k 0 then None else Some (upFrom first k))
               (first + Z.of_nat k))
      with (if Nat.eqb (S k) 0 then None else Some (upFrom first (S k))).
    + replace (k + S n)%nat with (S k + n)%nat by lia.
      apply IH; lia.
    + cbn [Nat.eqb]. destruct k as [|k]; [reflexivity|].
      cbn [Nat.eqb append]. now rewrite upFrom_snoc.
Qed.

(** X11.  For [first] and [last] within the range of int and [last] below
    the largest int, Seq returns (given the steps it needs) the run of
    integers from [first] to [last] in increasing order: [last - first + 1]
    elements, the k-th being [first + k]; when [first > last] it returns
    the nil slice. *)
Theorem Seq_counts_up (first last : Z) (fuel : nat) :
  minInt <= first -> last < maxInt ->
  (Z.to_nat (last - first + 1) < fuel)%nat ->
  Seq fuel first last
  = Some (if first <=? last
          then Some (map (fun k => first + Z.of_nat k)
                       (seq 0 (Z.to_nat (last - first + 1))))
          else None).
Proof.
  intros Hf Hl Hfuel. unfold Seq.
  pose proof (seqLoop_counts (Z.to_nat (last - first + 1)) fuel first 0 last
                Hf Hl) as H.
  cbn [Nat.eqb Z.of_nat Nat.add] in H. rewrite Z.add_0_r in H.
  destruct (Z.leb_spec first last).
  - rewrite H by lia.
    destruct (Z.to_nat (last - first + 1)) eqn:Hn; [lia | reflexivity].
  - destruct fuel as [|fuel]; [lia|]. cbn [seqLoop].
    destruct (Z.leb_spec first last); [lia | reflexivity].
Qed.

Lemma seqLoop_never_ends (fuel : nat) :
  forall i arr, minInt <= i <= maxInt -> seqLoop fuel i maxInt arr = None.
Proof.
  induction fuel as [|fuel IH]; intros i arr Hi; cbn [seqLoop]; [reflexivity|].
  destruct (Z.leb_spec i maxInt); [|lia].
  apply IH. unfold wrapInt, minInt, maxInt in *.
  pose proof (Z.mod_pos_bound (i + 1 + 2 ^ 63) (2 ^ 64) ltac:(lia)). lia.
Qed.

(** X12.  With the largest int as [last], Seq does not return: the test
    [i <= last] holds for every int, and the increment wraps around. *)
Theorem Seq_max_never_returns (fuel : nat) (first : Z) :
  minInt <= first <= maxInt -> Seq fuel first maxInt = None.
Proof. intros H. unfold Seq. now apply seqLoop_never_ends. Qed.

End SeqFacts.

Section ReverseFacts.

Import TemplateUtil.

Context {A : Type}.

Lemma reverseLoop_middle (fuel : nat) :
  forall (pre mid post : list A),
    (length mid <= 2 * fuel + 1)%nat ->
    reverseLoop fuel (Z.of_nat (length pre))
      (Z.of_nat (length pre + length mid) - 1) (pre ++ mid ++ post)
    = Some (pre ++ rev mid ++ post).
Proof.
  induction fuel as [|fuel IH]; intros pre mid post Hlen.
  - destruct mid as [|a [|b mid]]; cbn [length] in Hlen; try lia;
      cbn [reverseLoop length];
      match goal with
      | |- context [?a <? ?b] =>
          destruct (Z.ltb_spec a b); [lia | reflexivity]
      end.
  - destruct mid as [|a mid].
    { cbn [reverseLoop length].
      destruct (Z.ltb_spec (Z.of_nat (length pre))
                  (Z.of_nat (length pre + 0) - 1)); [lia | reflexivity]. }
    destruct mid as [|b mid _] using rev_ind.
    { cbn [reverseLoop length].
      destruct (Z.ltb_spec (Z.of_nat (length pre))
                  (Z.of_nat (length pre + 1) - 1)); [lia | reflexivity]. }
    cbn [length] in Hlen. rewrite length_app in Hlen. cbn [length] in Hlen.
    cbn [reverseLoop].
    destruct (Z.ltb_spec (Z.of_nat (length pre))
                (Z.of_nat (length pre + length (a :: mid ++ [b])) - 1)) as [_|Hge].
    2:{ cbn [length] in Hge. rewrite length_app in Hge. cbn [length] in Hge. lia. }
    replace (Z.to_nat (Z.of_nat (length pre))) with (length pre) by lia.
    replace (Z.to_nat (Z.of_nat (length pre + length (a :: mid ++ [b])) - 1))
      with (length (pre ++ a :: mid))
      by (cbn [length]; rewrite !length_app; cbn [length]; lia).
    replace (pre ++ (a :: mid ++ [b]) ++ post)
      with ((pre ++ a :: mid) ++ b :: post)
      by (cbn [app]; rewrite <- !app_assoc; reflexivity).
    rewrite (list_lookup_middle (pre ++ a :: mid) post b _ eq_refl).
    replace ((pre ++ a :: mid) ++ b :: post)
      with (pre ++ a :: (mid ++ b :: post))
      by (rewrite <- app_assoc; reflexivity).
    rewrite (list_lookup_middle pre (mid ++ b :: post) a _ eq_refl).
    rewrite insert_app_r_alt by lia.
    rewrite Nat.sub_diag. cbn [insert list_insert].
    change (<[0%nat := b]> (a :: (mid ++ b :: post)))
      with (b :: (mid ++ b :: post)).
    replace (pre ++ b :: mid ++ b :: post)
      with ((pre ++ b :: mid) ++ b :: post)
      by (rewrite <- app_assoc; reflexivity).
    replace (length (pre ++ a :: mid)) with (length (pre ++ b :: mid) + 0)%nat
      by (rewrite !length_app; cbn [length]; lia).
    rewrite insert_app_r.
    change (<[0%nat := a]> (b :: post)) with (a :: post).
    replace ((pre ++ b :: mid) ++ a :: post)
      with ((pre ++ [b]) ++ mid ++ (a :: post))
      by (rewrite <- !app_assoc; reflexivity).
    replace (Z.of_nat (length pre) + 1) with (Z.of_nat (length (pre ++ [b])))
      by (rewrite length_app; cbn [length]; lia).
    replace (Z.of_nat (length pre + length (a :: mid ++ [b])) - 1 - 1)
      with (Z.of_nat (length (pre ++ [b]) + length mid) - 1)
      by (cbn [length]; rewrite !length_app; cbn [length]; lia).
    rewrite IH by lia.
    f_equal. cbn [rev]. rewrite rev_app_distr. cbn [rev app].
    rewrite <- !app_assoc. reflexivity.
Qed.

Lemma reverseSlice_reverses (v : list A) : reverseSlice v = Some (rev v).
Proof.
  unfold reverseSlice.
  pose proof (reverseLoop_middle (length v) [] v []) as H.
  cbn [length app Nat.add Z.of_nat] in H.
  rewrite !app_nil_r in H. apply H. lia.
Qed.

End ReverseFacts.

Section ReverseValueFacts.

Import TemplateUtil.

(** X13.  Reverse returns without indexing out of range: a slice of strings or of pairs comes back in
    reversed order, a value of any other type comes back as it is; and
    reversing twice gives the value back. *)
Theorem Reverse_spec (values : Value) :
  Reverse values
  = Some (match values with
          | VStrings v => VStrings (rev v)
          | VPairs v => VPairs (rev v)
          | other => other
          end)
  /\ (forall once, Reverse values = Some once -> Reverse once = Some values).
Proof.
  assert (Hfirst : forall x, Reverse x
            = Some (match x with
                    | VStrings v => VStrings (rev v)
                    | VPairs v => VPairs (rev v)
                    | other => other
                    end)).
  { intros [v|v|s|n|b]; cbn [Reverse]; try reflexivity;
      now rewrite reverseSlice_reverses. }
  split; [apply Hfirst|].
  intros once Honce. rewrite Hfirst in Honce.
  injection Honce as <-. rewrite Hfirst.
  destruct values; try reflexivity; now rewrite rev_involutive.
Qed.

End ReverseValueFacts.

Section MapFacts.

Import TemplateUtil.

Lemma even_mod2 (n : nat) : Nat.eqb (n mod 2) 0 = Nat.even n.
Proof.
  destruct (Nat.even n) eqn:He.
  - apply Nat.even_spec in He. destruct He as [k ->].
    rewrite Nat.mul_comm, Nat.Div0.mod_mul. reflexivity.
  - assert (Ho : Nat.odd n = true) by (rewrite <- Nat.negb_even, He; reflexivity).
    apply Nat.odd_spec in Ho. destruct Ho as [k ->].
    rewrite Nat.add_comm, Nat.mul_comm, Nat.Div0.mod_add. reflexivity.
Qed.

(** The assignments [dict[key] = value] in the order of the arguments. *)
Local Abbreviation assign dict ps :=
  (fold_left (fun (d : gmap string Value) (kv : string * Value) =>
                <[fst kv := snd kv]> d) ps dict).

Lemma mapLoop_assigns (n : nat) :
  forall values dict,
    (length values <= n)%nat -> Nat.even (length values) = true ->
    mapLoop values dict
    = match pairsOf values with
      | Some ps => Ok (assign dict ps)
      | None => Err ErrMapKeys
      end.
Proof.
  induction n as [|n IH]; intros values dict Hn He.
  - destruct values; [reflexivity | cbn [length] in Hn; lia].
  - destruct values as [|k [|v rest]]; [reflexivity | discriminate He |].
    cbn [length] in Hn, He.
    change (Nat.even (S (S (length rest)))) with (Nat.even (length rest)) in He.
    destruct k; cbn [mapLoop pairsOf]; try reflexivity.
    rewrite IH by (assumption || lia).
    destruct (pairsOf rest); reflexivity.
Qed.

Lemma assign_list_to_map (ps : list (string * Value)) :
  assign (∅ : gmap string Value) ps = list_to_map (rev ps).
Proof.
  induction ps as [|[k v] ps IH] using rev_ind; [reflexivity|].
  rewrite fold_left_app, rev_app_distr. cbn [fold_left rev app fst snd].
  rewrite IH. reflexivity.
Qed.

(** X14.  Map fails with its first message on an odd number of arguments
    and with its second when an argument in key position is not a string;
    otherwise it returns the map holding, for every key, the value that
    follows the key's last occurrence. *)
Theorem Map_spec (values : list Value) :
  Map values
  = if Nat.even (length values)
    then match pairsOf values with
         | Some ps => Ok (list_to_map (rev ps))
         | None => Err ErrMapKeys
         end
    else Err ErrMapCall.
Proof.
  unfold Map. rewrite even_mod2.
  destruct (Nat.even (length values)) eqn:He; cbn [negb]; [|reflexivity].
  rewrite (mapLoop_assigns (length values)) by (assumption || lia).
  destruct (pairsOf values); [|reflexivity].
  now rewrite assign_list_to_map.
Qed.

Example Map_later_pair_wins :
  Map [VString "a"; VInt 1; VString "b"; VInt 2; VString "a"; VInt 3]
  = Ok (<["a" := VInt 3]> (<["b" := VInt 2]> ∅)).
Proof. vm_compute. reflexivity. Qed.

End MapFacts.

(** ** The properties above at the examples *)

Lemma sync_unchanged_is_noop_witness :
  Resource.sync MoreExamples.plainEnv
    (MoreExamples.stagedResource false false) MoreExamples.unchanged
  = (None, Resource.osRemove MoreExamples.stage MoreExamples.unchanged).
Proof.
  exact (sync_unchanged_is_noop MoreExamples.plainEnv
           (MoreExamples.stagedResource false false) MoreExamples.unchanged
           MoreExamples.stage eq_refl eq_refl).
Defined.

Lemma sync_only_runs_no_command_witness :
  Resource.syncOnly
    (Examples.resource "" "false" false false true (Some MoreExamples.stage))
  = true
  /\ (forall c r,
        In (Resource.EvRun c r)
          (Resource.events
             (snd (Resource.sync MoreExamples.plainEnv
                     (Examples.resource "" "false" false false true
                        (Some MoreExamples.stage)) Examples.staged))) ->
        In (Resource.EvRun c r) (Resource.events Examples.staged)).
Proof.
  split; [reflexivity|].
  intros c r.
  exact (sync_only_runs_no_command MoreExamples.plainEnv
           (Examples.resource "" "false" false false true
              (Some MoreExamples.stage)) Examples.staged c r eq_refl).
Defined.

Lemma sync_swap_witness :
  Resource.files
    (snd (Resource.sync MoreExamples.plainEnv
            (MoreExamples.stagedResource false false) Examples.staged))
    !! "/etc/app.conf" = Some (Examples.file "port=-1")
  /\ Resource.files
       (snd (Resource.sync MoreExamples.plainEnv
               (MoreExamples.stagedResource false false) Examples.staged))
       !! MoreExamples.stage = None
  /\ fst (Resource.sync MoreExamples.plainEnv
            (MoreExamples.stagedResource false false) Examples.staged)
     = None.
Proof.
  exact (sync_swap MoreExamples.plainEnv
           (MoreExamples.stagedResource false false) Examples.staged
           MoreExamples.stage (Examples.file "port=-1")
           eq_refl eq_refl ltac:(discriminate) eq_refl
           (or_intror (or_introl eq_refl)) eq_refl eq_refl).
Defined.


Lemma sync_rename_error_witness :
  fst (Resource.sync MoreExamples.deniedEnv
         (MoreExamples.stagedResource false false) Examples.staged)
  = Some "rename /etc/.app.conf000 /etc/app.conf: permission denied"
  /\ Resource.files
       (snd (Resource.sync MoreExamples.deniedEnv
               (MoreExamples.stagedResource false false) Examples.staged))
       !! "/etc/app.conf"
     = Resource.files Examples.staged !! "/etc/app.conf"
  /\ (forall p r,
        In (Resource.EvWriteFile p r)
          (Resource.events
             (snd (Resource.sync MoreExamples.deniedEnv
                     (MoreExamples.stagedResource false false)
                     Examples.staged))) ->
        In (Resource.EvWriteFile p r) (Resource.events Examples.staged)).
Proof.
  exact (sync_rename_error MoreExamples.deniedEnv
           (MoreExamples.stagedResource false false) Examples.staged
           MoreExamples.stage
           "rename /etc/.app.conf000 /etc/app.conf: permission denied"
           (Examples.file "port=-1")
           eq_refl eq_refl ltac:(discriminate) eq_refl
           (or_intror (or_introl eq_refl)) eq_refl eq_refl eq_refl).
Defined.


Lemma fixedTemp_never (name p : string) (E : Resource.Env) :
  name <> p -> SyncSpec.neverTemp (MoreExamples.fixedTemp name E) p.
Proof. intros Hne dir prefix fs [= H]. exact (Hne H). Qed.

Lemma createStageFile_frame_witness :
  Resource.files
    (snd (Resource.createStageFile
            (MoreExamples.fixedTemp MoreExamples.stage MoreExamples.plainEnv)
            (Examples.resource "" "" false false false None)
            Examples.deployed))
    !! "/etc/app.conf"
  = Resource.files Examples.deployed !! "/etc/app.conf".
Proof.
  exact (createStageFile_frame
           (MoreExamples.fixedTemp MoreExamples.stage MoreExamples.plainEnv)
           (Examples.resource "" "" false false false None)
           Examples.deployed "/etc/app.conf"
           (fixedTemp_never MoreExamples.stage "/etc/app.conf"
              MoreExamples.plainEnv ltac:(discriminate))).
Defined.


(** The stage file of a process that may not give files away: the chown
    to the configured owner fails, createStageFile returns nil all the
    same, and the file belongs to the process. *)
Example createStageFile_unprivileged :
  fst (fst (Resource.createStageFile
              (MoreExamples.unprivileged MoreExamples.plainEnv)
              (Examples.resource "" "" false false false None)
              Examples.deployed)) = None
  /\ Resource.files
       (snd (Resource.createStageFile
               (MoreExamples.unprivileged MoreExamples.plainEnv)
               (Examples.resource "" "" false false false None)
               Examples.deployed)) !! MoreExamples.stage
     = Some {| Resource.fdata := "port=-1"; Resource.fmode := 420;
               Resource.fuid := 1000; Resource.fgid := 1000 |}.
Proof. split; vm_compute; reflexivity. Qed.

Lemma process_early_failure_witness :
  fst (fst (Resource.process
              (MoreExamples.failingBackend "connection refused"
                 MoreExamples.plainEnv)
              (Examples.resource "" "" false false false None)
              Examples.deployed)) <> None
  /\ snd (Resource.process
            (MoreExamples.failingBackend "connection refused"
               MoreExamples.plainEnv)
            (Examples.resource "" "" false false false None)
            Examples.deployed) = Examples.deployed
  /\ Resource.store
       (snd (fst (Resource.process
                    (MoreExamples.failingBackend "connection refused"
                       MoreExamples.plainEnv)
                    (Examples.resource "" "" false false false None)
                    Examples.deployed))) = ∅.
Proof.
  exact (process_early_failure
           (MoreExamples.failingBackend "connection refused"
              MoreExamples.plainEnv)
           (Examples.resource "" "" false false false None)
           Examples.deployed
           (or_intror (ex_intro _ "connection refused" eq_refl))).
Defined.

Lemma sameConfigBytes_sound (E : Resource.Env) :
  Resource.sameConfig E = Resource.sameConfigBytes ->
  SyncSpec.sameConfigSound E.
Proof.
  intros HE staged dest fs. rewrite HE. unfold Resource.sameConfigBytes.
  destruct (fs !! dest) as [d|]; [|discriminate].
  destruct (fs !! staged) as [s|]; [|discriminate].
  cbn. intros H. apply String.eqb_eq in H. eauto.
Qed.

Lemma process_publishes_rendered_bytes_witness :
  exists out d,
    Resource.execute
      (MoreExamples.fixedTemp MoreExamples.stage MoreExamples.plainEnv)
      "/tmpl/app.conf.tmpl" (Resource.files Examples.deployed)
      (Resource.store
         (snd (fst (Resource.process
                      (MoreExamples.fixedTemp MoreExamples.stage
                         MoreExamples.plainEnv)
                      (Examples.resource "" "" false false false None)
                      Examples.deployed)))) = Ok out
    /\ Resource.files
         (snd (Resource.process
                 (MoreExamples.fixedTemp MoreExamples.stage
                    MoreExamples.plainEnv)
                 (Examples.resource "" "" false false false None)
                 Examples.deployed)) !! "/etc/app.conf" = Some d
    /\ Resource.fdata d = out.
Proof.
  exact (process_publishes_rendered_bytes
           (MoreExamples.fixedTemp MoreExamples.stage MoreExamples.plainEnv)
           (Examples.resource "" "" false false false None)
           (snd (fst (Resource.process
                        (MoreExamples.fixedTemp MoreExamples.stage
                           MoreExamples.plainEnv)
                        (Examples.resource "" "" false false false None)
                        Examples.deployed)))
           Examples.deployed
           (snd (Resource.process
                   (MoreExamples.fixedTemp MoreExamples.stage
                      MoreExamples.plainEnv)
                   (Examples.resource "" "" false false false None)
                   Examples.deployed))
           (sameConfigBytes_sound
              (MoreExamples.fixedTemp MoreExamples.stage MoreExamples.plainEnv)
              eq_refl)
           (fixedTemp_never MoreExamples.stage "/etc/app.conf"
              MoreExamples.plainEnv ltac:(discriminate))
           eq_refl eq_refl).
Defined.

Lemma Seq_counts_up_witness :
  TemplateUtil.Seq 10 3 5 = Some (Some [3; 4; 5]).
Proof.
  exact (Seq_counts_up 3 5 10
           ltac:(unfold TemplateUtil.minInt; lia)
           ltac:(unfold TemplateUtil.maxInt; lia) ltac:(cbn; lia)).
Defined.

Lemma Seq_max_never_returns_witness :
  TemplateUtil.Seq 100 (TemplateUtil.maxInt - 1) TemplateUtil.maxInt = None.
Proof.
  exact (Seq_max_never_returns 100 (TemplateUtil.maxInt - 1)
           ltac:(unfold TemplateUtil.minInt, TemplateUtil.maxInt; lia)).
Defined.

(** ** The etcd driver's WatchPrefix with a wait index *)

Section WatchFacts.

Import Backends WatchRun.

Variables (prefix : string) (keys : list string).

Lemma run_rounds (pre : list (option (list (string * Z)))) :
  forall fuel rest,
    forallb (quiet keys) pre = true ->
    run (2 * length pre + fuel) None (pre ++ rest)
      (ITree.iter (etcdRound keys) tt)
    = run fuel None rest (ITree.iter (etcdRound keys) tt).
Proof.
  induction pre as [|r pre IH]; intros fuel rest Hq; [reflexivity|].
  cbn [forallb] in Hq. apply andb_prop in Hq. destruct Hq as [Hr Hq].
  destruct r as [evs|]; [|discriminate].
  cbn [quiet] in Hr.
  destruct (firstMatch keys evs) eqn:Hm; [discriminate|].
  replace (2 * length (Some evs :: pre) + fuel)%nat
    with (S (S (2 * length pre + fuel))) by (cbn [length]; lia).
  cbn [app]. rewrite <- (IH fuel rest Hq).
  cbn. rewrite Hm. cbn. reflexivity.
Qed.

Lemma run_more_fuel {R : Type} (fuel : nat) :
  forall fuel' dialed responses (t : itree watchE R) r,
    run fuel dialed responses t = Some r -> (fuel <= fuel')%nat ->
    run fuel' dialed responses t = Some r.
Proof.
  induction fuel as [|fuel IH]; intros fuel' dialed responses t r H Hle;
    [discriminate|].
  destruct fuel' as [|fuel']; [lia|].
  cbn [run] in *.
  destruct (observe t) as [r0|t'|X e k]; [exact H | apply IH; [exact H | lia] |].
  destruct e; [apply IH; [exact H | lia] | apply IH; [exact H | lia] |].
  destruct responses as [|r1 rest]; [discriminate|].
  apply IH; [exact H | lia].
Qed.

(** X15.  With a wait index other than 0 and a dial that succeeds, the etcd
    driver's WatchPrefix skips every response in which no event is about
    one of [keys], and returns at the first response that has such an
    event: the version of the first such event, as a uint64, and no
    error.  Later events and responses play no part. *)
Theorem etcd_WatchPrefix_first_match
  (waitIndex : Z) (pre post : list (option (list (string * Z))))
  (evs : list (string * Z)) (ev : string * Z) (fuel : nat) :
  waitIndex <> 0 ->
  forallb (quiet keys) pre = true ->
  firstMatch keys evs = Some ev ->
  (2 * length pre + 3 <= fuel)%nat ->
  run fuel None (pre ++ Some evs :: post)
    (etcdWatchPrefix prefix keys waitIndex)
  = Some (wrap64 (snd ev), None).
Proof.
  intros Hw Hq Hm Hfuel.
  apply (run_more_fuel (S (2 * length pre + 2))); [|lia].
  unfold etcdWatchPrefix.
  destruct (Z.eqb_spec waitIndex 0) as [|_]; [contradiction|].
  cbn [run observe _observe].
  rewrite (run_rounds pre 2 (Some evs :: post) Hq).
  cbn. rewrite Hm. reflexivity.
Qed.

(** X16.  With a wait index other than 0: a dial that fails makes the etcd
    driver's WatchPrefix return index 1 with the error of the dial; when
    the watch channel is closed (the stop signal cancels the watch) before
    any event about one of [keys] came, it returns index 0 and no error;
    and as long as responses come without such an event, it does not
    return. *)
Theorem etcd_WatchPrefix_no_match
  (waitIndex : Z) (pre post : list (option (list (string * Z))))
  (e : string) (fuel : nat) :
  waitIndex <> 0 ->
  forallb (quiet keys) pre = true ->
  run (2 + fuel) (Some e) (pre ++ post) (etcdWatchPrefix prefix keys waitIndex)
  = Some (1, Some e)
  /\ run (2 * length pre + 3 + fuel) None (pre ++ None :: post)
       (etcdWatchPrefix prefix keys waitIndex)
     = Some (0, None)
  /\ run fuel None pre (etcdWatchPrefix prefix keys waitIndex) = None.
Proof.
  intros Hw Hq. unfold etcdWatchPrefix.
  destruct (Z.eqb_spec waitIndex 0) as [|_]; [contradiction|].
  split; [reflexivity|]. split.
  - apply (run_more_fuel (S (2 * length pre + 2))); [|lia].
    cbn [run observe _observe].
    rewrite (run_rounds pre 2 (None :: post) Hq). reflexivity.
  - destruct fuel as [|fuel]; [reflexivity|].
    cbn [run observe _observe].
    clear Hw. revert fuel.
    induction pre as [|r pre IH]; intros fuel.
    + destruct fuel as [|fuel]; reflexivity.
    + cbn [forallb] in Hq. apply andb_prop in Hq. destruct Hq as [Hr Hq].
      destruct r as [evs|]; [|discriminate].
      cbn [quiet] in Hr.
      destruct (firstMatch keys evs) eqn:Hm; [discriminate|].
      destruct fuel as [|[|fuel]]; [reflexivity | reflexivity |].
      transitivity (run fuel None pre (ITree.iter (etcdRound keys) tt));
        [|apply IH; exact Hq].
      cbn. rewrite Hm. reflexivity.
Qed.

End WatchFacts.

Lemma etcd_WatchPrefix_first_match_witness :
  WatchRun.run 10 None
    [Some [("/other/a", 4)]; Some [("/other/b", 2); ("/app/port", 7)];
     Some [("/app/port", 8)]]
    (Backends.etcdWatchPrefix "/app" ["/app/port"] 5)
  = Some (7, None).
Proof.
  exact (etcd_WatchPrefix_first_match "/app" ["/app/port"] 5
           [Some [("/other/a", 4)]] [Some [("/app/port", 8)]]
           [("/other/b", 2); ("/app/port", 7)] ("/app/port", 7) 10
           ltac:(discriminate) eq_refl eq_refl ltac:(cbn; lia)).
Defined.

Lemma etcd_WatchPrefix_no_match_witness :
  WatchRun.run (2 + 100) (Some "context deadline exceeded")
    ([Some [("/other/a", 4)]] ++ [])
    (Backends.etcdWatchPrefix "/app" ["/app/port"] 5)
  = Some (1, Some "context deadline exceeded")
  /\ WatchRun.run (2 * 1 + 3 + 100) None
       ([Some [("/other/a", 4)]] ++ [None])
       (Backends.etcdWatchPrefix "/app" ["/app/port"] 5)
     = Some (0, None)
  /\ WatchRun.run 100 None [Some [("/other/a", 4)]]
       (Backends.etcdWatchPrefix "/app" ["/app/port"] 5) = None.
Proof.
  exact (etcd_WatchPrefix_no_match "/app" ["/app/port"] 5
           [Some [("/other/a", 4)]] [] "context deadline exceeded" 100
           ltac:(discriminate) eq_refl).
Defined.

(** ** The etcd driver's GetValues *)

Section EtcdValuesFacts.

Import EtcdValues.

Variable get : string -> Result (list (string * string)).

Lemma store_list_to_map (kvs : list (string * string)) :
  forall vars, store vars kvs = list_to_map (rev kvs) ∪ vars.
Proof.
  induction kvs as [|[k v] kvs IH] using rev_ind; intros vars.
  - cbn. now rewrite (left_id_L ∅ (∪)).
  - unfold store in *. rewrite fold_left_app, rev_app_distr.
    cbn [fold_left rev app fst snd list_to_map]. rewrite IH.
    now rewrite insert_union_l.
Qed.

Lemma getLoop_answers (keys : list string) :
  forall (resps : list (list (string * string))) vars rest,
    Forall2 (fun k kvs => get k = Ok kvs) keys resps ->
    getLoop get (keys ++ rest) vars
    = getLoop get rest (list_to_map (rev (concat resps)) ∪ vars).
Proof.
  induction keys as [|k keys IH]; intros resps vars rest H.
  - apply Forall2_nil_inv_l in H. subst resps. cbn.
    now rewrite (left_id_L ∅ (∪)).
  - apply Forall2_cons_inv_l in H.
    destruct H as (kvs & resps' & Hk & H & ->).
    cbn [app getLoop concat]. rewrite Hk, (IH resps' _ rest H).
    f_equal. rewrite store_list_to_map, rev_app_distr.
    rewrite list_to_map_app, (assoc_L (∪)). reflexivity.
Qed.

(** X17.  The etcd driver's GetValues asks for the keys in order and
    gathers every pair of every answer, a later pair overriding an earlier
    one with the same key.  When the request for a key fails it returns
    that error together with what the keys before it gave, and the keys
    after it play no part; when all succeed it returns everything and no
    error; when the dial fails it returns the empty map and the error of
    the dial. *)
Theorem etcd_GetValues_partial
  (keys rest : list string) (resps : list (list (string * string)))
  (k e : string) :
  Forall2 (fun k kvs => get k = Ok kvs) keys resps ->
  get k = Err e ->
  GetValues None get (keys ++ k :: rest)
  = (list_to_map (rev (concat resps)), Some e)
  /\ GetValues None get keys = (list_to_map (rev (concat resps)), None)
  /\ GetValues (Some e) get (keys ++ k :: rest) = (∅, Some e).
Proof.
  intros H Hk. unfold GetValues. split; [|split; [|reflexivity]].
  - rewrite (getLoop_answers keys resps ∅ (k :: rest) H).
    cbn [getLoop]. rewrite Hk. now rewrite (right_id_L ∅ (∪)).
  - rewrite <- (app_nil_r keys) at 1.
    rewrite (getLoop_answers keys resps ∅ [] H).
    cbn [getLoop]. now rewrite (right_id_L ∅ (∪)).
Qed.

End EtcdValuesFacts.

Lemma etcd_GetValues_partial_witness :
  EtcdValues.GetValues None
    (fun k => if String.eqb k "/app" then Ok [("/app/port", "80")]
              else Err "context deadline exceeded")
    (["/app"] ++ "/db" :: ["/app"])
  = (list_to_map (rev (concat [[("/app/port", "80")]])),
     Some "context deadline exceeded")
  /\ EtcdValues.GetValues None
       (fun k => if String.eqb k "/app" then Ok [("/app/port", "80")]
                 else Err "context deadline exceeded")
       ["/app"]
     = (list_to_map (rev (concat [[("/app/port", "80")]])), None)
  /\ EtcdValues.GetValues (Some "context deadline exceeded")
       (fun k => if String.eqb k "/app" then Ok [("/app/port", "80")]
                 else Err "context deadline exceeded")
       (["/app"] ++ "/db" :: ["/app"])
     = (∅, Some "context deadline exceeded").
Proof.
  exact (etcd_GetValues_partial
           (fun k => if String.eqb k "/app" then Ok [("/app/port", "80")]
                     else Err "context deadline exceeded")
           ["/app"] ["/app"] [[("/app/port", "80")]] "/db"
           "context deadline exceeded"
           ltac:(repeat constructor) eq_refl).
Defined.

(** ** Processor.Start and the interval mode *)

Section LifecycleFacts.

Import Processor.

(** X18.  In every state that calls of Start and Stop lead to from a new
    processor: Start on a running processor only logs a warning, starts no
    task and leaves the processor, its options included, as it was; Start
    on a processor that is not running makes it running and starts exactly
    one task, after one wg.Add(1): the onetime task if the onetime option
    is set, else the interval task if the interval option is set, else the
    watch task if the watch option is set or the client can watch, else
    the interval task.  Stop, once the wait for the task is over, leaves
    the processor not running, having waited exactly when it was running,
    and Start then starts a task again as on a new processor. *)
Theorem Start_lifecycle (we : bool) (o : Options) (p : Processor) :
  reachable p ->
  (if IsRunning p
   then Start we o p = (p, [EvWarning "Processor is running"])
   else IsRunning (fst (Start we o p)) = true
        /\ option_ (fst (Start we o p)) = o
        /\ snd (Start we o p)
           = [EvAdd 1;
              EvGo (if useOnetimeMode o then Onetime
                    else if useIntervalMode o then Interval
                    else if useWatchMode o || we then Watch
                    else Interval)])
  /\ IsRunning (fst (Stop p)) = false
  /\ snd (Stop p) = (if IsRunning p then [EvWait] else [])
  /\ IsRunning (fst (Start we o (fst (Stop p)))) = true
  /\ option_ (fst (Start we o (fst (Stop p)))) = o
  /\ snd (Start we o (fst (Stop p)))
     = [EvAdd 1;
        EvGo (if useOnetimeMode o then Onetime
              else if useIntervalMode o then Interval
              else if useWatchMode o || we then Watch
              else Interval)].
Proof.
  intros Hp.
  assert (Hstart : forall q, reachable q -> IsRunning q = false ->
            IsRunning (fst (Start we o q)) = true
            /\ option_ (fst (Start we o q)) = o
            /\ snd (Start we o q)
               = [EvAdd 1;
                  EvGo (if useOnetimeMode o then Onetime
                        else if useIntervalMode o then Interval
                        else if useWatchMode o || we then Watch
                        else Interval)]).
  { intros q Hq Hr. apply reachable_flags in Hq as [_ [H0|H1]].
    - unfold Start. rewrite H0. cbn [Z.eqb negb].
      destruct (useOnetimeMode o), (useIntervalMode o), (useWatchMode o), we;
        repeat split; reflexivity.
    - unfold IsRunning in Hr. rewrite H1 in Hr. discriminate. }
  assert (Hstop : IsRunning (fst (Stop p)) = false).
  { unfold Stop, IsRunning.
    destruct (Z.eqb_spec (runing p) 1) as [H1|H1]; cbn [negb fst].
    - reflexivity.
    - now apply Z.eqb_neq. }
  split.
  - destruct (IsRunning p) eqn:Hr; [|now apply Hstart].
    unfold IsRunning in Hr. apply Z.eqb_eq in Hr.
    unfold Start. rewrite Hr. reflexivity.
  - split; [exact Hstop|]. split.
    + unfold Stop. destruct (IsRunning p); reflexivity.
    + apply Hstart; [now constructor | exact Hstop].
Qed.

End LifecycleFacts.

Lemma Start_lifecycle_witness :
  Processor.Start true
    {| Processor.useOnetimeMode := false;
       Processor.useIntervalMode := false;
       Processor.useWatchMode := false |}
    (fst (Processor.Start false
            {| Processor.useOnetimeMode := true;
               Processor.useIntervalMode := false;
               Processor.useWatchMode := false |}
            Processor.NewProcessor))
  = (fst (Processor.Start false
            {| Processor.useOnetimeMode := true;
               Processor.useIntervalMode := false;
               Processor.useWatchMode := false |}
            Processor.NewProcessor),
     [Processor.EvWarning "Processor is running"])
  /\ Processor.IsRunning
       (fst (Processor.Stop
               (fst (Processor.Start false
                       {| Processor.useOnetimeMode := true;
                          Processor.useIntervalMode := false;
                          Processor.useWatchMode := false |}
                       Processor.NewProcessor)))) = false
  /\ snd (Processor.Stop
            (fst (Processor.Start false
                    {| Processor.useOnetimeMode := true;
                       Processor.useIntervalMode := false;
                       Processor.useWatchMode := false |}
                    Processor.NewProcessor)))
     = [Processor.EvWait]
  /\ Processor.IsRunning
       (fst (Processor.Start true
               {| Processor.useOnetimeMode := false;
                  Processor.useIntervalMode := false;
                  Processor.useWatchMode := false |}
               (fst (Processor.Stop
                       (fst (Processor.Start false
                               {| Processor.useOnetimeMode := true;
                                  Processor.useIntervalMode := false;
                                  Processor.useWatchMode := false |}
                               Processor.NewProcessor)))))) = true
  /\ Processor.option_
       (fst (Processor.Start true
               {| Processor.useOnetimeMode := false;
                  Processor.useIntervalMode := false;
                  Processor.useWatchMode := false |}
               (fst (Processor.Stop
                       (fst (Processor.Start false
                               {| Processor.useOnetimeMode := true;
                                  Processor.useIntervalMode := false;
                                  Processor.useWatchMode := false |}
                               Processor.NewProcessor))))))
     = {| Processor.useOnetimeMode := false;
          Processor.useIntervalMode := false;
          Processor.useWatchMode := false |}
  /\ snd (Processor.Start true
            {| Processor.useOnetimeMode := false;
               Processor.useIntervalMode := false;
               Processor.useWatchMode := false |}
            (fst (Processor.Stop
                    (fst (Processor.Start false
                            {| Processor.useOnetimeMode := true;
                               Processor.useIntervalMode := false;
                               Processor.useWatchMode := false |}
                            Processor.NewProcessor)))))
     = [Processor.EvAdd 1; Processor.EvGo Processor.Watch].
Proof.
  exact (Start_lifecycle true
           {| Processor.useOnetimeMode := false;
              Processor.useIntervalMode := false;
              Processor.useWatchMode := false |}
           (fst (Processor.Start false
                   {| Processor.useOnetimeMode := true;
                      Processor.useIntervalMode := false;
                      Processor.useWatchMode := false |}
                   Processor.NewProcessor))
           (Processor.reach_start false
              {| Processor.useOnetimeMode := true;
                 Processor.useIntervalMode := false;
                 Processor.useWatchMode := false |}
              Processor.NewProcessor Processor.reach_new)).
Defined.

Section IntervalFacts.

Import IntervalMode.

Variables T W : Type.
Variable MakeAll : W -> Result (list T).
Variable Process : T -> W -> error * W.
Variable stopRequested : W -> bool.
Variable sleep : W -> W.

Local Abbreviation pass_ := (pass T W Process stopRequested).
Local Abbreviation run_ := (runInIntervalMode T W MakeAll Process stopRequested sleep).

Lemma pass_stopped (ts : list T) :
  forall w calls calls' w',
    pass_ ts w calls = (true, calls', w') -> stopRequested w' = true.
Proof.
  induction ts as [|t ts IH]; intros w calls calls' w' H; cbn [pass] in H;
    [discriminate|].
  destruct (stopRequested w) eqn:Hs; [now injection H as <- <-|].
  destruct (Process t w) as [err w1]. eapply IH, H.
Qed.

Lemma pass_all (ts : list T) :
  forall w calls calls' w',
    pass_ ts w calls = (false, calls', w') ->
    map fst calls' = map fst calls ++ ts.
Proof.
  induction ts as [|t ts IH]; intros w calls calls' w' H; cbn [pass] in H.
  - injection H as <- <-. now rewrite app_nil_r.
  - destruct (stopRequested w); [discriminate|].
    destruct (Process t w) as [err w1].
    rewrite (IH _ _ _ _ H), map_app, <- app_assoc. reflexivity.
Qed.

(** X19.  The interval loop ends for two reasons only: when it returns,
    either the processor has been stopped or the list of resources could
    not be made.  An error of Process never ends it. *)
Theorem interval_mode_ends_when_stopped
  (fuel : nat) (w w' : W) (calls calls' : list (T * error)) :
  run_ fuel w calls = Some (calls', w') ->
  stopRequested w' = true \/ exists e, MakeAll w' = Err e.
Proof.
  revert w calls. induction fuel as [|fuel IH]; intros w calls H;
    cbn [runInIntervalMode] in H; [discriminate|].
  destruct (stopRequested w) eqn:Hs; [injection H as <- <-; now left|].
  destruct (MakeAll w) as [ts|e] eqn:Hm; [|injection H as <- <-; eauto].
  destruct (pass_ ts w calls) as [[stopped calls1] w1] eqn:Hp.
  destruct stopped; [|eapply IH, H].
  injection H as <- <-. left. eapply pass_stopped, Hp.
Qed.

(** X20.  While nobody stops the processor and the resources can be made,
    the interval loop goes on, whatever Process returns: a pass that is
    not interrupted calls Process on every resource in order, failed or
    not, and the loop does not return. *)
Theorem interval_mode_keeps_going
  (fuel : nat) (w : W) (calls : list (T * error)) :
  (forall w, stopRequested w = false) ->
  (forall w, exists ts, MakeAll w = Ok ts) ->
  run_ fuel w calls = None
  /\ forall ts, exists calls' w',
       pass_ ts w calls = (false, calls', w')
       /\ map fst calls' = map fst calls ++ ts.
Proof.
  intros Hs Hm. split.
  - revert w calls. induction fuel as [|fuel IH]; intros w calls;
      cbn [runInIntervalMode]; [reflexivity|].
    rewrite Hs. destruct (Hm w) as [ts ->].
    destruct (pass_ ts w calls) as [[stopped calls1] w1] eqn:Hp.
    destruct stopped; [|apply IH].
    apply pass_stopped in Hp. rewrite Hs in Hp. discriminate.
  - intros ts.
    destruct (pass_ ts w calls) as [[stopped calls1] w1] eqn:Hp.
    destruct stopped.
    + apply pass_stopped in Hp. rewrite Hs in Hp. discriminate.
    + exists calls1, w1. split; [reflexivity|]. eapply pass_all, Hp.
Qed.

End IntervalFacts.

Lemma interval_mode_ends_when_stopped_witness :
  IntervalExamples.stopAfter 2 2%nat = true
  \/ exists e, IntervalExamples.makeAll 2%nat = Err e.
Proof.
  exact (interval_mode_ends_when_stopped string nat
           IntervalExamples.makeAll IntervalExamples.process
           (IntervalExamples.stopAfter 2) S
           5 0%nat 2%nat []
           [("a", Some "boom"); ("b", None); ("a", Some "boom"); ("b", None)]
           eq_refl).
Defined.

Lemma interval_mode_keeps_going_witness :
  IntervalMode.runInIntervalMode string nat
    IntervalExamples.makeAll IntervalExamples.process
    IntervalExamples.never S 50 0%nat [] = None
  /\ forall ts, exists calls' w',
       IntervalMode.pass string nat IntervalExamples.process
         IntervalExamples.never ts 0%nat [] = (false, calls', w')
       /\ map fst calls' = map fst ([] : list (string * error)) ++ ts.
Proof.
  exact (interval_mode_keeps_going string nat
           IntervalExamples.makeAll IntervalExamples.process
           IntervalExamples.never S 50 0%nat []
           (fun _ => eq_refl) (fun _ => ex_intro _ ["a"; "b"] eq_refl)).
Defined.

(** ** The logger *)

Section LoggerFacts.

Import Logger.

Lemma Valid_cases (l : Z) :
  Valid l = true ->
  l = 1 \/ l = 2 \/ l = 3 \/ l = 4 \/ l = 5 \/ l = 6.
Proof.
  unfold Valid, logDebugLevel, logFatalLevel. intros H.
  apply andb_prop in H. destruct H as [H1 H2].
  apply Z.leb_le in H1. apply Z.leb_le in H2. lia.
Qed.

Lemma newLogLevel_String (l : Z) :
  Valid l = true -> newLogLevel (String_ l) = l.
Proof.
  intros H. apply Valid_cases in H.
  destruct H as [->|[->|[->|[->|[->| ->]]]]]; reflexivity.
Qed.

Lemma String_newLogLevel (name : string) :
  Valid (newLogLevel name) = true -> String_ (newLogLevel name) = name.
Proof.
  unfold newLogLevel.
  repeat match goal with
    | |- context [String.eqb name ?s] =>
        destruct (String.eqb_spec name s) as [->|_]; [reflexivity|]
    end.
  discriminate.
Qed.

(** X21.  The names of the levels and the levels correspond: a valid level
    is found again from its name, and a name that gives a valid level is
    the name of that level; every other name gives the unknown level,
    whose name is INVALID. *)
Theorem level_names_round_trip (l : Z) (name : string) :
  newLogLevel (String_ l) = (if Valid l then l else logUnknownLevel)
  /\ String_ (newLogLevel name)
     = (if Valid (newLogLevel name) then name else "INVALID").
Proof.
  split.
  - destruct (Valid l) eqn:Hv; [now apply newLogLevel_String|].
    unfold String_, logDebugLevel, logInfoLevel, logWarnLevel,
      logErrorLevel, logPanicLevel, logFatalLevel.
    repeat match goal with
      | |- context [l =? ?n] =>
          destruct (Z.eqb_spec l n) as [->|_]; [discriminate Hv|]
      end.
    reflexivity.
  - destruct (Valid (newLogLevel name)) eqn:Hv;
      [now apply String_newLogLevel|].
    unfold newLogLevel in *.
    repeat match goal with
      | |- context [String.eqb name ?s] =>
          destruct (String.eqb name s); [discriminate Hv|]
      end.
    reflexivity.
Qed.

Lemma made_valid (p : stdLogger) : made p -> Valid (level p) = true.
Proof.
  induction 1 as [names p H|name p old p' _ IH H|s p _ IH|s p _ IH
                  |s p _ IH|s p _ IH].
  - destruct names as [|name names]; cbn in H.
    + injection H as <-. reflexivity.
    + destruct (Valid (newLogLevel name)) eqn:Hv; cbn in H; [|discriminate].
      injection H as <-. exact Hv.
  - unfold SetLevel, setLevelByName in H.
    destruct (Valid (newLogLevel name)) eqn:Hv; cbn in H; [|discriminate].
    injection H as _ <-. exact Hv.
  - unfold Debug. destruct (getLevel p <=? logDebugLevel); exact IH.
  - unfold Info. destruct (getLevel p <=? logInfoLevel); exact IH.
  - unfold Warning. destruct (getLevel p <=? logWarnLevel); exact IH.
  - unfold Error. destruct (getLevel p <=? logErrorLevel); exact IH.
Qed.

(** X22.  SetLevel with the name of a level returns the name of the level
    before and makes the level the named one, so that GetLevel then
    returns that name; it writes nothing.  With any other name it panics
    with "invalid level: " followed by the name.  A logger made by
    newStdLogger and changed by SetLevel only never has the unknown
    level: GetLevel never returns INVALID. *)
Theorem SetLevel_GetLevel (name : string) (p : stdLogger) :
  made p ->
  GetLevel p <> "INVALID"
  /\ match SetLevel name p with
     | Returned (old, p') =>
         old = GetLevel p /\ GetLevel p' = name /\ output p' = output p
         /\ In name ["DEBUG"; "INFO"; "WARN"; "ERROR"; "PANIC"; "FATAL"]
     | Panicked msg =>
         msg = "invalid level: " +:+ name
         /\ ~ In name ["DEBUG"; "INFO"; "WARN"; "ERROR"; "PANIC"; "FATAL"]
     | Exited _ => False
     end.
Proof.
  intros Hp. split.
  - apply made_valid, Valid_cases in Hp. unfold GetLevel, getLevel.
    destruct Hp as [->|[->|[->|[->|[->| ->]]]]]; discriminate.
  - unfold SetLevel, setLevelByName.
    destruct (Valid (newLogLevel name)) eqn:Hv; cbn [negb setLevel].
    + unfold GetLevel, getLevel. cbn [level output].
      pose proof (String_newLogLevel name Hv) as Hn.
      repeat split; [exact Hn|].
      rewrite <- Hn. apply Valid_cases in Hv.
      destruct Hv as [->|[->|[->|[->|[->| ->]]]]]; cbn; tauto.
    + split; [reflexivity|].
      intros Hin. cbn in Hin.
      destruct Hin as [<-|[<-|[<-|[<-|[<-|[<-|[]]]]]]]; discriminate Hv.
Qed.

(** X23.  A more severe message is written whenever a less severe one
    is: where Debug writes, Info does; where Info writes, Warning does;
    then Error, then Panic.  Panic panics with the message whether it
    wrote or not, and Fatal writes at every level before it ends the
    process with status 1. *)
Theorem log_threshold (s : string) (p : stdLogger) :
  (output (Debug s p) <> output p -> output (Info s p) <> output p)
  /\ (output (Info s p) <> output p -> output (Warning s p) <> output p)
  /\ (output (Warning s p) <> output p -> output (Error s p) <> output p)
  /\ (output (Error s p) <> output p ->
      output (fst (Panic s p)) <> output p)
  /\ snd (Panic s p) = Panicked s
  /\ output (fst (Fatal s p)) = output p ++ ["[FATAL] " +:+ s]
  /\ snd (Fatal s p) = Exited 1.
Proof.
  assert (Hneq : forall (l : list string) x, l ++ [x] <> l).
  { intros l x H. apply (f_equal (@length _)) in H.
    rewrite length_app in H. cbn in H. lia. }
  unfold Debug, Info, Warning, Error, Panic, Fatal, getLevel,
    logDebugLevel, logInfoLevel, logWarnLevel, logErrorLevel, logPanicLevel.
  destruct (Z.leb_spec (level p) 1), (Z.leb_spec (level p) 2),
    (Z.leb_spec (level p) 3), (Z.leb_spec (level p) 4),
    (Z.leb_spec (level p) 5); try lia; cbn [output level Output fst snd];
    repeat split; auto; intros; apply Hneq.
Qed.

End LoggerFacts.

Lemma SetLevel_GetLevel_witness :
  Logger.GetLevel {| Logger.level := Logger.logWarnLevel; Logger.output := [] |}
  <> "INVALID"
  /\ match
       Logger.SetLevel "DEBUG"
         {| Logger.level := Logger.logWarnLevel; Logger.output := [] |}
     with
     | Logger.Returned (old, p') =>
         old = Logger.GetLevel
                 {| Logger.level := Logger.logWarnLevel; Logger.output := [] |}
         /\ Logger.GetLevel p' = "DEBUG"
         /\ Logger.output p' = []
         /\ In "DEBUG" ["DEBUG"; "INFO"; "WARN"; "ERROR"; "PANIC"; "FATAL"]
     | Logger.Panicked msg =>
         msg = "invalid level: " +:+ "DEBUG"
         /\ ~ In "DEBUG" ["DEBUG"; "INFO"; "WARN"; "ERROR"; "PANIC"; "FATAL"]
     | Logger.Exited _ => False
     end.
Proof.
  exact (SetLevel_GetLevel "DEBUG"
           {| Logger.level := Logger.logWarnLevel; Logger.output := [] |}
           (Logger.made_new [] _ eq_refl)).
Defined.

(** ** The env driver's GetValues *)

Section EnvValuesFacts.

Import EnvValues.

Variables ToUpper ToLower : string -> string.
Variable rangeOrder : nat -> gmap string string -> list (string * string).
Hypothesis Hrange : visitsAll rangeOrder.

Local Abbreviation transform_ := (transform ToUpper).
Local Abbreviation clean_ := (clean ToLower).

(** Where a value of the result comes from. *)
Local Abbreviation fromEnv keys envMap k' v :=
  (exists key envKey,
     In key keys /\ envMap !! envKey = Some v
     /\ GoStrings.HasPrefix envKey (transform_ key) = true
     /\ clean_ envKey = k').

Lemma matchLoop_sound (envMap : gmap string string) (key : string)
  (keys : list string) (entries : list (string * string)) :
  In key keys ->
  (forall k v, In (k, v) entries -> envMap !! k = Some v) ->
  forall vars,
    (forall k' v, vars !! k' = Some v -> fromEnv keys envMap k' v) ->
    forall k' v,
      matchLoop ToLower (transform_ key) entries vars !! k' = Some v ->
      fromEnv keys envMap k' v.
Proof.
  intros Hkey. induction entries as [|[ek ev] entries IH];
    intros Hent vars Hvars; [exact Hvars|].
  cbn [matchLoop fold_left fst snd].
  apply IH; [intros; apply Hent; now right|].
  destruct (GoStrings.HasPrefix ek (transform_ key)) eqn:Hp; [|exact Hvars].
  intros k' v. destruct (decide (clean_ ek = k')) as [<-|Hne].
  - rewrite lookup_insert_eq. intros [= <-].
    exists key, ek. repeat split; auto. apply Hent. now left.
  - rewrite lookup_insert_ne by exact Hne. apply Hvars.
Qed.

Lemma matchLoop_keeps (k : string) (entries : list (string * string)) :
  forall vars k', is_Some (vars !! k') ->
                  is_Some (matchLoop ToLower k entries vars !! k').
Proof.
  induction entries as [|[ek ev] entries IH]; intros vars k' H; [exact H|].
  cbn [matchLoop fold_left fst snd]. apply IH.
  destruct (GoStrings.HasPrefix ek k); [|exact H].
  destruct (decide (clean_ ek = k')) as [<-|Hne].
  - rewrite lookup_insert_eq. eauto.
  - now rewrite lookup_insert_ne by exact Hne.
Qed.

Lemma matchLoop_complete (k : string) (entries : list (string * string)) :
  forall vars ek ev,
    In (ek, ev) entries -> GoStrings.HasPrefix ek k = true ->
    is_Some (matchLoop ToLower k entries vars !! clean_ ek).
Proof.
  induction entries as [|[ek0 ev0] entries IH]; intros vars ek ev Hin Hp;
    [destruct Hin|].
  cbn [matchLoop fold_left fst snd].
  destruct Hin as [[= -> ->]|Hin]; [|now apply (IH _ ek ev)].
  rewrite Hp. apply matchLoop_keeps. rewrite lookup_insert_eq. eauto.
Qed.

Lemma keysLoop_sound (envMap : gmap string string) (all : list string)
  (keys : list string) :
  (forall key, In key keys -> In key all) ->
  forall i vars,
    (forall k' v, vars !! k' = Some v -> fromEnv all envMap k' v) ->
    forall k' v,
      keysLoop ToUpper ToLower rangeOrder i keys envMap vars !! k' = Some v ->
      fromEnv all envMap k' v.
Proof.
  induction keys as [|key keys IH]; intros Hall i vars Hvars; [exact Hvars|].
  cbn [keysLoop]. apply IH; [intros; apply Hall; now right|].
  apply matchLoop_sound; [apply Hall; now left | | exact Hvars].
  intros k v. apply Hrange.
Qed.

Lemma keysLoop_keeps (envMap : gmap string string) (keys : list string) :
  forall i vars k',
    is_Some (vars !! k') ->
    is_Some (keysLoop ToUpper ToLower rangeOrder i keys envMap vars !! k').
Proof.
  induction keys as [|key keys IH]; intros i vars k' H; [exact H|].
  cbn [keysLoop]. apply IH, matchLoop_keeps, H.
Qed.

Lemma keysLoop_complete (envMap : gmap string string) (keys : list string) :
  forall i vars key ek ev,
    In key keys -> envMap !! ek = Some ev ->
    GoStrings.HasPrefix ek (transform_ key) = true ->
    is_Some (keysLoop ToUpper ToLower rangeOrder i keys envMap vars
               !! clean_ ek).
Proof.
  induction keys as [|key0 keys IH]; intros i vars key ek ev Hin He Hp;
    [destruct Hin|].
  cbn [keysLoop]. destruct Hin as [->|Hin]; [|now apply (IH _ _ key ek ev)].
  apply keysLoop_keeps. apply (matchLoop_complete _ _ _ ek ev); [|exact Hp].
  now apply Hrange.
Qed.

(** X24.  The env driver's GetValues never returns an error.  When every
    entry of the environment has an equals sign, its result holds a value
    under a key exactly when some variable of the environment, whose name
    starts with the upper-cased form of one of [keys] (slashes turned into
    underscores, the leading slash dropped), has that key as the
    lower-cased form of its name (underscores turned into slashes, a slash
    put in front); the value is that of such a variable.  The match is on
    the beginning of the name only. *)
Theorem env_GetValues_prefix_match
  (allEnvVars keys : list string) (envMap : gmap string string) :
  envMapLoop allEnvVars ∅ = Some envMap ->
  exists vars,
    GetValues ToUpper ToLower rangeOrder allEnvVars keys
    = TemplateFunc.Returns (vars, None)
    /\ (forall k' v, vars !! k' = Some v -> fromEnv keys envMap k' v)
    /\ (forall key envKey v,
          In key keys -> envMap !! envKey = Some v ->
          GoStrings.HasPrefix envKey (transform_ key) = true ->
          is_Some (vars !! clean_ envKey)).
Proof.
  intros Hmap. unfold GetValues. rewrite Hmap.
  eexists. split; [reflexivity|]. split.
  - apply keysLoop_sound; [auto|].
    intros k' v H. rewrite lookup_empty in H. discriminate.
  - intros key envKey v Hin He Hp.
    now apply (keysLoop_complete _ _ _ _ key envKey v).
Qed.

End EnvValuesFacts.

Section EnvKeyFacts.

Import EnvValues.

Lemma sortedOrder_visitsAll : visitsAll sortedOrder.
Proof.
  intros i m k v. unfold sortedOrder.
  rewrite <- list_elem_of_In. apply elem_of_map_to_list.
Qed.

Lemma Index_bounds (s : string) (c : ascii) :
  -1 <= Index s c < Z.of_nat (String.length s) \/ (s = "" /\ Index s c = -1).
Proof.
  induction s as [|a s IH]; [now right|]. left.
  cbn [Index String.length]. destruct (Ascii.eqb a c); [lia|].
  destruct (Z.ltb_spec (Index s c) 0); lia.
Qed.

Lemma Index_absent (s : string) (c : ascii) :
  Index s c < 0 <-> ~ In c (list_ascii_of_string s).
Proof.
  induction s as [|a s IH]; cbn [Index list_ascii_of_string In]; [lia|].
  destruct (Ascii.eqb_spec a c) as [->|Hne].
  - split; [lia | intros H; exfalso; apply H; now left].
  - destruct (Z.ltb_spec (Index s c) 0) as [Hlt|Hge].
    + split; [|lia]. intros _ [H|H]; [contradiction | now apply IH in H].
    + split; [lia|]. intros H. exfalso.
      assert (~ In c (list_ascii_of_string s)) as H' by tauto.
      apply IH in H'. lia.
Qed.

Lemma cut_entry (name value : string) :
  ~ In "="%char (list_ascii_of_string name) ->
  cut (name +:+ "=" +:+ value) = Some (name, value).
Proof.
  intros Hname. unfold cut.
  assert (Hi : Index (name +:+ "=" +:+ value) "="
               = Z.of_nat (String.length name)).
  { induction name as [|a name IH].
    - reflexivity.
    - change (String a name +:+ "=" +:+ value)
        with (String a (name +:+ "=" +:+ value)).
      cbn [Index String.length list_ascii_of_string In] in *.
      destruct (Ascii.eqb_spec a "=") as [->|_]; [tauto|].
      rewrite IH by tauto.
      destruct (Z.ltb_spec (Z.of_nat (String.length name)) 0); lia. }
  rewrite Hi.
  destruct (Z.ltb_spec (Z.of_nat (String.length name)) 0) as [|_]; [lia|].
  rewrite Nat2Z.id. clear Hi Hname. f_equal. f_equal.
  - induction name as [|a name IH]; [reflexivity|].
    change (String a name +:+ "=" +:+ value)
      with (String a (name +:+ "=" +:+ value)).
    cbn [String.length String.substring]. now rewrite IH.
  - induction name as [|a name IH].
    + change ("" +:+ "=" +:+ value) with (String "=" value).
      cbn [String.length Nat.add String.substring Nat.sub].
      rewrite Nat.sub_0_r. apply substring_all.
    + change (String a name +:+ "=" +:+ value)
        with (String a (name +:+ "=" +:+ value)).
      cbn [String.length Nat.add String.substring Nat.sub]. exact IH.
Qed.

(** X25.  The env driver's GetValues panics exactly when some entry of
    the environment has no equals sign: the index -1 is then used as the
    bound of a slice.  An entry is otherwise cut at its first equals
    sign. *)
Theorem env_GetValues_panics
  (ToUpper ToLower : string -> string)
  (rangeOrder : nat -> gmap string string -> list (string * string))
  (allEnvVars keys : list string) :
  (GetValues ToUpper ToLower rangeOrder allEnvVars keys = TemplateFunc.Panics
   <-> Exists (fun e => ~ In "="%char (list_ascii_of_string e)) allEnvVars)
  /\ (forall name value,
        ~ In "="%char (list_ascii_of_string name) ->
        cut (name +:+ "=" +:+ value) = Some (name, value)).
Proof.
  split; [|exact cut_entry].
  unfold GetValues.
  assert (H : forall m,
            envMapLoop allEnvVars m = None
            <-> Exists (fun e => ~ In "="%char (list_ascii_of_string e))
                  allEnvVars).
  { induction allEnvVars as [|e rest IH]; intros m; cbn [envMapLoop].
    - split; [discriminate | intros H; inversion H].
    - rewrite Exists_cons. unfold cut.
      destruct (Z.ltb_spec (Index e "=") 0) as [Hlt|Hge].
      + split; [|reflexivity]. intros _. left. now apply Index_absent.
      + rewrite IH. split; [now right|].
        intros [H|H]; [|exact H]. apply Index_absent in H. lia. }
  destruct (envMapLoop allEnvVars ∅) eqn:He.
  - split; [discriminate|]. intros Hex. apply (H ∅) in Hex. congruence.
  - split; [|reflexivity]. intros _. now apply (H ∅).
Qed.

Lemma mapBytes_length (f : ascii -> ascii) (s : string) :
  String.length (mapBytes f s) = String.length s.
Proof. induction s as [|a s IH]; cbn; [reflexivity | now rewrite IH]. Qed.

Lemma replaceByte_length (old new : ascii) (s : string) :
  String.length (replaceByte old new s) = String.length s.
Proof. induction s as [|a s IH]; cbn; [reflexivity | now rewrite IH]. Qed.

Lemma prefix_refl (s : string) : String.prefix s s = true.
Proof.
  induction s as [|c s IH]; [reflexivity|]. cbn [String.prefix].
  destruct (Ascii.ascii_dec c c); [exact IH | contradiction].
Qed.

Lemma prefix_same_length (p s : string) :
  String.prefix p s = true -> String.length p = String.length s -> s = p.
Proof.
  revert s. induction p as [|c p IH]; intros [|d s]; cbn; try discriminate;
    [reflexivity|].
  destruct (Ascii.ascii_dec c d) as [->|]; [|discriminate].
  intros H [= Hl]. f_equal. now apply IH.
Qed.

Lemma keyByte_round_trip (c : ascii) :
  keyByte c = true ->
  (let u := lowerByte (upperByte (if Ascii.eqb c "/" then "_"%char else c)) in
   if Ascii.eqb u "_" then "/"%char else u) = c.
Proof.
  destruct c as [[] [] [] [] [] [] [] []]; vm_compute;
    intros H; reflexivity || discriminate H.
Qed.

Lemma clean_transform (body : string) :
  keyBytes body = true ->
  clean ToLowerASCII (transform ToUpperASCII ("/" +:+ body)) = "/" +:+ body.
Proof.
  intros Hb. unfold clean, transform.
  rewrite (TrimPrefix_append "/" body).
  change ("/" +:+ ?x) with (String "/" x).
  unfold ToLowerASCII, ToUpperASCII.
  cbn [mapBytes replaceByte].
  change (Ascii.eqb (lowerByte "/") "_") with false. cbv iota.
  change (lowerByte "/") with "/"%char. f_equal.
  induction body as [|c body IH]; [reflexivity|].
  cbn [keyBytes] in Hb. apply andb_prop in Hb. destruct Hb as [Hc Hb].
  cbn [replaceByte mapBytes]. rewrite (IH Hb). f_equal.
  exact (keyByte_round_trip c Hc).
Qed.

(** X26.  Asked for one key of lower-case ASCII form, the env driver's
    GetValues returns, under that very key, the value of the variable
    whose name is the key without its leading slash, in upper case and
    with underscores for slashes, when the environment has it: the value
    of APP_DB_HOST is found under /app/db/host. *)
Theorem env_GetValues_finds_key
  (rangeOrder : nat -> gmap string string -> list (string * string))
  (allEnvVars : list string) (body v : string)
  (envMap : gmap string string) :
  visitsAll rangeOrder ->
  envMapLoop allEnvVars ∅ = Some envMap ->
  keyBytes body = true ->
  envMap !! ToUpperASCII (replaceByte "/" "_" body) = Some v ->
  exists vars,
    GetValues ToUpperASCII ToLowerASCII rangeOrder allEnvVars ["/" +:+ body]
    = TemplateFunc.Returns (vars, None)
    /\ vars !! ("/" +:+ body) = Some v.
Proof.
  intros Hrange Hmap Hb Hv.
  assert (Htr : transform ToUpperASCII ("/" +:+ body)
                = ToUpperASCII (replaceByte "/" "_" body)).
  { unfold transform. now rewrite (TrimPrefix_append "/" body). }
  unfold GetValues. rewrite Hmap. eexists. split; [reflexivity|].
  pose proof (keysLoop_complete ToUpperASCII ToLowerASCII rangeOrder Hrange
                envMap ["/" +:+ body] 0 ∅ ("/" +:+ body) _ v
                ltac:(now left) Hv) as Hsome.
  rewrite Htr in Hsome. specialize (Hsome (prefix_refl _)).
  rewrite <- Htr, (clean_transform body Hb) in Hsome.
  destruct Hsome as [v' Hv']. rewrite Hv'. f_equal.
  pose proof (keysLoop_sound ToUpperASCII ToLowerASCII rangeOrder Hrange
                envMap ["/" +:+ body] ["/" +:+ body] ltac:(auto) 0 ∅
                ltac:(intros k' x H; rewrite lookup_empty in H; discriminate)
                _ _ Hv') as (key & ek & Hin & Hek & Hp & Hc).
  destruct Hin as [<-|[]].
  rewrite Htr in Hp.
  assert (ek = ToUpperASCII (replaceByte "/" "_" body)) as ->.
  { apply prefix_same_length; [exact Hp|].
    apply (f_equal String.length) in Hc.
    unfold clean, ToLowerASCII in Hc.
    rewrite replaceByte_length, mapBytes_length in Hc.
    change ("/" +:+ ?x) with (String "/" x) in Hc. cbn [String.length] in Hc.
    unfold ToUpperASCII. rewrite mapBytes_length, replaceByte_length. lia. }
  congruence.
Qed.

End EnvKeyFacts.

Lemma env_GetValues_prefix_match_witness :
  exists vars,
    EnvValues.GetValues EnvValues.ToUpperASCII EnvValues.ToLowerASCII
      EnvValues.sortedOrder EnvExamples.environ ["/app"]
    = TemplateFunc.Returns (vars, None)
    /\ (forall k' v,
          vars !! k' = Some v ->
          exists key envKey,
            In key ["/app"] /\ EnvExamples.envMap !! envKey = Some v
            /\ GoStrings.HasPrefix envKey
                 (EnvValues.transform EnvValues.ToUpperASCII key) = true
            /\ EnvValues.clean EnvValues.ToLowerASCII envKey = k')
    /\ (forall key envKey v,
          In key ["/app"] -> EnvExamples.envMap !! envKey = Some v ->
          GoStrings.HasPrefix envKey
            (EnvValues.transform EnvValues.ToUpperASCII key) = true ->
          is_Some (vars !! EnvValues.clean EnvValues.ToLowerASCII envKey)).
Proof.
  exact (env_GetValues_prefix_match
           EnvValues.ToUpperASCII EnvValues.ToLowerASCII
           EnvValues.sortedOrder sortedOrder_visitsAll
           EnvExamples.environ ["/app"] EnvExamples.envMap eq_refl).
Defined.

Lemma env_GetValues_finds_key_witness :
  exists vars,
    EnvValues.GetValues EnvValues.ToUpperASCII EnvValues.ToLowerASCII
      EnvValues.sortedOrder EnvExamples.environ ["/" +:+ "app/db/host"]
    = TemplateFunc.Returns (vars, None)
    /\ vars !! ("/" +:+ "app/db/host") = Some "10.0.0.1".
Proof.
  exact (env_GetValues_finds_key EnvValues.sortedOrder EnvExamples.environ
           "app/db/host" "10.0.0.1" EnvExamples.envMap
           sortedOrder_visitsAll eq_refl eq_refl eq_refl).
Defined.

Example env_GetValues_example :
  EnvValues.GetValues EnvValues.ToUpperASCII EnvValues.ToLowerASCII
    EnvValues.sortedOrder EnvExamples.environ ["/app"]
  = TemplateFunc.Returns
      (<["/app/db/host" := "10.0.0.1"]> (<["/apple" := "1"]> ∅), None).
Proof. vm_compute. reflexivity. Qed.

(** ** Options *)

Section OptionsFacts.

Import ConfigOptions.

Variables Fn Updater : Type.
Variable rangeOrder : gmap string Fn -> list (string * Fn).

(** [range] visits every entry of a map once. *)
Hypothesis Hrange : forall m, rangeOrder m ≡ₚ map_to_list m.

Lemma assign_union (kvs : list (string * Fn)) :
  forall acc : gmap string Fn,
    fold_left (fun acc kv => <[fst kv := snd kv]> acc) kvs acc
    = list_to_map (rev kvs) ∪ acc.
Proof.
  induction kvs as [|[k v] kvs IH] using rev_ind; intros acc.
  - cbn. now rewrite (left_id_L ∅ (∪)).
  - rewrite fold_left_app, rev_app_distr.
    cbn [fold_left rev app fst snd list_to_map]. rewrite IH.
    now rewrite insert_union_l.
Qed.

Lemma copyInto_union (m acc : gmap string Fn) :
  copyInto Fn rangeOrder m acc = m ∪ acc.
Proof.
  unfold copyInto. rewrite assign_union. f_equal.
  rewrite <- (list_to_map_to_list m) at 2.
  rewrite rev_alt. change (rev_append ?l []) with (reverse l).
  apply list_to_map_proper.
  - rewrite fmap_reverse, reverse_Permutation, Hrange.
    apply NoDup_fst_map_to_list.
  - rewrite reverse_Permutation. apply Hrange.
Qed.

Lemma copyAll_union (maps : list (gmap string Fn)) :
  forall acc : gmap string Fn,
    fold_left (fun acc m => copyInto Fn rangeOrder m acc) maps acc
    = ⋃ (rev maps) ∪ acc.
Proof.
  induction maps as [|m maps IH] using rev_ind; intros acc.
  - cbn. now rewrite (left_id_L ∅ (∪)).
  - rewrite fold_left_app, rev_app_distr. cbn [fold_left rev app].
    rewrite IH, copyInto_union. cbn [union_list foldr].
    now rewrite (assoc_L (∪)).
Qed.

(** X27.  WithFuncMap merges: afterwards the function map is never nil and
    binds a name to the function of the last of the given maps that has
    the name, and to what the map of the configuration had before when
    none has it; the mode, the interval and the updaters stay as they
    were.  The order in which [range] visits the entries of a map makes no
    difference. *)
Theorem WithFuncMap_merges
  (maps : list (gmap string Fn)) (opt : Config Fn Updater) :
  FuncMap Fn Updater (WithFuncMap Fn Updater rangeOrder maps opt)
  = Some (⋃ (rev maps) ∪ default ∅ (FuncMap Fn Updater opt))
  /\ Onetime Fn Updater (WithFuncMap Fn Updater rangeOrder maps opt)
     = Onetime Fn Updater opt
  /\ Watch Fn Updater (WithFuncMap Fn Updater rangeOrder maps opt)
     = Watch Fn Updater opt
  /\ Interval Fn Updater (WithFuncMap Fn Updater rangeOrder maps opt)
     = Interval Fn Updater opt
  /\ FuncMapUpdater Fn Updater (WithFuncMap Fn Updater rangeOrder maps opt)
     = FuncMapUpdater Fn Updater opt.
Proof.
  repeat split. cbn [WithFuncMap FuncMap]. rewrite copyAll_union.
  destruct (FuncMap Fn Updater opt); reflexivity.
Qed.

End OptionsFacts.

Lemma WithFuncMap_merges_witness :
  ConfigOptions.FuncMap string unit
    (ConfigOptions.WithFuncMap string unit map_to_list
       [<["add" := "one"]> ∅; <["add" := "two"]> (<["sub" := "two"]> ∅)]
       {| ConfigOptions.Onetime := true; ConfigOptions.Watch := false;
          ConfigOptions.Interval := 600; ConfigOptions.FuncMap := None;
          ConfigOptions.FuncMapUpdater := [] |})
  = Some (⋃ (rev [<["add" := "one"]> ∅;
                  <["add" := "two"]> (<["sub" := "two"]> ∅)])
          ∪ default ∅ None)
  /\ true = true /\ false = false /\ 600 = 600
  /\ ConfigOptions.FuncMapUpdater string unit
       (ConfigOptions.WithFuncMap string unit map_to_list
          [<["add" := "one"]> ∅; <["add" := "two"]> (<["sub" := "two"]> ∅)]
          {| ConfigOptions.Onetime := true; ConfigOptions.Watch := false;
             ConfigOptions.Interval := 600; ConfigOptions.FuncMap := None;
             ConfigOptions.FuncMapUpdater := [] |})
     = [].
Proof.
  exact (WithFuncMap_merges string unit map_to_list
           (fun m => reflexivity _)
           [<["add" := "one"]> ∅; <["add" := "two"]> (<["sub" := "two"]> ∅)]
           {| ConfigOptions.Onetime := true; ConfigOptions.Watch := false;
              ConfigOptions.Interval := 600; ConfigOptions.FuncMap := None;
              ConfigOptions.FuncMapUpdater := [] |}).
Defined.

Example WithFuncMap_later_map_wins :
  ConfigOptions.FuncMap string unit
    (ConfigOptions.WithFuncMap string unit map_to_list
       [<["add" := "one"]> ∅; <["add" := "two"]> (<["sub" := "two"]> ∅)]
       {| ConfigOptions.Onetime := true; ConfigOptions.Watch := false;
          ConfigOptions.Interval := 600; ConfigOptions.FuncMap := None;
          ConfigOptions.FuncMapUpdater := [] |})
  = Some (<["add" := "two"]> (<["sub" := "two"]> ∅)).
Proof. vm_compute. reflexivity. Qed.

Section EtcdOptionsFacts.

Import EtcdOptions.

Lemma machines_hosts (nodes : list (list string)) :
  forall cfg,
    Host (fold_left (fun cfg fn => fn cfg) (map WitchMachines nodes) cfg)
    = Host cfg ++ concat nodes.
Proof.
  induction nodes as [|n nodes IH]; intros cfg; cbn [map fold_left concat].
  - now rewrite app_nil_r.
  - rewrite IH. cbn [WitchMachines Host]. now rewrite app_assoc.
Qed.

(** X28.  After the etcd driver's applyOptions the list of hosts is never
    empty.  With machine options it is the configured hosts followed by
    the nodes of the options in order, and the single default node
    127.0.0.1:2379 when there is none of either. *)
Theorem etcd_applyOptions_hosts
  (cfg : BackendConfig) (opts : list EtcdOptions)
  (nodes : list (list string)) :
  Host (applyOptions cfg opts) <> []
  /\ Host (applyOptions cfg (map WitchMachines nodes))
     = (if (length (Host cfg ++ concat nodes) =? 0)%nat
        then ["127.0.0.1:2379"] else Host cfg ++ concat nodes).
Proof.
  split.
  - unfold applyOptions.
    destruct (Nat.eqb_spec
                (length (Host (fold_left (fun cfg fn => fn cfg) opts cfg))) 0)
      as [H|H]; [discriminate|].
    intros H0. rewrite H0 in H. now apply H.
  - unfold applyOptions. rewrite machines_hosts.
    destruct (length (Host cfg ++ concat nodes) =? 0)%nat; [reflexivity|].
    apply machines_hosts.
Qed.

End EtcdOptionsFacts.

(** ** The watcher of one resource *)

Section MonitorFacts.

Import Backends Monitor.

Lemma run_returned_more_fuel (fuel : nat) :
  forall fuel' a trace t trace',
    run fuel a trace t = (trace', true) -> (fuel <= fuel')%nat ->
    run fuel' a trace t = (trace', true).
Proof.
  induction fuel as [|fuel IH]; intros fuel' a trace t trace' H Hle;
    [discriminate|].
  destruct fuel' as [|fuel']; [lia|].
  cbn [run] in *.
  destruct (observe t) as [r|t'|X e k]; [exact H | apply IH; [exact H | lia] |].
  destruct e as [w|m].
  - destruct w; [apply IH; [exact H | lia] | apply IH; [exact H | lia] |].
    destruct (responses a) as [|r1 rest]; [discriminate|].
    apply IH; [exact H | lia].
  - destruct m; [|apply IH; [exact H | lia]].
    destruct (stops a) as [|s rest]; [discriminate|].
    apply IH; [exact H | lia].
Qed.

Variables (prefix : string) (keys : list string).
Variable render : Z -> error.

(** X29.  The watcher of a resource, started with last index 0 and
    stopped later.  On the etcd driver it renders at once, before any
    dial or watch, with last index 1; it then dials and watches, and
    renders again when an event about one of its keys arrives, with the
    version of that event as last index.  On the env driver it waits for
    the stop signal first and then renders once more, with last index 0,
    before it sees that the processor was stopped. *)
Theorem monitorPrefix_rounds
  (evs : list (string * Z)) (ev : string * Z) (fuel : nat) :
  firstMatch keys evs = Some ev ->
  (10 <= fuel)%nat ->
  run fuel
    {| stops := [false; false; true]; dialed := None;
       responses := [Some evs]; rendered := render |} []
    (monitorPrefix EtcdClient prefix keys 0)
  = ([AStoped false; AProcess 1 (render 1);
      AStoped false; ADial None; AResponse (Some evs);
      AProcess (wrap64 (snd ev)) (render (wrap64 (snd ev)));
      AStoped true], true)
  /\ run fuel
       {| stops := [false; true]; dialed := None;
          responses := []; rendered := render |} []
       (monitorPrefix EnvClient prefix keys 0)
     = ([AStoped false; AStopSignal; AProcess 0 (render 0);
         AStoped true], true).
Proof.
  intros Hm Hfuel. split.
  - apply (run_returned_more_fuel 10); [|exact Hfuel].
    cbv -[firstMatch wrap64]. rewrite Hm. cbv -[wrap64]. reflexivity.
  - apply (run_returned_more_fuel 10); [|exact Hfuel].
    cbv. reflexivity.
Qed.

End MonitorFacts.

Lemma monitorPrefix_rounds_witness :
  Monitor.run 12
    {| Monitor.stops := [false; false; true]; Monitor.dialed := None;
       Monitor.responses := [Some [("/other/a", 4); ("/app/port", 7)]];
       Monitor.rendered := fun _ => None |} []
    (Monitor.monitorPrefix Backends.EtcdClient "/app" ["/app/port"] 0)
  = ([Monitor.AStoped false; Monitor.AProcess 1 None;
      Monitor.AStoped false; Monitor.ADial None;
      Monitor.AResponse (Some [("/other/a", 4); ("/app/port", 7)]);
      Monitor.AProcess (Backends.wrap64 (snd ("/app/port", 7))) None;
      Monitor.AStoped true], true)
  /\ Monitor.run 12
       {| Monitor.stops := [false; true]; Monitor.dialed := None;
          Monitor.responses := []; Monitor.rendered := fun _ => None |} []
       (Monitor.monitorPrefix Backends.EnvClient "/app" ["/app/port"] 0)
     = ([Monitor.AStoped false; Monitor.AStopSignal;
         Monitor.AProcess 0 None; Monitor.AStoped true], true).
Proof.
  exact (monitorPrefix_rounds "/app" ["/app/port"] (fun _ => None)
           [("/other/a", 4); ("/app/port", 7)] ("/app/port", 7) 12
           eq_refl ltac:(lia)).
Defined.
